(** * Bulk send session engine of whatsapp-sender (src/index.ts)

    A shallow embedding of the session engine of [class WhatsAppSender]:
    the progress-tracking methods ([createNewSession],
    [updateSessionProgress], [completeSession], [saveSessionResults]), the
    resume path ([resumeInterruptedSession], [resumeSession]), the driver
    ([sendBulkMessages], [quickBulkSend], [sendBulkMessagesInternal]) and
    the phone formatter ([formatPhoneNumber]).

    The engine is embedded twice. The first embedding runs an entry of
    the menu, and the handler of the shutdown signal, in one piece: it
    is the program when no signal arrives while an entry runs. The
    second cuts the same code at its [await]s and lets the handler of
    the signal ([gracefulShutdown]) take its turns between those of the
    main function, up to [process.exit]; the two are proved to agree on
    the runs that no signal disturbs.

    Around the engine, the file also embeds the prompts that add a
    contact or a template ([addContact], [addMessageTemplate]), the send
    of one message ([sendSingleMessage], [sendMediaMessage]), the
    deletion of a session ([deleteSession], [deleteSessionFile]), the
    configuration manager of src/config.ts ([mergeConfigs],
    [loadConfig], [saveConfig], [updateConfig], [get], [set]) and the two
    entries of the settings menu that write delays
    ([updateDelaySettings], [updateOptionalDelays]).

    Conventions of the embedding.
    - JavaScript numbers that hold counters and delays are [Z]: the
      delays of the embedding are whole numbers of seconds. A prompt of
      the program also accepts a decimal such as 1.5; runs with such
      delays are not represented.
    - A draw [Math.floor(Math.random() * k)] is the floor of an exact
      product. The program rounds the product to a double first, which
      stays in the same range of integers and, for a draw within
      rounding of the next integer, gives that integer: the statements
      about sleeps are about ranges.
    - Strings are [string]; a character is a digit when it is one of
      the ten ASCII digits, which is what the regular expression [\D]
      complements. A string is read as a sequence of code units below
      256, among which white space is the seven characters [isSpace]
      names.
    - A value of the configuration is a [Json]; an object is a [gmap]
      from its keys to their values, so the order of the keys is not
      kept, and the file config.json holds the value that
      [JSON.stringify] wrote, as [JSON.parse] reads it back. Prototypes
      are not represented: the statements about a configuration read
      from a file assume that the file has no top-level key
      ["__proto__"], the one key whose assignment changes a prototype.
    - [this.currentSession] is an [option]; the directory of session files
      is a [gmap] from the session id to the snapshot written last, and
      every write is taken to succeed.
    - [Math.random()], [new Date().toISOString()], the session id
      generator, the answers of the interactive prompts and the WhatsApp
      client are oracles of the environment; [Math.random()] is a rational
      of the interval [0,1).
    - What the loop does to the outside (the start of a send, a
      [setTimeout] sleep, a progress record) and the assignments to the
      [status] field of the current session are logged in order in a
      trace. *)

From Stdlib Require Import ZArith QArith Qround String Ascii.
From stdpp Require Import gmap strings list pretty.

Local Open Scope string_scope.
Local Open Scope Z_scope.
Local Open Scope list_scope.

(** ** Strings *)

Module Js.

(** [\d]: one of the ten ASCII digits. *)
Definition isDigit (c : ascii) : bool :=
  let k := N_of_ascii c in ((48 <=? k) && (k <=? 57))%N.

(** [s.replace(/\D/g, '')]. *)
Fixpoint stripNonDigits (s : string) : string :=
  match s with
  | EmptyString => EmptyString
  | String c rest =>
      if isDigit c then String c (stripNonDigits rest) else stripNonDigits rest
  end.

(** [s.startsWith(p)]. *)
Fixpoint startsWith (p s : string) : bool :=
  match p with
  | EmptyString => true
  | String a p' =>
      match s with
      | EmptyString => false
      | String b s' => if Ascii.eqb a b then startsWith p' s' else false
      end
  end.

(** [s.substring(1)]. *)
Definition substring1 (s : string) : string :=
  match s with
  | EmptyString => EmptyString
  | String _ rest => rest
  end.

End Js.

(** ** formatPhoneNumber *)

Definition formatPhoneNumber (phone : string) : string :=
  let cleanNumber := Js.stripNonDigits phone in
  if Js.startsWith "0" cleanNumber then
    ("62" ++ Js.substring1 cleanNumber ++ "@c.us")%string
  else if Js.startsWith "62" cleanNumber then
    (cleanNumber ++ "@c.us")%string
  else
    ("62" ++ cleanNumber ++ "@c.us")%string.

(** ** Data model *)

Module Contact.
Record t : Type := mk { name : string; phone : string }.
End Contact.

Module MessageTemplate.
Record t : Type := mk {
  name : string;
  content : string;
  media : option (list string)
}.
End MessageTemplate.

(** ['success' | 'failed' | 'pending'], the status of a result. *)
Inductive ResultStatus : Type := success | failed | pending.

#[global] Instance ResultStatus_eq_dec : EqDecision ResultStatus.
Proof. solve_decision. Defined.

(** ['success' | 'failed'], the status [updateSessionProgress] accepts. *)
Inductive Outcome : Type := Succeeded | Failed.

Definition statusOf (o : Outcome) : ResultStatus :=
  match o with Succeeded => success | Failed => failed end.

Module BulkMessageResult.
(** [template] is [None] when the driver records a contact for which
    [this.messageTemplates[...]] was [undefined]. *)
Record t : Type := mk {
  contact : Contact.t;
  template : option MessageTemplate.t;
  status : ResultStatus;
  timestamp : string;
  error : option string;
  messageId : option string
}.
End BulkMessageResult.

(** [{ everyNMessages: { n, min, max } }], an entry of [optionalDelays]. *)
Module EveryNMessages.
Record t : Type := mk { n : Z; min : Z; max : Z }.
End EveryNMessages.

Module DelayRule.
Record t : Type := mk { everyNMessages : option EveryNMessages.t }.
End DelayRule.

(** The delays are whole numbers of seconds. *)
Module DelaySettings.
Record t : Type := mk {
  minDelay : Z;
  maxDelay : Z;
  optionalDelays : list DelayRule.t
}.
End DelaySettings.

(** ['running' | 'completed' | 'interrupted']. *)
Inductive SessionStatus : Type := running | completed | interrupted.

#[global] Instance SessionStatus_eq_dec : EqDecision SessionStatus.
Proof. solve_decision. Defined.

Module BulkMessageSession.
Record t : Type := mk {
  id : string;
  startTime : string;
  endTime : option string;
  totalContacts : Z;
  completedContacts : Z;
  failedContacts : Z;
  pendingContacts : Z;
  results : list BulkMessageResult.t;
  status : SessionStatus;
  delaySettings : DelaySettings.t
}.

Definition setStatus (st : SessionStatus) (s : t) : t :=
  mk (id s) (startTime s) (endTime s) (totalContacts s)
     (completedContacts s) (failedContacts s) (pendingContacts s)
     (results s) st (delaySettings s).

Definition setEndTime (e : string) (s : t) : t :=
  mk (id s) (startTime s) (Some e) (totalContacts s)
     (completedContacts s) (failedContacts s) (pendingContacts s)
     (results s) (status s) (delaySettings s).

(** [results.push(r)] followed by the two counter updates of
    [updateSessionProgress]. *)
Definition record (r : BulkMessageResult.t) (dc df dp : Z) (s : t) : t :=
  mk (id s) (startTime s) (endTime s) (totalContacts s)
     (completedContacts s + dc) (failedContacts s + df)
     (pendingContacts s + dp)
     (results s ++ [r]) (status s) (delaySettings s).

(** The [if (status === 'success') ... else if (status === 'failed')]
    of [updateSessionProgress], after the push. *)
Definition applyOutcome (r : BulkMessageResult.t) (o : Outcome) (s : t) : t :=
  match o with
  | Succeeded => record r 1 0 (-1) s
  | Failed => record r 0 1 (-1) s
  end.
End BulkMessageSession.

(** The [messaging] section of the configuration (config.ts). *)
Module Messaging.
Record t : Type := mk {
  defaultMinDelay : Z;
  defaultMaxDelay : Z;
  quickBulkMinDelay : Z;
  quickBulkMaxDelay : Z;
  maxRetries : Z;
  optionalDelays : list DelayRule.t
}.
End Messaging.

(** [defaultConfig.messaging] of config.ts. *)
Definition defaultMessaging : Messaging.t :=
  Messaging.mk 3 8 2 6 3
    [DelayRule.mk (Some (EveryNMessages.mk 10 30 60))].

(** ** Environment and state *)

(** What the engine does to the outside, in order. *)
Inductive Event : Type :=
| EvSend (address : string) (template : MessageTemplate.t)
    (* the loop starts a send: it calls [sendMediaMessage] for a template
       with media and [client.sendMessage] for any other *)
| EvRecord (contact : Contact.t) (o : Outcome)
    (* [updateSessionProgress] is called for the contact *)
| EvWait (seconds : Z)
    (* [await new Promise(resolve => setTimeout(resolve, seconds * 1000))] *)
| EvStatus (sessionId : string) (before after : SessionStatus).
    (* [this.currentSession.status = after], the field holding [before] *)

(** The oracles. Each read takes the value at the current tick and moves
    the tick on, so every sequence of answers can be represented. *)
Record Env : Type := mkEnv {
  random : nat → Q;      (* Math.random() *)
  isoNow : nat → string; (* new Date().toISOString() *)
  freshId : nat → string; (* generateSessionId() *)
  deliver : nat → string → MessageTemplate.t → option string
    (* how a send of the loop ends: [None] when the call returns,
       [Some msg] when it throws an error whose message is [msg]; the
       error is one of the client or, for a template with media, one
       that [sendMediaMessage] throws before it reaches the client
       ('Media file not found: ...') *)
}.

Record World : Type := mkWorld {
  currentSession : option BulkMessageSession.t;
  files : gmap string BulkMessageSession.t; (* data/results/<id>.json *)
  contacts : list Contact.t;
  messageTemplates : list MessageTemplate.t;
  messaging : Messaging.t;
  tick : nat;
  trace : list Event
}.

Definition setCurrent (c : option BulkMessageSession.t) (w : World) : World :=
  mkWorld c (files w) (contacts w) (messageTemplates w) (messaging w)
          (tick w) (trace w).

Definition writeFile (k : string) (s : BulkMessageSession.t) (w : World) : World :=
  mkWorld (currentSession w) (<[k := s]> (files w)) (contacts w)
          (messageTemplates w) (messaging w) (tick w) (trace w).

Definition bump (w : World) : World :=
  mkWorld (currentSession w) (files w) (contacts w) (messageTemplates w)
          (messaging w) (S (tick w)) (trace w).

Definition emit (e : Event) (w : World) : World :=
  mkWorld (currentSession w) (files w) (contacts w) (messageTemplates w)
          (messaging w) (tick w) (trace w ++ [e]).

(** The state monad of the engine. *)
Definition M (A : Type) : Type := World → A * World.

#[global] Instance M_ret : MRet M := λ A a w, (a, w).
#[global] Instance M_bind : MBind M :=
  λ A B k m w, let (a, w') := m w in k a w'.

Definition exec {A} (m : M A) (w : World) : World := snd (m w).

Definition get : M World := λ w, (w, w).
Definition modify (f : World → World) : M unit := λ w, (tt, f w).

Section Engine.

Context (env : Env).

(** *** Oracle reads *)

Definition mathRandom : M Q :=
  w ← get; modify bump;; mret (random env (tick w)).

Definition toISOString : M string :=
  w ← get; modify bump;; mret (isoNow env (tick w)).

Definition generateSessionId : M string :=
  w ← get; modify bump;; mret (freshId env (tick w)).

(** *** Progress tracking *)

Definition saveSessionResults : M unit :=
  w ← get;
  match currentSession w with
  | None => mret tt
  | Some s => modify (writeFile (BulkMessageSession.id s) s)
  end.

Definition createNewSession (totalContacts : Z)
    (delaySettings : DelaySettings.t) : M BulkMessageSession.t :=
  sid ← generateSessionId;
  start ← toISOString;
  let session :=
    BulkMessageSession.mk sid start None totalContacts 0 0 totalContacts
      [] running delaySettings in
  modify (setCurrent (Some session));;
  saveSessionResults;;
  mret session.

Definition updateSessionProgress (contact : Contact.t)
    (template : option MessageTemplate.t) (status : Outcome)
    (error messageId : option string) : M unit :=
  modify (emit (EvRecord contact status));;
  w ← get;
  match currentSession w with
  | None => mret tt
  | Some s =>
      now ← toISOString;
      let result :=
        BulkMessageResult.mk contact template (statusOf status) now
          error messageId in
      modify (setCurrent
                (Some (BulkMessageSession.applyOutcome result status s)));;
      saveSessionResults
  end.

Definition completeSession (status : SessionStatus) : M unit :=
  w ← get;
  match currentSession w with
  | None => mret tt
  | Some s =>
      modify (emit (EvStatus (BulkMessageSession.id s)
                      (BulkMessageSession.status s) status));;
      now ← toISOString;
      modify (setCurrent
                (Some (BulkMessageSession.setEndTime now
                         (BulkMessageSession.setStatus status s))));;
      saveSessionResults;;
      modify (setCurrent None)
  end.

Definition hasCurrentSession (w : World) : bool :=
  match currentSession w with
  | Some s => bool_decide (BulkMessageSession.status s = running)
  | None => false
  end.

(** [loadSessionResults]: every session file. The sort by start time is
    left out; the callers below use the list as a collection. *)
Definition loadSessionResults (w : World) : list BulkMessageSession.t :=
  (map_to_list (files w)).*2.

(** *** Delays *)

(** [Math.floor(u * (max - min + 1)) + min], the product being exact. *)
Definition randomBetween (u : Q) (min max : Z) : Z :=
  Qfloor (u * inject_Z (max - min + 1)) + min.

Definition sleep (seconds : Z) : M unit := modify (emit (EvWait seconds)).

(** [a % b === 0]; [a % 0] is [NaN]. *)
Definition remIsZero (a b : Z) : bool :=
  if b =? 0 then false else Z.rem a b =? 0.

(** The [for (const delayRule of optionalDelays)] loop with its [break]. *)
Fixpoint applyOptionalDelays (messageNumber : Z)
    (rules : list DelayRule.t) : M unit :=
  match rules with
  | [] => mret tt
  | delayRule :: rest =>
      match DelayRule.everyNMessages delayRule with
      | Some e =>
          if remIsZero messageNumber (EveryNMessages.n e) then
            u ← mathRandom;
            sleep (randomBetween u (EveryNMessages.min e) (EveryNMessages.max e))
          else applyOptionalDelays messageNumber rest
      | None => applyOptionalDelays messageNumber rest
      end
  end.

(** *** The driver loop *)

(** [arr[k]] for a number [k] that is an integer. *)
Definition index {A} (l : list A) (k : Z) : option A :=
  if k <? 0 then None else l !! Z.to_nat k.

Definition typeErrorName : string :=
  "Cannot read properties of undefined (reading 'name')".

(** The send of the loop, [sendMediaMessage] or [client.sendMessage]
    by the template, with what it throws. *)
Definition send (address : string) (template : MessageTemplate.t)
    : M (option string) :=
  modify (emit (EvSend address template));;
  w ← get;
  modify bump;;
  mret (deliver env (tick w) address template).

Definition isInterrupted (w : World) : bool :=
  match currentSession w with
  | Some s => bool_decide (BulkMessageSession.status s = interrupted)
  | None => false
  end.

(** One pass of the body of the [for] loop, after the interruption check. *)
Definition sendOne (delaySettings : DelaySettings.t) (total i : nat)
    (contact : Contact.t) : M unit :=
  u ← mathRandom;
  w ← get;
  let templates := messageTemplates w in
  let randomTemplate :=
    index templates (Qfloor (u * inject_Z (Z.of_nat (length templates)))) in
  match randomTemplate with
  | None =>
      (* [randomTemplate.name] throws inside the [try] *)
      updateSessionProgress contact None Failed (Some typeErrorName) None
  | Some template =>
      let formattedPhone := formatPhoneNumber (Contact.phone contact) in
      r ← send formattedPhone template;
      match r with
      | Some errorMessage =>
          updateSessionProgress contact (Some template) Failed
            (Some errorMessage) None
      | None =>
          updateSessionProgress contact (Some template) Succeeded None None;;
          if Z.of_nat i <? Z.of_nat total - 1 then
            u ← mathRandom;
            sleep (randomBetween u (DelaySettings.minDelay delaySettings)
                                   (DelaySettings.maxDelay delaySettings));;
            applyOptionalDelays (Z.of_nat i + 1)
              (DelaySettings.optionalDelays delaySettings)
          else mret tt
      end
  end.

(** [for (let i = ...; i < contacts.length; i++)], [todo] being
    [contacts.slice(i)]. *)
Fixpoint sendLoop (delaySettings : DelaySettings.t) (total i : nat)
    (todo : list Contact.t) : M unit :=
  match todo with
  | [] => mret tt
  | contact :: rest =>
      w ← get;
      if isInterrupted w then mret tt
      else
        sendOne delaySettings total i contact;;
        sendLoop delaySettings total (S i) rest
  end.

Definition sendBulkMessagesInternal (contacts : list Contact.t)
    (delaySettings : DelaySettings.t) : M unit :=
  sendLoop delaySettings (length contacts) 0 contacts.

(** *** Entry points *)

(** [minDelay] and [maxDelay] are the answers to the two prompts. The
    loop catches what a send throws, so the [catch] of the entry point is
    never entered. *)
Definition sendBulkMessages (minDelay maxDelay : Z) : M unit :=
  w ← get;
  if (length (contacts w) =? 0)%nat then mret tt
  else if (length (messageTemplates w) =? 0)%nat then mret tt
  else if maxDelay <=? minDelay then mret tt
  else
    let delaySettings :=
      DelaySettings.mk minDelay maxDelay
        (Messaging.optionalDelays (messaging w)) in
    createNewSession (Z.of_nat (length (contacts w))) delaySettings;;
    sendBulkMessagesInternal (contacts w) delaySettings;;
    completeSession completed.

(** [confirm] is the answer to the prompt. *)
Definition quickBulkSend (confirm : bool) : M unit :=
  w ← get;
  if (length (contacts w) =? 0)%nat then mret tt
  else if (length (messageTemplates w) =? 0)%nat then mret tt
  else
    let quickBulkConfig := messaging w in
    if negb confirm then mret tt
    else
      let delaySettings :=
        DelaySettings.mk (Messaging.quickBulkMinDelay quickBulkConfig)
          (Messaging.quickBulkMaxDelay quickBulkConfig)
          (Messaging.optionalDelays quickBulkConfig) in
      createNewSession (Z.of_nat (length (contacts w))) delaySettings;;
      sendBulkMessagesInternal (contacts w) delaySettings;;
      completeSession completed.

(** *** Resume *)

Definition processedContacts (session : BulkMessageSession.t) : gset string :=
  list_to_set
    ((λ r, Contact.phone (BulkMessageResult.contact r))
       <$> BulkMessageSession.results session).

Definition remainingContacts (session : BulkMessageSession.t)
    (contacts : list Contact.t) : list Contact.t :=
  filter (λ c, Contact.phone c ∉ processedContacts session) contacts.

Definition resumeSession (session : BulkMessageSession.t) : M unit :=
  modify (emit (EvStatus (BulkMessageSession.id session)
                  (BulkMessageSession.status session) running));;
  let session := BulkMessageSession.setStatus running session in
  modify (setCurrent (Some session));;
  w ← get;
  let remaining := remainingContacts session (contacts w) in
  if (length remaining =? 0)%nat then completeSession completed
  else
    sendBulkMessagesInternal remaining
      (BulkMessageSession.delaySettings session).

Definition interruptedSessions (w : World) : list BulkMessageSession.t :=
  filter (λ s, BulkMessageSession.status s = interrupted)
         (loadSessionResults w).

(** [sessionChoice] is the answer to the prompt: the position of the
    chosen session in the list of interrupted sessions, or [None] for
    'Start new session'. *)
Definition resumeInterruptedSession (sessionChoice : option nat) : M unit :=
  w ← get;
  let candidates := interruptedSessions w in
  if (length candidates =? 0)%nat then mret tt
  else
    match sessionChoice with
    | None => mret tt
    | Some k =>
        match candidates !! k with
        | Some session => resumeSession session
        | None => mret tt
        end
    end.

(** *** Shutdown signal *)

(** [gracefulShutdown] up to [process.exit], in one piece: the handler
    of the signal when nothing else has a turn before it ends. The
    section on the signal during a run has the handler turn by turn. *)
Definition gracefulShutdown : M unit :=
  w ← get;
  if hasCurrentSession w then completeSession interrupted else mret tt.

(** *** Sequences of progress records *)

(** The arguments of one call of [updateSessionProgress]. *)
Record ProgressCall : Type := mkCall {
  pcContact : Contact.t;
  pcTemplate : option MessageTemplate.t;
  pcStatus : Outcome;
  pcError : option string;
  pcMessageId : option string
}.

(** The calls of a list made one after the other. *)
Fixpoint recordOutcomes (calls : list ProgressCall) : M unit :=
  match calls with
  | [] => mret tt
  | c :: rest =>
      updateSessionProgress (pcContact c) (pcTemplate c) (pcStatus c)
        (pcError c) (pcMessageId c);;
      recordOutcomes rest
  end.

(** *** The menu *)

(** The entries of the interactive menu that touch sessions, with the
    answers to their prompts, and the shutdown signal, each run in one
    piece. *)
Inductive Action : Type :=
| SendBulkMessages (minDelay maxDelay : Z)
| QuickBulkSend (confirm : bool)
| ResumeInterruptedSession (sessionChoice : option nat)
| Shutdown.

Definition perform (a : Action) : M unit :=
  match a with
  | SendBulkMessages minDelay maxDelay => sendBulkMessages minDelay maxDelay
  | QuickBulkSend confirm => quickBulkSend confirm
  | ResumeInterruptedSession sessionChoice =>
      resumeInterruptedSession sessionChoice
  | Shutdown => gracefulShutdown
  end.

End Engine.

(** ** The shutdown signal during a run *)

(** The definitions of the engine run an entry of the menu, and the
    handler of the shutdown signal, in one piece. The program is
    asynchronous: while the main function is suspended at the [await] of
    a prompt, of a send, of a file operation or of a sleep, the handler
    of a signal can start and run up to its own next [await], and the
    two go on in turns until [process.exit]. Below, the engine is cut at
    these awaits. The [await] of an async function that returns without
    reaching such an operation gives the handler no turn.

    Conventions of this part.
    - A write to a session file takes effect when [fs.writeFile] is
      called, which is when [JSON.stringify(this.currentSession)] is
      evaluated: after the [await] of [fs.mkdir].
    - [loadSessionResults] reads the files at once, when the entry of
      the menu starts; the prompts of one entry that follow each other
      with nothing in between count as one [await], and so do the awaits
      inside one send.
    - The outcome of a send is the one the oracle gives for the tick at
      which the send starts. *)

(** What follows the loop. *)
Inductive AfterLoop : Type :=
| CompleteAfter
    (* [sendBulkMessages], [quickBulkSend]:
       [await this.completeSession('completed')], inside their [try] *)
| ReturnAfter.
    (* [resumeSession]: it returns *)

(** What follows a call of [saveSessionResults]. *)
Inductive AfterSave : Type :=
| ThenLoop (after : AfterLoop) (delaySettings : DelaySettings.t)
    (total i : nat) (todo : list Contact.t)
    (* [createNewSession], or the record of a failed send: the loop goes
       on with the contacts [todo], from position [i] *)
| ThenDelay (after : AfterLoop) (delaySettings : DelaySettings.t)
    (total i : nat) (rest : list Contact.t)
    (* the record of the message sent at position [i]: the delay follows *)
| ThenClear (caught : bool).
    (* [completeSession]: the summary and [this.currentSession = null];
       [caught] when the call is inside a [try] (the two bulk entry
       points), not when it is the call of [resumeSession] *)

(** Where the main function is suspended. *)
Inductive Main : Type :=
| AtMenu
    (* the prompt of the menu *)
| Choosing (session : BulkMessageSession.t)
    (* 'Select session to resume:', answered with [session] *)
| Sending (after : AfterLoop) (delaySettings : DelaySettings.t)
    (total i : nat) (contact : Contact.t) (rest : list Contact.t)
    (template : MessageTemplate.t) (outcome : option string)
    (* the send of [template] to [contact] *)
| SavingDir (next : AfterSave)
    (* [fs.mkdir] in [saveSessionResults] *)
| SavingFile (next : AfterSave)
    (* [fs.writeFile] in [saveSessionResults] *)
| SleepingBase (after : AfterLoop) (delaySettings : DelaySettings.t)
    (total i : nat) (rest : list Contact.t)
    (* the sleep drawn from the base range, after the message at [i] *)
| SleepingRule (after : AfterLoop) (delaySettings : DelaySettings.t)
    (total i : nat) (rest : list Contact.t)
    (* the sleep drawn from the range of a rule *)
| Leaving.
    (* 'Exit' was chosen, or an error reached [main]:
       [sender.destroy()] in its [finally], before [process.exit] *)

(** Where a handler of the signal is suspended. *)
Inductive Handler : Type :=
| HSavingDir   (* [fs.mkdir], in the save of [completeSession] *)
| HSavingFile  (* [fs.writeFile], in the save of [completeSession] *)
| HDestroying  (* [globalSender.destroy()], before [process.exit] *)
| HEnded.      (* it has exited, or it has thrown *)

(** The entries of the menu that start or resume a run, with the answers
    to their prompts, and 'Exit'. The other entries assign no status. *)
Inductive MenuEntry : Type :=
| BulkEntry (minDelay maxDelay : Z)
| QuickEntry (confirm : bool)
| ResumeEntry (sessionChoice : option nat)
| ExitEntry.

Record System : Type := mkSystem {
  world : World;
  main : Main;
  entries : list MenuEntry; (* the entries the user will choose *)
  handlers : list Handler;  (* one for each signal received *)
  exited : bool
}.

(** What the event loop does next. *)
Inductive Turn : Type :=
| MainResumes
| SignalArrives
| HandlerResumes (j : nat).

Section Interleaving.

Context (env : Env).

(** Whether the runtime ends the process when the handler throws: the
    promise of the handler is dropped by [process.on], and what Node does
    with an unhandled rejection depends on its version and flags. *)
Context (rejectionExits : bool).

(** [completeSession(status)] up to its save, for the current session
    [s]. *)
Definition markStatus (status : SessionStatus) (s : BulkMessageSession.t)
    : M unit :=
  modify (emit (EvStatus (BulkMessageSession.id s)
                  (BulkMessageSession.status s) status));;
  now ← toISOString env;
  modify (setCurrent
            (Some (BulkMessageSession.setEndTime now
                     (BulkMessageSession.setStatus status s)))).

(** [await this.completeSession('completed')] up to its first await. *)
Definition completeStart (caught : bool) : M Main :=
  w ← get;
  match currentSession w with
  | None => mret AtMenu
  | Some s => markStatus completed s;; mret (SavingDir (ThenClear caught))
  end.

Definition afterLoop (after : AfterLoop) : M Main :=
  match after with
  | CompleteAfter => completeStart true
  | ReturnAfter => mret AtMenu
  end.

(** [await this.updateSessionProgress(...)] up to its first await:
    [resumeNow] is what follows when there is no current session. *)
Definition recordThen (contact : Contact.t)
    (template : option MessageTemplate.t) (status : Outcome)
    (error : option string) (next : AfterSave) (resumeNow : M Main)
    : M Main :=
  modify (emit (EvRecord contact status));;
  w ← get;
  match currentSession w with
  | None => resumeNow
  | Some s =>
      now ← toISOString env;
      let result :=
        BulkMessageResult.mk contact template (statusOf status) now
          error None in
      modify (setCurrent
                (Some (BulkMessageSession.applyOutcome result status s)));;
      mret (SavingDir next)
  end.

(** The loop from the test of its [for], up to the next await. *)
Fixpoint loopTop (after : AfterLoop) (delaySettings : DelaySettings.t)
    (total i : nat) (todo : list Contact.t) : M Main :=
  match todo with
  | [] => afterLoop after
  | contact :: rest =>
      w ← get;
      if isInterrupted w then afterLoop after
      else
        u ← mathRandom env;
        w ← get;
        let templates := messageTemplates w in
        match index templates
                (Qfloor (u * inject_Z (Z.of_nat (length templates)))) with
        | None =>
            recordThen contact None Failed (Some typeErrorName)
              (ThenLoop after delaySettings total (S i) rest)
              (loopTop after delaySettings total (S i) rest)
        | Some template =>
            let formattedPhone := formatPhoneNumber (Contact.phone contact) in
            outcome ← send env formattedPhone template;
            mret (Sending after delaySettings total i contact rest template
                    outcome)
        end
  end.

(** After the record of the message sent at position [i]. *)
Definition delayStart (after : AfterLoop) (delaySettings : DelaySettings.t)
    (total i : nat) (rest : list Contact.t) : M Main :=
  if Z.of_nat i <? Z.of_nat total - 1 then
    u ← mathRandom env;
    sleep (randomBetween u (DelaySettings.minDelay delaySettings)
                           (DelaySettings.maxDelay delaySettings));;
    mret (SleepingBase after delaySettings total i rest)
  else loopTop after delaySettings total (S i) rest.

(** After the sleep drawn from the base range: the loop over the rules,
    up to the sleep of the first rule that applies. *)
Fixpoint ruleStart (after : AfterLoop) (delaySettings : DelaySettings.t)
    (total i : nat) (rest : list Contact.t) (rules : list DelayRule.t)
    : M Main :=
  match rules with
  | [] => loopTop after delaySettings total (S i) rest
  | delayRule :: others =>
      match DelayRule.everyNMessages delayRule with
      | Some e =>
          if remIsZero (Z.of_nat i + 1) (EveryNMessages.n e) then
            u ← mathRandom env;
            sleep (randomBetween u (EveryNMessages.min e)
                                   (EveryNMessages.max e));;
            mret (SleepingRule after delaySettings total i rest)
          else ruleStart after delaySettings total i rest others
      | None => ruleStart after delaySettings total i rest others
      end
  end.

(** After [saveSessionResults]. *)
Definition afterSave (next : AfterSave) : M Main :=
  match next with
  | ThenLoop after delaySettings total i todo =>
      loopTop after delaySettings total i todo
  | ThenDelay after delaySettings total i rest =>
      delayStart after delaySettings total i rest
  | ThenClear caught =>
      w ← get;
      match currentSession w with
      | None =>
          (* the summary reads [this.currentSession.totalContacts] *)
          mret (if caught then AtMenu else Leaving)
      | Some _ => modify (setCurrent None);; mret AtMenu
      end
  end.

(** [saveSessionResults] after [fs.mkdir]: with no current session the
    path cannot be built, the [catch] reports it and the save is over. *)
Definition saveWrite (next : AfterSave) : M Main :=
  w ← get;
  match currentSession w with
  | None => afterSave next
  | Some s =>
      modify (writeFile (BulkMessageSession.id s) s);;
      mret (SavingFile next)
  end.

(** [createNewSession] up to its save, then the loop. *)
Definition startRun (delaySettings : DelaySettings.t) : M Main :=
  w ← get;
  let total := length (contacts w) in
  sid ← generateSessionId env;
  start ← toISOString env;
  modify (setCurrent
            (Some (BulkMessageSession.mk sid start None (Z.of_nat total) 0 0
                     (Z.of_nat total) [] running delaySettings)));;
  mret (SavingDir (ThenLoop CompleteAfter delaySettings total 0 (contacts w))).

(** An entry of the menu up to its first await. *)
Definition choose (entry : MenuEntry) : M Main :=
  w ← get;
  match entry with
  | BulkEntry minDelay maxDelay =>
      if (length (contacts w) =? 0)%nat then mret AtMenu
      else if (length (messageTemplates w) =? 0)%nat then mret AtMenu
      else if maxDelay <=? minDelay then mret AtMenu
      else
        startRun (DelaySettings.mk minDelay maxDelay
                    (Messaging.optionalDelays (messaging w)))
  | QuickEntry confirm =>
      if (length (contacts w) =? 0)%nat then mret AtMenu
      else if (length (messageTemplates w) =? 0)%nat then mret AtMenu
      else if negb confirm then mret AtMenu
      else
        startRun (DelaySettings.mk
                    (Messaging.quickBulkMinDelay (messaging w))
                    (Messaging.quickBulkMaxDelay (messaging w))
                    (Messaging.optionalDelays (messaging w)))
  | ResumeEntry sessionChoice =>
      let candidates := interruptedSessions w in
      if (length candidates =? 0)%nat then mret AtMenu
      else
        match sessionChoice with
        | None => mret AtMenu
        | Some k =>
            match candidates !! k with
            | Some session => mret (Choosing session)
            | None => mret AtMenu
            end
        end
  | ExitEntry => mret Leaving
  end.

(** [resumeSession] up to its first await. *)
Definition resumeStart (session : BulkMessageSession.t) : M Main :=
  modify (emit (EvStatus (BulkMessageSession.id session)
                  (BulkMessageSession.status session) running));;
  let session := BulkMessageSession.setStatus running session in
  modify (setCurrent (Some session));;
  w ← get;
  let remaining := remainingContacts session (contacts w) in
  if (length remaining =? 0)%nat then completeStart false
  else
    loopTop ReturnAfter (BulkMessageSession.delaySettings session)
      (length remaining) 0 remaining.

(** The main function, from the await [m] to the next. *)
Definition resumeMain (m : Main) : M Main :=
  match m with
  | AtMenu => mret AtMenu
  | Choosing session => resumeStart session
  | Sending after delaySettings total i contact rest template outcome =>
      match outcome with
      | Some errorMessage =>
          recordThen contact (Some template) Failed (Some errorMessage)
            (ThenLoop after delaySettings total (S i) rest)
            (loopTop after delaySettings total (S i) rest)
      | None =>
          recordThen contact (Some template) Succeeded None
            (ThenDelay after delaySettings total i rest)
            (delayStart after delaySettings total i rest)
      end
  | SavingDir next => saveWrite next
  | SavingFile next => afterSave next
  | SleepingBase after delaySettings total i rest =>
      ruleStart after delaySettings total i rest
        (DelaySettings.optionalDelays delaySettings)
  | SleepingRule after delaySettings total i rest =>
      loopTop after delaySettings total (S i) rest
  | Leaving => mret Leaving
  end.

(** The handler of the signal up to its first await. *)
Definition handlerStart : M Handler :=
  w ← get;
  match currentSession w with
  | Some s =>
      if bool_decide (BulkMessageSession.status s = running)
      then markStatus interrupted s;; mret HSavingDir
      else mret HDestroying
  | None => mret HDestroying
  end.

(** The handler from the await [h] to the next: the new state, and
    whether [process.exit] was reached. *)
Definition resumeHandler (h : Handler) : M (Handler * bool) :=
  match h with
  | HSavingDir =>
      w ← get;
      match currentSession w with
      | None => mret (HEnded, rejectionExits) (* the save reports the
                                                 error, the summary throws *)
      | Some s =>
          modify (writeFile (BulkMessageSession.id s) s);;
          mret (HSavingFile, false)
      end
  | HSavingFile =>
      w ← get;
      match currentSession w with
      | None => mret (HEnded, rejectionExits) (* the summary throws *)
      | Some _ => modify (setCurrent None);; mret (HDestroying, false)
      end
  | HDestroying => mret (HEnded, true)
  | HEnded => mret (HEnded, false)
  end.

(** One turn of the event loop. *)
Definition turn (t : Turn) (sys : System) : System :=
  if exited sys then sys
  else
    match t with
    | MainResumes =>
        match main sys with
        | AtMenu =>
            match entries sys with
            | [] => sys
            | entry :: later =>
                let (m, w) := choose entry (world sys) in
                mkSystem w m later (handlers sys) false
            end
        | Leaving =>
            mkSystem (world sys) Leaving (entries sys) (handlers sys) true
        | m =>
            let (m', w) := resumeMain m (world sys) in
            mkSystem w m' (entries sys) (handlers sys) false
        end
    | SignalArrives =>
        let (h, w) := handlerStart (world sys) in
        mkSystem w (main sys) (entries sys) (handlers sys ++ [h]) false
    | HandlerResumes j =>
        match handlers sys !! j with
        | None => sys
        | Some h =>
            let '((h', stop), w) := resumeHandler h (world sys) in
            mkSystem w (main sys) (entries sys)
                     (<[j := h']> (handlers sys)) stop
        end
    end.

(** The turns of a schedule, one after the other. *)
Definition runTurns (schedule : list Turn) (sys : System) : System :=
  foldl (λ sys t, turn t sys) sys schedule.

(** The program at the menu, with the entries the user will choose. *)
Definition atMenu (choices : list MenuEntry) (w : World) : System :=
  mkSystem w AtMenu choices [] false.

End Interleaving.

(** ** Deleting a session *)

(** [fs.unlink] of the file of the session; a missing file is only
    reported. *)
Definition deleteSessionFile (sessionId : string) (w : World) : World :=
  mkWorld (currentSession w) (delete sessionId (files w)) (contacts w)
          (messageTemplates w) (messaging w) (tick w) (trace w).

(** [deleteSession], given the answers of its two prompts: the id of the
    chosen session, or [None] for 'Cancel', and the confirmation. The
    test [!sessionChoice] also takes an empty id for a cancellation. *)
Definition deleteSession (sessionChoice : option string) (confirm : bool)
    : M unit :=
  w ← get;
  if (length (loadSessionResults w) =? 0)%nat then mret tt
  else
    match sessionChoice with
    | None => mret tt
    | Some sessionId =>
        if String.eqb sessionId "" then mret tt
        else if confirm then modify (deleteSessionFile sessionId)
        else mret tt
    end.

(** ** The prompts that add a contact or a template *)

(** [\s], and what [trim] removes, among the code units below 256: tab,
    line feed, vertical tab, form feed, carriage return, space and
    no-break space. *)
Definition isSpace (c : ascii) : bool :=
  let k := N_of_ascii c in
  (((9 <=? k) && (k <=? 13)) || (k =? 32) || (k =? 160))%N.

(** [s.replace(/\s/g, '')] *)
Fixpoint removeSpaces (s : string) : string :=
  match s with
  | EmptyString => EmptyString
  | String c rest =>
      if isSpace c then removeSpaces rest else String c (removeSpaces rest)
  end.

(** [s.trimStart()] and [s.trimEnd()], the two halves of [trim]. *)
Fixpoint trimStart (s : string) : string :=
  match s with
  | EmptyString => EmptyString
  | String c rest => if isSpace c then trimStart rest else s
  end.

Fixpoint trimEnd (s : string) : string :=
  match s with
  | EmptyString => EmptyString
  | String c rest =>
      match trimEnd rest with
      | EmptyString => if isSpace c then EmptyString else String c EmptyString
      | String c' rest' => String c (String c' rest')
      end
  end.

(** [s.trim()] *)
Definition trim (s : string) : string := trimEnd (trimStart s).

(** [[1-9]] *)
Definition isNonZeroDigit (c : ascii) : bool :=
  Js.isDigit c && negb (Ascii.eqb c "0").

(** [/^\+?[1-9]\d{1,14}$/.test(s)]. A leading plus sign cannot be read as
    [[1-9]], so the optional plus is taken whenever it is there. *)
Definition phoneRegex (s : string) : bool :=
  let body := match s with String "+" rest => rest | _ => s end in
  match body with
  | EmptyString => false
  | String c rest =>
      isNonZeroDigit c
      && forallb Js.isDigit (list_ascii_of_string rest)
      && (1 <=? String.length rest)%nat
      && (String.length rest <=? 14)%nat
  end.

(** The [validate] functions of the two prompts of [addContact]. *)
Definition validName (input : string) : bool :=
  (0 <? String.length (trim input))%nat.

Definition validPhone (input : string) : bool :=
  phoneRegex (removeSpaces input).

(** [addContact], given the answers the prompts accepted: the contact it
    builds, and the push on [this.contacts]. [saveContacts] then writes
    the list to a file that is not part of the world. *)
Definition newContact (name phone : string) : Contact.t :=
  Contact.mk (trim name) (removeSpaces phone).

Definition addContact (name phone : string) (w : World) : World :=
  mkWorld (currentSession w) (files w)
          (contacts w ++ [newContact name phone])
          (messageTemplates w) (messaging w) (tick w) (trace w).

(** [s.split(',')] *)
Fixpoint splitComma (s : string) : list string :=
  match s with
  | EmptyString => [EmptyString]
  | String c rest =>
      if Ascii.eqb c "," then EmptyString :: splitComma rest
      else match splitComma rest with
           | piece :: pieces => String c piece :: pieces
           | [] => [String c EmptyString]
           end
  end.

(** A string is truthy when it is not empty. *)
Definition nonEmpty (s : string) : bool := (0 <? String.length s)%nat.

(** The [filter] of the media prompt of [addMessageTemplate]. *)
Definition mediaPathsFilter (input : string) : list string :=
  if nonEmpty (trim input)
  then List.filter nonEmpty (trim <$> splitComma input)
  else [].

(** [addMessageTemplate], given the answers of the prompts: the template
    it builds, and the push on [this.messageTemplates].
    [saveMessageTemplates] then writes the list to a file that is not
    part of the world. *)
Definition newTemplate (name content mediaInput : string)
    : MessageTemplate.t :=
  let mediaPaths := mediaPathsFilter mediaInput in
  MessageTemplate.mk (trim name) (trim content)
    (if (0 <? length mediaPaths)%nat then Some mediaPaths else None).

Definition addMessageTemplate (name content mediaInput : string)
    (w : World) : World :=
  mkWorld (currentSession w) (files w) (contacts w)
          (messageTemplates w ++ [newTemplate name content mediaInput])
          (messaging w) (tick w) (trace w).

(** [template.media && template.media.length > 0] *)
Definition hasMedia (template : MessageTemplate.t) : bool :=
  match MessageTemplate.media template with
  | Some (_ :: _) => true
  | _ => false
  end.

(** ** One message to one contact *)

(** The client and the file system, as [sendSingleMessage] and
    [sendMediaMessage] use them. A send returns the message of the error
    it throws, if any. *)
Record Client : Type := mkClient {
  info : bool; (* [this.client.info] is set *)
  access : string → bool; (* [fs.access(path)] succeeds *)
  sendText : string → string → option string;
    (* [client.sendMessage(phone, content)] *)
  sendFile : string → string → string → option string
    (* [MessageMedia.fromFilePath(path)], then
       [client.sendMessage(phone, media, { caption })] *)
}.

(** The calls that reach the client. *)
Inductive ClientCall : Type :=
| TextCall (phone content : string)
| FileCall (phone path caption : string).

(** The errors [sendMediaMessage] throws. *)
Inductive SendError : Type :=
| NoMediaFiles (* 'No media files in template' *)
| MediaFileNotFound (path : string) (* `Media file not found: ${mediaPath}` *)
| ClientError (message : string).

Definition sendMediaMessage (client : Client) (phone : string)
    (template : MessageTemplate.t) : option SendError * list ClientCall :=
  match MessageTemplate.media template with
  | None | Some [] => (Some NoMediaFiles, [])
  | Some (mediaPath :: _) =>
      if access client mediaPath then
        (ClientError
           <$> sendFile client phone mediaPath
                 (MessageTemplate.content template),
         [FileCall phone mediaPath (MessageTemplate.content template)])
      else (Some (MediaFileNotFound mediaPath), [])
  end.

(** [haystack.includes(needle)] *)
Fixpoint includes (needle haystack : string) : bool :=
  Js.startsWith needle haystack
  || match haystack with
     | EmptyString => false
     | String _ rest => includes needle rest
     end.

(** The guidance [sendSingleMessage] prints under an error. *)
Inductive Guidance : Type :=
| NumberMayNotExist
| ClientNotReady
| MayBeBlocked
| RateLimitExceeded.

Definition hintFor (errorMessage : string) : option Guidance :=
  if includes "not found" errorMessage then Some NumberMayNotExist
  else if includes "not ready" errorMessage then Some ClientNotReady
  else if includes "blocked" errorMessage then Some MayBeBlocked
  else if includes "rate limit" errorMessage then Some RateLimitExceeded
  else None.

Definition notReadyMessage : string :=
  "WhatsApp client is not ready. Please wait for authentication.".

(** The answer to 'Choose message type:' with the answer to the prompt
    that follows it. *)
Inductive MessageType : Type :=
| UseTemplate (templateChoice : MessageTemplate.t)
| TypeCustomMessage (customMessage : string).

(** How [sendSingleMessage] ends. *)
Inductive SingleOutcome : Type :=
| NoContacts
| NoTemplates
| MediaMessageSent
| MessageSent
| SendReported (errorMessage : string) (hint : option Guidance)
    (* the error was caught and printed *)
| SendThrown (error : SendError).
    (* the error leaves [sendSingleMessage] *)

(** The [try] block at the end of [sendSingleMessage]. *)
Definition sendTextMessage (client : Client)
    (formattedPhone messageContent : string)
    : SingleOutcome * list ClientCall :=
  if info client then
    match sendText client formattedPhone messageContent with
    | None => (MessageSent, [TextCall formattedPhone messageContent])
    | Some errorMessage =>
        (SendReported errorMessage (hintFor errorMessage),
         [TextCall formattedPhone messageContent])
    end
  else (SendReported notReadyMessage (hintFor notReadyMessage), []).

Definition sendSingleMessage (client : Client) (contacts : list Contact.t)
    (messageTemplates : list MessageTemplate.t) (contactChoice : Contact.t)
    (messageType : MessageType) : SingleOutcome * list ClientCall :=
  if (length contacts =? 0)%nat then (NoContacts, [])
  else
    let formattedPhone := formatPhoneNumber (Contact.phone contactChoice) in
    match messageType with
    | UseTemplate templateChoice =>
        if (length messageTemplates =? 0)%nat then (NoTemplates, [])
        else if hasMedia templateChoice then
          match sendMediaMessage client formattedPhone templateChoice with
          | (None, calls) => (MediaMessageSent, calls)
          | (Some error, calls) => (SendThrown error, calls)
          end
        else
          sendTextMessage client formattedPhone
            (MessageTemplate.content templateChoice)
    | TypeCustomMessage customMessage =>
        sendTextMessage client formattedPhone customMessage
    end.

(** ** The configuration manager (config.ts) *)

(** A JSON value. An object is a finite map from its keys to their
    values; a property whose value is [undefined] is read as a property
    that is not there, which is how [JSON.stringify] and a property read
    see it. Numbers are integers, which [JSON.parse] and
    [JSON.stringify] read and write back as they are: the code below
    stores and copies numbers and never computes with them. A number
    with decimals, [-0], and a number too large for a double (1e999 is
    read as [Infinity] and written back as [null]) are outside this
    type, and so is the prototype of an object. *)
#[local] Unset Elimination Schemes.
Inductive Json : Type :=
| JNull
| JBool (b : bool)
| JNum (z : Z)
| JStr (s : string)
| JArr (items : list Json)
| JObj (fields : gmap string Json).
#[local] Set Elimination Schemes.

(** The own enumerable properties of a value: what [for (key in v)]
    visits and what the spread [{...v}] copies. *)
Definition ownProps (v : Json) : gmap string Json :=
  match v with
  | JObj fields => fields
  | JArr items => list_to_map (imap (λ i x, (pretty i, x)) items)
  | JStr s =>
      list_to_map
        (imap (λ i c, (pretty i, JStr (String c EmptyString)))
              (list_ascii_of_string s))
  | JNull | JBool _ | JNum _ => ∅
  end.

(** The keys [mergeConfigs] treats in its [switch]. *)
Definition sections : list string :=
  ["client"; "messaging"; "paths"; "autoSave"; "logging"].

(** What one turn of the loop of [mergeConfigs] assigns to [merged[key]]:
    [current] is [merged[key]] before the assignment. *)
Definition mergedValue (key : string) (current : option Json)
    (updateValue : Json) : Json :=
  match updateValue with
  | JObj fields =>
      if bool_decide (key ∈ sections)
      then JObj (fields ∪ from_option ownProps ∅ current)
      else updateValue
  | _ => updateValue
  end.

(** [merged[key] = value]. For the key ["__proto__"], when [merged] has
    no own property of that name, the assignment runs the setter that
    [Object.prototype] has for it: no own property is stored. The
    prototype that the setter installs is not represented. *)
Definition assign (key : string) (value : Json) (merged : gmap string Json)
    : gmap string Json :=
  match merged !! key with
  | None =>
      if String.eqb key "__proto__" then merged else <[key := value]> merged
  | Some _ => <[key := value]> merged
  end.

Definition mergeConfigs (defaults : gmap string Json) (updates : Json)
    : gmap string Json :=
  map_fold
    (λ key updateValue merged,
       assign key (mergedValue key (merged !! key) updateValue) merged)
    defaults (ownProps updates).

Definition obj (fields : list (string * Json)) : Json :=
  JObj (list_to_map fields).

(** [defaultConfig] *)
Definition defaultConfig : gmap string Json :=
  list_to_map
    [("client",
      obj [("headless", JBool false);
           ("puppeteerArgs",
            JArr (JStr <$> ["--no-sandbox"; "--disable-setuid-sandbox";
                            "--disable-dev-shm-usage";
                            "--disable-accelerated-2d-canvas";
                            "--no-first-run"; "--no-zygote";
                            "--disable-gpu"]));
           ("sessionTimeout", JNum 300000)]);
     ("messaging",
      obj [("defaultMinDelay", JNum 3);
           ("defaultMaxDelay", JNum 8);
           ("quickBulkMinDelay", JNum 2);
           ("quickBulkMaxDelay", JNum 6);
           ("maxRetries", JNum 3);
           ("optionalDelays",
            JArr [obj [("everyNMessages",
                        obj [("n", JNum 10); ("min", JNum 30);
                             ("max", JNum 60)])]])]);
     ("paths",
      obj [("contactsFolder", JStr "../data/contacts");
           ("templatesFolder", JStr "../data/message-templates");
           ("sessionsFolder", JStr "../data/sessions")]);
     ("autoSave",
      obj [("enabled", JBool true); ("interval", JNum 30);
           ("createBackups", JBool true)]);
     ("logging",
      obj [("level", JStr "info"); ("showProgress", JBool true);
           ("showTimestamps", JBool true)])].

Module ConfigManager.

(** [this.config] and the content of config.json: [None] when the file
    is missing or is not JSON. Writes are taken to succeed. *)
Record t : Type := mk {
  config : gmap string Json;
  configFile : option Json
}.

(** [constructor], next to the file system it finds. *)
Definition new (configFile : option Json) : t := mk defaultConfig configFile.

(** [JSON.stringify(this.config)] written, as [JSON.parse] reads it. *)
Definition saveConfig (cm : t) : t := mk (config cm) (Some (JObj (config cm))).

Definition loadConfig (cm : t) : t :=
  match configFile cm with
  | Some savedConfig =>
      mk (mergeConfigs defaultConfig savedConfig) (configFile cm)
  | None => saveConfig cm
  end.

Definition updateConfig (updates : Json) (cm : t) : t :=
  saveConfig (mk (mergeConfigs (config cm) updates) (configFile cm)).

Definition getConfig (cm : t) : gmap string Json := config cm.

Definition get (key : string) (cm : t) : option Json := config cm !! key.

Definition set (key : string) (value : Json) (cm : t) : t :=
  mk (assign key value (config cm)) (configFile cm).

End ConfigManager.

(** ** The settings menu *)

(** [{ everyNMessages: { n, min, max } }] *)
Definition ruleJson (n min max : Z) : Json :=
  obj [("everyNMessages",
        obj [("n", JNum n); ("min", JNum min); ("max", JNum max)])].

(** [updateOptionalDelays], given the answers the prompts accepted.
    [None] is the [TypeError] of the defaults of the prompts, which read
    [get('messaging').optionalDelays[0]]: it is thrown when [messaging]
    is missing or [null], and when its [optionalDelays] is. *)
Definition updateOptionalDelays (n min max : Z) (cm : ConfigManager.t)
    : option ConfigManager.t :=
  match ConfigManager.get "messaging" cm with
  | None | Some JNull => None
  | Some messaging =>
      match ownProps messaging !! "optionalDelays" with
      | None | Some JNull => None
      | Some _ =>
          if max <=? min then Some cm
          else
            Some (ConfigManager.updateConfig
                    (obj [("messaging",
                           JObj (<["optionalDelays" :=
                                     JArr [ruleJson n min max]]>
                                   (ownProps messaging)))])
                    cm)
      end
  end.

(** The object literal of [updateDelaySettings]. A field it copies from
    a [messaging] that does not have it gets the value [undefined], and
    is left out here. *)
Definition delaySettingsUpdate (defaultMinDelay defaultMaxDelay
    quickBulkMinDelay quickBulkMaxDelay : Z) (messaging : Json)
    : gmap string Json :=
  let copied (key : string) : gmap string Json :=
    match ownProps messaging !! key with
    | Some value => {[ key := value ]}
    | None => ∅
    end in
  list_to_map
    [("defaultMinDelay", JNum defaultMinDelay);
     ("defaultMaxDelay", JNum defaultMaxDelay);
     ("quickBulkMinDelay", JNum quickBulkMinDelay);
     ("quickBulkMaxDelay", JNum quickBulkMaxDelay)]
  ∪ copied "maxRetries" ∪ copied "optionalDelays".

(** [updateDelaySettings], given the answers of the prompts. [None] is
    the [TypeError] of [get('messaging').defaultMinDelay] when
    [messaging] is missing or [null]. *)
Definition updateDelaySettings (defaultMinDelay defaultMaxDelay
    quickBulkMinDelay quickBulkMaxDelay : Z) (cm : ConfigManager.t)
    : option ConfigManager.t :=
  match ConfigManager.get "messaging" cm with
  | None | Some JNull => None
  | Some messaging =>
      Some (ConfigManager.updateConfig
              (obj [("messaging",
                     JObj (delaySettingsUpdate defaultMinDelay
                             defaultMaxDelay quickBulkMinDelay
                             quickBulkMaxDelay messaging))])
              cm)
  end.

(** [resetConfiguration], given the answer to its prompt: a manager is
    constructed anew and saved. *)
Definition resetConfiguration (confirm : bool) (cm : ConfigManager.t)
    : ConfigManager.t :=
  if confirm
  then
    ConfigManager.saveConfig (ConfigManager.new (ConfigManager.configFile cm))
  else cm.

(** * Vocabulary of the statements *)

(** ** Phone numbers and the resume plan *)

(** The three branches of [formatPhoneNumber], read off the stripped
    string by pattern matching. *)
Definition normalized (digits : string) : string :=
  match digits with
  | String "0"%char rest => ("62" ++ rest ++ "@c.us")%string
  | String "6"%char (String "2"%char _) => (digits ++ "@c.us")%string
  | _ => ("62" ++ digits ++ "@c.us")%string
  end.

(** The contacts the claim calls remaining: those whose phone string is
    the phone of no result of the session, in the order of the list. *)
Definition neverAttempted (session : BulkMessageSession.t)
    (contacts : list Contact.t) : list Contact.t :=
  filter
    (λ c, Forall
            (λ r, Contact.phone (BulkMessageResult.contact r) ≠ Contact.phone c)
            (BulkMessageSession.results session))
    contacts.

(** ** Sessions and their counters *)

(** The number of results of a given status, as a JavaScript number. *)
Definition countStatus (st : ResultStatus)
    (rs : list BulkMessageResult.t) : Z :=
  Z.of_nat (length (filter (λ r, BulkMessageResult.status r = st) rs)).

(** A result whose status is one of the two [updateSessionProgress]
    writes. *)
Definition attempted (r : BulkMessageResult.t) : Prop :=
  BulkMessageResult.status r = success ∨ BulkMessageResult.status r = failed.

(** [s'] is [s] after the results [rs] were recorded: the results were
    appended, the counters moved accordingly and nothing else changed. *)
Record extends (s s' : BulkMessageSession.t)
    (rs : list BulkMessageResult.t) : Prop := mkExtends {
  ext_id : BulkMessageSession.id s' = BulkMessageSession.id s;
  ext_startTime :
    BulkMessageSession.startTime s' = BulkMessageSession.startTime s;
  ext_endTime : BulkMessageSession.endTime s' = BulkMessageSession.endTime s;
  ext_total :
    BulkMessageSession.totalContacts s' = BulkMessageSession.totalContacts s;
  ext_status : BulkMessageSession.status s' = BulkMessageSession.status s;
  ext_delaySettings :
    BulkMessageSession.delaySettings s' = BulkMessageSession.delaySettings s;
  ext_results :
    BulkMessageSession.results s' = BulkMessageSession.results s ++ rs;
  ext_attempted : Forall attempted rs;
  ext_completed :
    BulkMessageSession.completedContacts s'
    = BulkMessageSession.completedContacts s + countStatus success rs;
  ext_failed :
    BulkMessageSession.failedContacts s'
    = BulkMessageSession.failedContacts s + countStatus failed rs;
  ext_pending :
    BulkMessageSession.pendingContacts s'
    = BulkMessageSession.pendingContacts s - Z.of_nat (length rs)
}.

(** The counters of a session agree with its results. *)
Record countersConsistent (s : BulkMessageSession.t) : Prop := mkConsistent {
  cc_sum :
    BulkMessageSession.completedContacts s
    + BulkMessageSession.failedContacts s
    + BulkMessageSession.pendingContacts s
    = BulkMessageSession.totalContacts s;
  cc_completed :
    BulkMessageSession.completedContacts s
    = countStatus success (BulkMessageSession.results s);
  cc_failed :
    BulkMessageSession.failedContacts s
    = countStatus failed (BulkMessageSession.results s);
  cc_pending :
    BulkMessageSession.pendingContacts s
    = BulkMessageSession.totalContacts s
      - Z.of_nat (length (BulkMessageSession.results s))
}.

(** ** Random draws and delay rules *)

(** [Math.random()] answers in the interval [0,1). *)
Definition unitInterval (u : Q) : Prop := (0 <= u)%Q ∧ (u < 1)%Q.

(** The rule the [for ... break] loop over the rules stops at: the first
    one, in the order of the list, whose [n] divides the message number. *)
Fixpoint firstMatch (messageNumber : Z) (rules : list DelayRule.t)
    : option EveryNMessages.t :=
  match rules with
  | [] => None
  | delayRule :: rest =>
      match DelayRule.everyNMessages delayRule with
      | Some e =>
          if remIsZero messageNumber (EveryNMessages.n e) then Some e
          else firstMatch messageNumber rest
      | None => firstMatch messageNumber rest
      end
  end.

(** The delay rules of the priority example: every 5 messages 20-30 s,
    every 10 messages 30-60 s. *)
Definition every (n min max : Z) : DelayRule.t :=
  DelayRule.mk (Some (EveryNMessages.mk n min max)).

Definition priorityExample : DelaySettings.t :=
  DelaySettings.mk 3 8 [every 5 20 30; every 10 30 60].

(** ** Events of a run *)

Section Runs.

Context (env : Env).

(** The result [updateSessionProgress] builds in world [w]. *)
Definition resultOf (w : World) (c : Contact.t)
    (t : option MessageTemplate.t) (o : Outcome)
    (e m : option string) : BulkMessageResult.t :=
  BulkMessageResult.mk c t (statusOf o) (isoNow env (tick w)) e m.

(** What a world keeps through every operation of the engine. *)
Definition sameInputs (w w' : World) : Prop :=
  contacts w' = contacts w
  ∧ messageTemplates w' = messageTemplates w
  ∧ messaging w' = messaging w.

(** The sleep of the delay rules after message number [m]: none when no
    rule divides [m], one draw from the range of the first rule that
    does. *)
Inductive optionalWait (m : Z) (rules : list DelayRule.t)
    : list Event → Prop :=
| ow_none :
    firstMatch m rules = None → optionalWait m rules []
| ow_some e k :
    firstMatch m rules = Some e →
    optionalWait m rules
      [EvWait (randomBetween (random env k)
                 (EveryNMessages.min e) (EveryNMessages.max e))].

(** The events of one pass for contact [c] at position [i] of [total],
    by the way the pass ends: no template to pick, a send that throws, a
    send that succeeds for the last contact, a send that succeeds with
    more contacts to go. *)
Inductive iterationEvents (ds : DelaySettings.t) (total i : nat)
    (c : Contact.t) : Outcome → list Event → Prop :=
| ie_noTemplate :
    iterationEvents ds total i c Failed [EvRecord c Failed]
| ie_sendFailed t :
    iterationEvents ds total i c Failed
      [EvSend (formatPhoneNumber (Contact.phone c)) t; EvRecord c Failed]
| ie_last t :
    ¬ (Z.of_nat i < Z.of_nat total - 1) →
    iterationEvents ds total i c Succeeded
      [EvSend (formatPhoneNumber (Contact.phone c)) t; EvRecord c Succeeded]
| ie_more t k opt :
    Z.of_nat i < Z.of_nat total - 1 →
    optionalWait (Z.of_nat i + 1) (DelaySettings.optionalDelays ds) opt →
    iterationEvents ds total i c Succeeded
      ([EvSend (formatPhoneNumber (Contact.phone c)) t;
        EvRecord c Succeeded;
        EvWait (randomBetween (random env k) (DelaySettings.minDelay ds)
                  (DelaySettings.maxDelay ds))] ++ opt).

(** The events of the passes for the contacts [todo] from position [i]
    on, one group per contact. *)
Inductive loopEvents (ds : DelaySettings.t) (total : nat)
    : nat → list Contact.t → list Outcome → list (list Event) → Prop :=
| le_nil i : loopEvents ds total i [] [] []
| le_cons i c rest o os evs chunks :
    iterationEvents ds total i c o evs →
    loopEvents ds total (S i) rest os chunks →
    loopEvents ds total i (c :: rest) (o :: os) (evs :: chunks).

(** [w'] is [w] after the results [rs] were recorded and the events
    [evs] happened. *)
Definition stepped (w w' : World) (rs : list BulkMessageResult.t)
    (evs : list Event) : Prop :=
  trace w' = trace w ++ evs
  ∧ sameInputs w w'
  ∧ match currentSession w with
    | None => currentSession w' = None ∧ files w' = files w
    | Some s =>
        ∃ s', currentSession w' = Some s' ∧ extends s s' rs
              ∧ files w'
                = match rs with
                  | [] => files w
                  | _ :: _ => <[BulkMessageSession.id s := s']> (files w)
                  end
    end.

(** An event of the loop over [cs] is about one of [cs]. *)
Definition concerns (cs : list Contact.t) (e : Event) : Prop :=
  match e with
  | EvSend address _ =>
      ∃ c, c ∈ cs ∧ address = formatPhoneNumber (Contact.phone c)
  | EvRecord c _ => c ∈ cs
  | EvWait _ => True
  | EvStatus _ _ _ => False
  end.

(** What [sendBulkMessages] and [quickBulkSend] both do once the
    configuration is accepted. *)
Definition bulkRun (ds : DelaySettings.t) (w : World) : World :=
  exec (completeSession env completed)
    (exec (sendBulkMessagesInternal env (contacts w) ds)
       (exec (createNewSession env (Z.of_nat (length (contacts w))) ds) w)).

End Runs.

(** ** The status of a session *)






(** ** Two statements of the specification, as propositions *)

(** The claim C8 makes, on traces: in a run that is not interrupted,
    whenever the record of a contact is not the last event of the run, the
    next event is a sleep. *)
Definition delayAfterEveryContact : Prop :=
  ∀ env contacts ds w before c o after,
    isInterrupted w = false →
    trace (exec (sendBulkMessagesInternal env contacts ds) w)
    = trace w ++ before ++ EvRecord c o :: after →
    after ≠ [] →
    ∃ seconds after', after = EvWait seconds :: after'.


(** ** Addresses *)

(** Every character of [s] is a digit. *)
Definition digitsOnly (s : string) : Prop :=
  Forall (λ c, Js.isDigit c) (list_ascii_of_string s).

(** What [formatPhoneNumber] puts between 62 and the suffix. *)
Definition subscriber (digits : string) : string :=
  match digits with
  | String "0"%char rest => rest
  | String "6"%char (String "2"%char rest) => rest
  | _ => digits
  end.

(** ** Answers to the prompts *)

(** [s] holds no comma. *)
Definition noComma (s : string) : Prop :=
  Forall (λ c, c ≠ ","%char) (list_ascii_of_string s).

(** [s] is empty or holds white space only. *)
Definition blank (s : string) : Prop :=
  Forall (λ c, isSpace c) (list_ascii_of_string s).

(** The text a single send hands to the client, when it is a text. *)
Definition textOf (messageType : MessageType) : option string :=
  match messageType with
  | UseTemplate templateChoice =>
      if hasMedia templateChoice then None
      else Some (MessageTemplate.content templateChoice)
  | TypeCustomMessage customMessage => Some customMessage
  end.


(** ** The passes of the loop, in full *)

(** The sleeps after the message at position [i] of [total] was sent. *)
Inductive sleeps (env : Env) (ds : DelaySettings.t) (total i : nat)
    : list Z → Prop :=
| sl_last :
    ¬ (Z.of_nat i < Z.of_nat total - 1) → sleeps env ds total i []
| sl_base k :
    Z.of_nat i < Z.of_nat total - 1 →
    firstMatch (Z.of_nat i + 1) (DelaySettings.optionalDelays ds) = None →
    sleeps env ds total i
      [randomBetween (random env k) (DelaySettings.minDelay ds)
         (DelaySettings.maxDelay ds)]
| sl_rule k k' e :
    Z.of_nat i < Z.of_nat total - 1 →
    firstMatch (Z.of_nat i + 1) (DelaySettings.optionalDelays ds) = Some e →
    sleeps env ds total i
      [randomBetween (random env k) (DelaySettings.minDelay ds)
         (DelaySettings.maxDelay ds);
       randomBetween (random env k') (EveryNMessages.min e)
         (EveryNMessages.max e)].

(** The template the loop picks at tick [k] from the list [templates]. *)
Definition pick (env : Env) (templates : list MessageTemplate.t) (k : nat)
    : option MessageTemplate.t :=
  index templates
    (Qfloor (random env k * inject_Z (Z.of_nat (length templates)))).

(** One pass for contact [c]: the result it records and its events. *)
Inductive pass (env : Env) (templates : list MessageTemplate.t)
    (ds : DelaySettings.t) (total i : nat) (c : Contact.t)
    : BulkMessageResult.t → list Event → Prop :=
| pass_noTemplate k stamp :
    pick env templates k = None →
    pass env templates ds total i c
      (BulkMessageResult.mk c None failed stamp (Some typeErrorName) None)
      [EvRecord c Failed]
| pass_sendFailed k k' stamp t msg :
    pick env templates k = Some t →
    deliver env k' (formatPhoneNumber (Contact.phone c)) t = Some msg →
    pass env templates ds total i c
      (BulkMessageResult.mk c (Some t) failed stamp (Some msg) None)
      [EvSend (formatPhoneNumber (Contact.phone c)) t; EvRecord c Failed]
| pass_sent k k' stamp t waits :
    pick env templates k = Some t →
    deliver env k' (formatPhoneNumber (Contact.phone c)) t = None →
    sleeps env ds total i waits →
    pass env templates ds total i c
      (BulkMessageResult.mk c (Some t) success stamp None None)
      ([EvSend (formatPhoneNumber (Contact.phone c)) t; EvRecord c Succeeded]
         ++ (EvWait <$> waits)).

(** The passes for the contacts [todo] from position [i] on. *)
Inductive passes (env : Env) (templates : list MessageTemplate.t)
    (ds : DelaySettings.t) (total : nat)
    : nat → list Contact.t → list BulkMessageResult.t → list (list Event)
      → Prop :=
| passes_nil i : passes env templates ds total i [] [] []
| passes_cons i c rest r rs evs groups :
    pass env templates ds total i c r evs →
    passes env templates ds total (S i) rest rs groups →
    passes env templates ds total i (c :: rest) (r :: rs) (evs :: groups).

(** The addresses of the sends the loop started, in order. *)
Definition startedFor (evs : list Event) : list string :=
  omap (λ e, match e with EvSend address _ => Some address | _ => None end) evs.

(** The sleeps, in order. *)
Definition slept (evs : list Event) : list Z :=
  omap (λ e, match e with EvWait seconds => Some seconds | _ => None end) evs.

(** A sleep within the base range of [ds] or within the range of one of
    its rules. *)
Definition withinConfigured (ds : DelaySettings.t) (seconds : Z) : Prop :=
  DelaySettings.minDelay ds ≤ seconds ≤ DelaySettings.maxDelay ds
  ∨ ∃ e, DelayRule.mk (Some e) ∈ DelaySettings.optionalDelays ds
         ∧ EveryNMessages.min e ≤ seconds ≤ EveryNMessages.max e.

(** Every range of [ds] has its minimum at or below its maximum. *)
Definition rangesInOrder (ds : DelaySettings.t) : Prop :=
  DelaySettings.minDelay ds ≤ DelaySettings.maxDelay ds
  ∧ ∀ e, DelayRule.mk (Some e) ∈ DelaySettings.optionalDelays ds →
         EveryNMessages.min e ≤ EveryNMessages.max e.

(** [r] is the result that the pass for the contact [c] records, and
    [evs] are the events of that pass: the send that the pass started is
    for the template of the result, and the error of a failed result is
    what that send threw. *)
Definition recordedFrom (env : Env) (c : Contact.t)
    (r : BulkMessageResult.t) (evs : list Event) : Prop :=
  let address := formatPhoneNumber (Contact.phone c) in
  BulkMessageResult.contact r = c
  ∧ BulkMessageResult.messageId r = None
  ∧ match BulkMessageResult.status r with
    | success =>
        ∃ k t waits,
          BulkMessageResult.template r = Some t
          ∧ BulkMessageResult.error r = None
          ∧ deliver env k address t = None
          ∧ evs = EvSend address t :: EvRecord c Succeeded
                  :: (EvWait <$> waits)
    | failed =>
        (BulkMessageResult.template r = None
         ∧ BulkMessageResult.error r = Some typeErrorName
         ∧ evs = [EvRecord c Failed])
        ∨ ∃ k t msg,
            BulkMessageResult.template r = Some t
            ∧ BulkMessageResult.error r = Some msg
            ∧ deliver env k address t = Some msg
            ∧ evs = [EvSend address t; EvRecord c Failed]
    | pending => False
    end.


(** ** Worlds and runs *)

(** The engine with another configuration. *)
Definition setMessaging (m : Messaging.t) (w : World) : World :=
  mkWorld (currentSession w) (files w) (contacts w) (messageTemplates w) m
          (tick w) (trace w).

(** [n] turns of the main function, one after the other. *)
Definition mainTurns (n : nat) : list Turn := replicate n MainResumes.

(** The turns of a signal whose handler ends before anything else has a
    turn, when no handler ran before. *)
Definition signalTurns : list Turn :=
  [SignalArrives; HandlerResumes 0; HandlerResumes 0; HandlerResumes 0].

(** The main function is suspended at [m] between two passes of the
    loop: when it is resumed in [w], it goes on with the loop at
    position [i], over [todo]. *)
Definition beforePass (env : Env) (after : AfterLoop) (ds : DelaySettings.t)
    (total i : nat) (todo : list Contact.t) (m : Main) (w : World) : Prop :=
  m ≠ AtMenu ∧ m ≠ Leaving
  ∧ resumeMain env m w = loopTop env after ds total i todo w.

(** The entry of the menu that the engine runs in one piece as [a]. *)
Definition entryOf (a : Action) : option MenuEntry :=
  match a with
  | SendBulkMessages minDelay maxDelay => Some (BulkEntry minDelay maxDelay)
  | QuickBulkSend confirm => Some (QuickEntry confirm)
  | ResumeInterruptedSession sessionChoice => Some (ResumeEntry sessionChoice)
  | Shutdown => None
  end.

(** The program started again with the contacts [added] at the end of
    its list: the session files are kept, no session is current. *)
Definition restarted (added : list Contact.t) (w : World) : World :=
  mkWorld None (files w) (contacts w ++ added) (messageTemplates w)
          (messaging w) 0 [].

(** [w'] differs from [w] at most in the current session, the clock, the
    trace and the session file [sid]; when it differs, no session is
    current and the file [sid] exists. *)
Definition touchesOnly (sid : string) (w w' : World) : Prop :=
  sameInputs w w'
  ∧ (∀ other, other ≠ sid → files w' !! other = files w !! other)
  ∧ (w' = w ∨ (currentSession w' = None ∧ is_Some (files w' !! sid))).

(** ** The configuration as the engine reads it *)

(** The engine reads the [messaging] section through the record
    [Messaging.t]. The functions below give that record for a
    configuration whose [messaging] section has the fields and the types
    that the interface [WhatsAppConfig] declares, and [None] for any
    other. *)
Definition asNum (v : Json) : option Z :=
  match v with JNum z => Some z | _ => None end.

Definition numberAt (fields : gmap string Json) (key : string) : option Z :=
  fields !! key ≫= asNum.

(** An entry of [optionalDelays], as the loop of the rules reads it. *)
Definition ruleOf (v : Json) : option DelayRule.t :=
  match v with
  | JObj rule =>
      match rule !! "everyNMessages" with
      | None => Some (DelayRule.mk None)
      | Some (JObj e) =>
          n ← numberAt e "n";
          min ← numberAt e "min";
          max ← numberAt e "max";
          Some (DelayRule.mk (Some (EveryNMessages.mk n min max)))
      | Some _ => None
      end
  | _ => None
  end.

(** The [messaging] section of a configuration whose fields have the
    types [WhatsAppConfig] declares. *)
Definition messagingOf (config : gmap string Json) : option Messaging.t :=
  match config !! "messaging" with
  | Some (JObj fields) =>
      defaultMinDelay ← numberAt fields "defaultMinDelay";
      defaultMaxDelay ← numberAt fields "defaultMaxDelay";
      quickBulkMinDelay ← numberAt fields "quickBulkMinDelay";
      quickBulkMaxDelay ← numberAt fields "quickBulkMaxDelay";
      maxRetries ← numberAt fields "maxRetries";
      optionalDelays ←
        match fields !! "optionalDelays" with
        | Some (JArr items) => mapM ruleOf items
        | _ => None
        end;
      Some (Messaging.mk defaultMinDelay defaultMaxDelay quickBulkMinDelay
              quickBulkMaxDelay maxRetries optionalDelays)
  | _ => None
  end.

(** ** Concrete inputs *)

Definition welcome : MessageTemplate.t :=
  MessageTemplate.mk "Welcome" "Hello!" None.

Definition alice : Contact.t := Contact.mk "Alice" "081234567890".
Definition bob : Contact.t := Contact.mk "Bob" "081234567891".
(** A second entry of the list with the phone of Alice. *)
Definition aliceAgain : Contact.t := Contact.mk "Alice (work)" "081234567890".
Definition carol : Contact.t := Contact.mk "Carol" "+62 812-3456-7892".
Definition dave : Contact.t := Contact.mk "Dave" "81234567893".
Definition erin : Contact.t := Contact.mk "Erin" "6281234567894".

(** Every draw is 1/2, every message is sent. *)
Definition steady : Env :=
  mkEnv (λ _, 1 # 2) (λ _, "2025-08-13T10:05:00.000Z") (λ _, "session-2")
        (λ _ _ _, None).

(** As [steady], but the client throws 'blocked' for the number of Alice. *)
Definition aliceBlocked : Env :=
  mkEnv (λ _, 1 # 2) (λ _, "2025-08-13T10:05:00.000Z") (λ _, "session-2")
        (λ _ address _,
           if String.eqb address "6281234567890@c.us" then Some "blocked"
           else None).

Definition idle (contacts : list Contact.t) (messaging : Messaging.t)
    : World :=
  mkWorld None ∅ contacts [welcome] messaging 0 [].

(** The snapshot left by a run over two contacts that was stopped by the
    shutdown signal after the message to Alice. *)
Definition stoppedAfterAlice : BulkMessageSession.t :=
  BulkMessageSession.mk "session-1" "2025-08-13T10:00:00.000Z"
    (Some "2025-08-13T10:00:05.000Z") 2 1 0 1
    [BulkMessageResult.mk alice (Some welcome) success
       "2025-08-13T10:00:01.000Z" None None]
    interrupted
    (DelaySettings.mk 3 8 (Messaging.optionalDelays defaultMessaging)).

Definition afterRestart (contacts : list Contact.t) : World :=
  mkWorld None {[ "session-1" := stoppedAfterAlice ]} contacts [welcome]
          defaultMessaging 0 [].

(** A configuration whose quick range is upside down. *)
Definition invertedQuickRange : Messaging.t :=
  Messaging.mk 3 8 6 2 3 (Messaging.optionalDelays defaultMessaging).

(** The engine after a bulk run over [contacts] was stopped by the
    shutdown signal during the sleep that follows the first message (the
    sixth await of the run), and the program was started again: the
    session files are those the stopped run left, nothing else is
    kept. *)
Definition restartedAfterFirst (contacts : list Contact.t) : World :=
  let stopped :=
    world (runTurns steady false (mainTurns 6 ++ signalTurns)
             (atMenu [BulkEntry 3 8] (idle contacts defaultMessaging))) in
  mkWorld None (files stopped) contacts [welcome] defaultMessaging 0 [].

(** The signal arrives at the end of the sleep that follows the first
    message of a bulk run: the timer of the sleep fires before the
    handler is past its first await. *)
Definition signalAtEndOfSleep : list Turn :=
  mainTurns 6
  ++ [SignalArrives; MainResumes;
      HandlerResumes 0; HandlerResumes 0; HandlerResumes 0].

(** The session of a bulk run over two contacts, before its first
    message. *)
Definition twoRunning : BulkMessageSession.t :=
  BulkMessageSession.mk "session-2" "2025-08-13T10:05:00.000Z" None 2 0 0 2
    [] running (DelaySettings.mk 3 8 []).

(** A bulk run over Alice and Bob that has just created its session. *)
Definition runningOverTwo : World :=
  mkWorld (Some twoRunning) {[ "session-2" := twoRunning ]} [alice; bob]
          [welcome] defaultMessaging 2 [].

(** After a restart, with the template list empty. *)
Definition afterRestartWithoutTemplates : World :=
  mkWorld None {[ "session-1" := stoppedAfterAlice ]} [alice; bob] []
          defaultMessaging 0 [].


(** A client that is not authenticated yet and finds no file. *)
Definition offline : Client :=
  mkClient false (λ _, false) (λ _ _, None) (λ _ _ _, None).

(** A client that is ready and throws for every text. *)
Definition refusing : Client :=
  mkClient true (λ _, false) (λ _ _, Some "Evaluation failed: blocked")
           (λ _ _ _, None).


(** * Properties *)

(** ** Phone numbers *)

Lemma stripNonDigits_filter (s : string) :
  list_ascii_of_string (Js.stripNonDigits s)
  = filter (λ c, Js.isDigit c) (list_ascii_of_string s).
Proof.
  induction s as [|c s IH]; [done|].
  cbn [Js.stripNonDigits list_ascii_of_string].
  rewrite filter_cons. destruct (Js.isDigit c) eqn:Hc; cbn.
  - by rewrite IH.
  - exact IH.
Qed.

Lemma stripNonDigits_digits (s : string) :
  Forall (λ c, Js.isDigit c) (list_ascii_of_string (Js.stripNonDigits s)).
Proof.
  rewrite stripNonDigits_filter. apply Forall_forall.
  intros c Hc. by apply list_elem_of_filter in Hc as [? _].
Qed.

Lemma startsWith_0 (s : string) :
  Js.startsWith "0" s = true ↔ ∃ rest, s = String "0"%char rest.
Proof.
  destruct s as [|c s]; cbn [Js.startsWith].
  - split; [intros [=] | intros [? [=]]].
  - destruct (Ascii.eqb_spec "0"%char c) as [<-|Hne].
    + split; eauto.
    + split; [intros [=]|]. intros [rest ?]; simplify_eq.
Qed.

Lemma startsWith_62 (s : string) :
  Js.startsWith "62" s = true
  ↔ ∃ rest, s = String "6"%char (String "2"%char rest).
Proof.
  destruct s as [|c [|d s]]; cbn [Js.startsWith].
  - split; [intros [=] | intros [? [=]]].
  - destruct (Ascii.eqb "6"%char c); (split; [intros [=] | intros [? [=]]]).
  - destruct (Ascii.eqb_spec "6"%char c) as [<-|Hc].
    + destruct (Ascii.eqb_spec "2"%char d) as [<-|Hd].
      * split; eauto.
      * split; [intros [=]|]. intros [rest ?]; simplify_eq.
    + split; [intros [=]|]. intros [rest ?]; simplify_eq.
Qed.

Example formatPhoneNumber_spaced :
  formatPhoneNumber "+62 812-3456-7890" = "6281234567890@c.us".
Proof. reflexivity. Qed.

(** C3. For every input string, [formatPhoneNumber] keeps exactly the
    digit characters of the input, in order; when what remains starts
    with 0 the leading 0 is replaced by 62, when it starts with 62 it is
    left as it is, otherwise 62 is put in front; the suffix @c.us is
    appended in every case. "081234567890" and "81234567890" both give
    "6281234567890@c.us", and so does "6281234567890". *)
Theorem formatPhoneNumber_rule (phone : string) :
  let digits := Js.stripNonDigits phone in
  list_ascii_of_string digits
    = filter (λ c, Js.isDigit c) (list_ascii_of_string phone)
  ∧ formatPhoneNumber phone = normalized digits
  ∧ formatPhoneNumber "081234567890" = "6281234567890@c.us"
  ∧ formatPhoneNumber "81234567890" = "6281234567890@c.us"
  ∧ formatPhoneNumber "6281234567890" = "6281234567890@c.us".
Proof.
  intros digits. split; [apply stripNonDigits_filter|].
  split; [|by repeat split].
  unfold formatPhoneNumber. fold digits.
  destruct (Js.startsWith "0" digits) eqn:H0.
  - apply startsWith_0 in H0 as [rest ->]. done.
  - destruct (Js.startsWith "62" digits) eqn:H62.
    + apply startsWith_62 in H62 as [rest ->]. done.
    + destruct digits as [|c [|d rest]]; try done.
      * destruct (Ascii.eqb_spec "0"%char c) as [<-|Hc]; [done|].
        unfold normalized.
        destruct c as [[] [] [] [] [] [] [] []]; done.
      * assert (c ≠ "0"%char) as Hc.
        { intros ->. discriminate H0. }
        assert (¬ (c = "6"%char ∧ d = "2"%char)) as Hcd.
        { intros [-> ->]. discriminate H62. }
        unfold normalized.
        destruct c as [[] [] [] [] [] [] [] []]; try done;
          destruct d as [[] [] [] [] [] [] [] []]; try done;
          exfalso; by apply Hcd.
Qed.

(** ** The resume plan *)

Lemma elem_of_processedContacts (session : BulkMessageSession.t) (p : string) :
  p ∈ processedContacts session
  ↔ ∃ r, r ∈ BulkMessageSession.results session
         ∧ Contact.phone (BulkMessageResult.contact r) = p.
Proof.
  unfold processedContacts. rewrite elem_of_list_to_set, list_elem_of_fmap.
  split; intros (r & H1 & H2); exists r; eauto.
Qed.

Lemma not_elem_of_processedContacts (session : BulkMessageSession.t)
    (p : string) :
  p ∉ processedContacts session
  ↔ Forall (λ r, Contact.phone (BulkMessageResult.contact r) ≠ p)
           (BulkMessageSession.results session).
Proof.
  rewrite elem_of_processedContacts, Forall_forall. split.
  - intros Hno r Hr Hp. apply Hno. eauto.
  - intros Hall (r & Hr & Hp). by apply (Hall r).
Qed.

Lemma elem_of_remainingContacts (session : BulkMessageSession.t)
    (contacts : list Contact.t) (c : Contact.t) :
  c ∈ remainingContacts session contacts
  ↔ c ∈ contacts
    ∧ ∀ r, r ∈ BulkMessageSession.results session →
           Contact.phone (BulkMessageResult.contact r) ≠ Contact.phone c.
Proof.
  unfold remainingContacts.
  rewrite list_elem_of_filter, not_elem_of_processedContacts, Forall_forall.
  tauto.
Qed.

Lemma remainingContacts_neverAttempted (session : BulkMessageSession.t)
    (contacts : list Contact.t) :
  remainingContacts session contacts = neverAttempted session contacts.
Proof.
  unfold remainingContacts, neverAttempted.
  apply list_filter_iff. intros c. apply not_elem_of_processedContacts.
Qed.

(** ** Sessions and their counters *)

Lemma countStatus_app st rs1 rs2 :
  countStatus st (rs1 ++ rs2) = countStatus st rs1 + countStatus st rs2.
Proof. unfold countStatus. rewrite filter_app, length_app. lia. Qed.

Lemma countStatus_singleton st r :
  countStatus st [r] = if decide (BulkMessageResult.status r = st) then 1 else 0.
Proof.
  unfold countStatus. rewrite filter_cons, filter_nil.
  by destruct (decide _).
Qed.

Lemma countStatus_attempted rs :
  Forall attempted rs →
  countStatus success rs + countStatus failed rs = Z.of_nat (length rs).
Proof.
  induction 1 as [|r rs Hr _ IH]; [done|].
  change (r :: rs) with ([r] ++ rs).
  rewrite !countStatus_app, !countStatus_singleton, length_app. cbn [length].
  destruct Hr as [-> | ->]; repeat case_decide; try done; lia.
Qed.

Lemma extends_refl s : extends s s [].
Proof.
  split; try done; rewrite ?app_nil_r; try done;
    unfold countStatus; rewrite ?filter_nil; cbn; lia.
Qed.

Lemma extends_nil s s' : extends s s' [] → s' = s.
Proof.
  intros []. destruct s, s'. cbn in *.
  rewrite app_nil_r in *. unfold countStatus in *.
  rewrite filter_nil in *. cbn in *.
  f_equal; (done || lia).
Qed.

Lemma extends_trans s1 s2 s3 rs rs' :
  extends s1 s2 rs → extends s2 s3 rs' → extends s1 s3 (rs ++ rs').
Proof.
  intros [] []. split; try congruence.
  - rewrite app_assoc. congruence.
  - by apply Forall_app.
  - rewrite countStatus_app. lia.
  - rewrite countStatus_app. lia.
  - rewrite length_app. lia.
Qed.

Lemma extends_applyOutcome s r o :
  BulkMessageResult.status r = statusOf o →
  extends s (BulkMessageSession.applyOutcome r o s) [r].
Proof.
  intros Hr. destruct o; cbn in Hr; (split; cbn; try done;
    rewrite ?countStatus_singleton, ?Hr; repeat case_decide; try done;
    try lia).
  - apply Forall_singleton. by left.
  - apply Forall_singleton. by right.
Qed.

Lemma extends_consistent s s' rs :
  extends s s' rs → countersConsistent s → countersConsistent s'.
Proof.
  intros [] []. pose proof (countStatus_attempted rs ltac:(done)).
  split.
  - lia.
  - rewrite ext_results0, countStatus_app. lia.
  - rewrite ext_results0, countStatus_app. lia.
  - rewrite ext_results0, length_app. lia.
Qed.

(** ** Random draws *)

Lemma Qfloor_scale (u : Q) (k : Z) :
  unitInterval u → 0 < k → 0 ≤ Qfloor (u * inject_Z k) < k.
Proof.
  intros [Hlo Hhi] Hk.
  assert (0 < inject_Z k)%Q as HkQ.
  { change 0%Q with (inject_Z 0). rewrite <- Zlt_Qlt. lia. }
  split.
  - change 0 with (Qfloor 0). apply Qfloor_resp_le.
    apply Qmult_le_0_compat; [done|]. by apply Qlt_le_weak.
  - rewrite Zlt_Qlt. eapply Qle_lt_trans; [apply Qfloor_le|].
    eapply Qlt_le_trans; [by apply Qmult_lt_compat_r|].
    rewrite Qmult_1_l. apply Qle_refl.
Qed.

Lemma randomBetween_range (u : Q) (min max : Z) :
  unitInterval u → min ≤ max → min ≤ randomBetween u min max ≤ max.
Proof.
  intros Hu Hle. unfold randomBetween.
  pose proof (Qfloor_scale u (max - min + 1) Hu). lia.
Qed.

Lemma index_random {A} (l : list A) (u : Q) :
  unitInterval u → l ≠ [] →
  ∃ x, index l (Qfloor (u * inject_Z (Z.of_nat (length l)))) = Some x ∧ x ∈ l.
Proof.
  intros Hu Hl.
  assert (0 < Z.of_nat (length l)) as Hlen by (destruct l; [done|cbn; lia]).
  pose proof (Qfloor_scale u _ Hu Hlen) as [Hlo Hhi].
  unfold index. destruct (Z.ltb_spec (Qfloor (u * inject_Z (Z.of_nat (length l)))) 0);
    [lia|].
  destruct (lookup_lt_is_Some_2 l
              (Z.to_nat (Qfloor (u * inject_Z (Z.of_nat (length l))))))
    as [x Hx]; [lia|].
  exists x. split; [done|]. by eapply list_elem_of_lookup_2.
Qed.

(** ** Running the engine *)

Ltac engine_unfold :=
  unfold exec, mbind, M_bind, mret, M_ret, get, modify in *.

Section EngineFacts.

Context (env : Env).

Local Abbreviation resultOf := (resultOf env).
Local Abbreviation optionalWait := (optionalWait env).
Local Abbreviation iterationEvents := (iterationEvents env).
Local Abbreviation loopEvents := (loopEvents env).
Local Abbreviation bulkRun := (bulkRun env).

Lemma updateSessionProgress_Some w s c t o e m :
  currentSession w = Some s →
  exec (updateSessionProgress env c t o e m) w
  = let s' := BulkMessageSession.applyOutcome (resultOf w c t o e m) o s in
    writeFile (BulkMessageSession.id s') s'
      (setCurrent (Some s') (bump (emit (EvRecord c o) w))).
Proof.
  intros Hs. unfold updateSessionProgress, saveSessionResults, toISOString.
  engine_unfold. cbn. rewrite Hs. cbn. reflexivity.
Qed.

Lemma updateSessionProgress_None w c t o e m :
  currentSession w = None →
  exec (updateSessionProgress env c t o e m) w = emit (EvRecord c o) w.
Proof.
  intros Hs. unfold updateSessionProgress. engine_unfold. cbn.
  rewrite Hs. reflexivity.
Qed.

Lemma completeSession_Some w s st :
  currentSession w = Some s →
  exec (completeSession env st) w
  = let s' := BulkMessageSession.setEndTime (isoNow env (tick w))
                (BulkMessageSession.setStatus st s) in
    setCurrent None
      (writeFile (BulkMessageSession.id s') s'
         (bump (emit (EvStatus (BulkMessageSession.id s)
                        (BulkMessageSession.status s) st) w))).
Proof.
  intros Hs. unfold completeSession, saveSessionResults, toISOString.
  engine_unfold. cbn. rewrite Hs. cbn. reflexivity.
Qed.

Lemma createNewSession_exec w total ds :
  exec (createNewSession env total ds) w
  = let s := BulkMessageSession.mk (freshId env (tick w))
               (isoNow env (S (tick w))) None total 0 0 total [] running ds in
    writeFile (BulkMessageSession.id s) s
      (setCurrent (Some s) (bump (bump w))).
Proof. reflexivity. Qed.

Lemma exec_seq {A} (m : M A) (k : M unit) w :
  exec (m;; k) w = exec k (exec m w).
Proof. engine_unfold. by destruct (m w). Qed.

Lemma exec_ret {A} (a : A) w : exec (mret a : M A) w = w.
Proof. reflexivity. Qed.

Lemma recordOutcomes_spec (calls : list ProgressCall) w s :
  currentSession w = Some s →
  ∃ s' rs,
    currentSession (exec (recordOutcomes env calls) w) = Some s'
    ∧ extends s s' rs
    ∧ BulkMessageResult.contact <$> rs = pcContact <$> calls
    ∧ BulkMessageResult.status <$> rs = (statusOf ∘ pcStatus) <$> calls
    ∧ BulkMessageResult.error <$> rs = pcError <$> calls
    ∧ (files w !! BulkMessageSession.id s = Some s →
       files (exec (recordOutcomes env calls) w) !! BulkMessageSession.id s'
       = Some s').
Proof.
  revert w s. induction calls as [|c calls IH]; intros w s Hs.
  - exists s, []. cbn [recordOutcomes]. rewrite exec_ret.
    split_and!; try done. apply extends_refl.
  - cbn [recordOutcomes]. rewrite exec_seq.
    rewrite (updateSessionProgress_Some _ s) by done. cbn zeta.
    set (r := resultOf w _ _ _ _ _).
    set (s1 := BulkMessageSession.applyOutcome r (pcStatus c) s).
    set (w1 := writeFile _ _ _).
    destruct (IH w1 s1 eq_refl) as (s' & rs & Hc & Hext & Hcs & Hsts & Hes & Hf).
    exists s', (r :: rs). split_and!.
    + done.
    + change (r :: rs) with ([r] ++ rs).
      eapply extends_trans; [|done]. by apply extends_applyOutcome.
    + cbn. by rewrite Hcs.
    + cbn. by rewrite Hsts.
    + cbn. by rewrite Hes.
    + intros _. apply Hf. subst w1. cbn. apply lookup_insert_eq.
Qed.

(** *** Delays *)

Lemma applyOptionalDelays_exec (m : Z) (rules : list DelayRule.t) w :
  exec (applyOptionalDelays env m rules) w
  = match firstMatch m rules with
    | Some e =>
        emit (EvWait (randomBetween (random env (tick w))
                        (EveryNMessages.min e) (EveryNMessages.max e)))
             (bump w)
    | None => w
    end.
Proof.
  induction rules as [|[[e|]] rules IH]; [done| |].
  - cbn [applyOptionalDelays firstMatch DelayRule.everyNMessages].
    by destruct (remIsZero _ _).
  - exact IH.
Qed.

(** *** One pass of the loop *)

Lemma sendOne_exec ds total i c w :
  exec (sendOne env ds total i c) w
  = let w1 := bump w in
    let templates := messageTemplates w in
    let address := formatPhoneNumber (Contact.phone c) in
    match index templates
            (Qfloor (random env (tick w)
                     * inject_Z (Z.of_nat (length templates)))) with
    | None =>
        exec (updateSessionProgress env c None Failed (Some typeErrorName) None) w1
    | Some t =>
        let w2 := bump (emit (EvSend address t) w1) in
        match deliver env (tick w1) address t with
        | Some msg =>
            exec (updateSessionProgress env c (Some t) Failed (Some msg) None) w2
        | None =>
            let w3 :=
              exec (updateSessionProgress env c (Some t) Succeeded None None) w2 in
            if Z.of_nat i <? Z.of_nat total - 1 then
              exec (applyOptionalDelays env (Z.of_nat i + 1)
                      (DelaySettings.optionalDelays ds))
                   (emit (EvWait (randomBetween (random env (tick w3))
                                    (DelaySettings.minDelay ds)
                                    (DelaySettings.maxDelay ds)))
                         (bump w3))
            else w3
        end
    end.
Proof.
  unfold sendOne, send, mathRandom, sleep. engine_unfold. cbn.
  destruct (index _ _) as [t|]; [|done].
  destruct (deliver _ _ _ _) as [msg|]; [done|].
  destruct (updateSessionProgress _ _ _ _ _ _ _) as [[] w3]. cbn.
  by destruct (_ <? _).
Qed.

Lemma stepped_trans w1 w2 w3 rs rs' evs evs' :
  stepped w1 w2 rs evs → stepped w2 w3 rs' evs' →
  stepped w1 w3 (rs ++ rs') (evs ++ evs').
Proof.
  intros (Ht & (Hc & Hm & Hg) & Hs) (Ht' & (Hc' & Hm' & Hg') & Hs').
  split; [by rewrite Ht', Ht, app_assoc|].
  split; [by split_and!; congruence|].
  destruct (currentSession w1) as [s1|].
  - destruct Hs as (s2 & Hs2 & Hext & Hf). rewrite Hs2 in Hs'.
    destruct Hs' as (s3 & Hs3 & Hext' & Hf').
    exists s3. split_and!; [done|by eapply extends_trans|].
    rewrite Hf', Hf, (ext_id _ _ _ Hext).
    destruct rs as [|r rs], rs' as [|r' rs']; cbn; try done.
    + by rewrite (extends_nil _ _ Hext').
    + by rewrite insert_insert_eq.
  - destruct Hs as [Hs Hf]. rewrite Hs in Hs'. destruct Hs' as [Hs' Hf'].
    split; congruence.
Qed.

Lemma stepped_quiet w w' evs :
  trace w' = trace w ++ evs → currentSession w' = currentSession w →
  files w' = files w → sameInputs w w' → stepped w w' [] evs.
Proof.
  intros Ht Hs Hf Hi. split_and!; try done.
  destruct (currentSession w) as [s|]; [|done].
  exists s. split_and!; try done. apply extends_refl.
Qed.

Lemma updateSessionProgress_stepped w c t o e m :
  stepped w (exec (updateSessionProgress env c t o e m) w)
    [resultOf w c t o e m] [EvRecord c o].
Proof.
  destruct (currentSession w) as [s|] eqn:Hs.
  - rewrite (updateSessionProgress_Some _ s) by done. cbn zeta.
    split_and!; try done. rewrite Hs. eexists. split_and!; [done| |].
    + by apply extends_applyOutcome.
    + cbn. by destruct o.
  - rewrite updateSessionProgress_None by done.
    split_and!; try done. by rewrite Hs.
Qed.

Lemma sendOne_spec ds total i c w :
  ∃ o r evs,
    stepped w (exec (sendOne env ds total i c) w) [r] evs
    ∧ iterationEvents ds total i c o evs
    ∧ BulkMessageResult.contact r = c
    ∧ BulkMessageResult.status r = statusOf o.
Proof.
  rewrite sendOne_exec. cbn zeta.
  set (w1 := bump w).
  assert (stepped w w1 [] []) as H1.
  { apply stepped_quiet; try done. cbn. by rewrite app_nil_r. }
  destruct (index _ _) as [t|].
  2:{ exists Failed, (resultOf w1 c None Failed (Some typeErrorName) None),
        [EvRecord c Failed].
      split_and!; try done; [|constructor].
      apply (stepped_trans _ _ _ [] _ [] _ H1).
      apply updateSessionProgress_stepped. }
  set (address := formatPhoneNumber _).
  set (w2 := bump (emit _ w1)).
  assert (stepped w w2 [] [EvSend address t]) as H2.
  { by apply stepped_quiet. }
  destruct (deliver _ _ _ _) as [msg|].
  { exists Failed, (resultOf w2 c (Some t) Failed (Some msg) None),
      [EvSend address t; EvRecord c Failed].
    split_and!; try done; [|constructor].
    apply (stepped_trans _ _ _ [] _ [_] _ H2).
    apply updateSessionProgress_stepped. }
  set (r := resultOf w2 c (Some t) Succeeded None None).
  set (w3 := exec (updateSessionProgress _ _ _ _ _ _) w2).
  assert (stepped w w3 [r] [EvSend address t; EvRecord c Succeeded]) as H3.
  { apply (stepped_trans _ _ _ [] _ [_] _ H2).
    apply updateSessionProgress_stepped. }
  exists Succeeded, r.
  destruct (Z.ltb_spec (Z.of_nat i) (Z.of_nat total - 1)) as [Hlt|Hge].
  2:{ eexists. split_and!; try done. constructor. lia. }
  rewrite applyOptionalDelays_exec.
  set (b := randomBetween _ _ _).
  destruct (firstMatch _ _) as [e|] eqn:Hfm.
  - eexists. split_and!; try done.
    2:{ eapply (ie_more env _ _ _ _ t (tick w3)); [done|].
        by apply (ow_some env _ _ e (S (tick w3))). }
    change [r] with ([r] ++ []).
    change ([_; _; _] ++ [_]) with ([EvSend address t; EvRecord c Succeeded]
       ++ [EvWait b; EvWait (randomBetween (random env (S (tick w3)))
              (EveryNMessages.min e) (EveryNMessages.max e))]).
    apply (stepped_trans _ _ _ _ _ _ _ H3).
    apply stepped_quiet; try done. cbn. by rewrite <- app_assoc.
  - eexists. split_and!; try done.
    2:{ eapply (ie_more env _ _ _ _ t (tick w3)); [done|]. by constructor. }
    change [r] with ([r] ++ []).
    change ([_; _; _] ++ []) with ([EvSend address t; EvRecord c Succeeded]
       ++ [EvWait b]).
    apply (stepped_trans _ _ _ _ _ _ _ H3).
    by apply stepped_quiet.
Qed.

(** *** The loop *)

Lemma sendLoop_cons ds total i c rest w :
  exec (sendLoop env ds total i (c :: rest)) w
  = if isInterrupted w then w
    else exec (sendLoop env ds total (S i) rest)
              (exec (sendOne env ds total i c) w).
Proof.
  cbn [sendLoop]. engine_unfold. cbn.
  destruct (isInterrupted w); [done|].
  by destruct (sendOne _ _ _ _ _ _).
Qed.

Lemma sendLoop_interrupted ds total i todo w :
  isInterrupted w = true → exec (sendLoop env ds total i todo) w = w.
Proof.
  intros Hw. destruct todo; [done|]. by rewrite sendLoop_cons, Hw.
Qed.

Lemma stepped_isInterrupted w w' rs evs :
  stepped w w' rs evs → isInterrupted w' = isInterrupted w.
Proof.
  intros (_ & _ & Hs). unfold isInterrupted.
  destruct (currentSession w) as [s|].
  - destruct Hs as (s' & -> & Hext & _). by rewrite (ext_status _ _ _ Hext).
  - by destruct Hs as [-> _].
Qed.

Lemma sendLoop_spec ds total todo :
  ∀ i w, isInterrupted w = false →
  ∃ os rs chunks,
    stepped w (exec (sendLoop env ds total i todo) w) rs (concat chunks)
    ∧ loopEvents ds total i todo os chunks
    ∧ BulkMessageResult.contact <$> rs = todo
    ∧ BulkMessageResult.status <$> rs = statusOf <$> os.
Proof.
  induction todo as [|c rest IH]; intros i w Hw.
  - exists [], [], []. split_and!; try done; [|constructor].
    apply stepped_quiet; try done. cbn. by rewrite app_nil_r.
  - rewrite sendLoop_cons, Hw.
    destruct (sendOne_spec ds total i c w) as (o & r & evs & H1 & Hev & Hc & Hst).
    destruct (IH (S i) (exec (sendOne env ds total i c) w))
      as (os & rs & chunks & H2 & Hevs & Hcs & Hsts).
    { by rewrite (stepped_isInterrupted _ _ _ _ H1). }
    exists (o :: os), (r :: rs), (evs :: chunks). split_and!.
    + apply (stepped_trans _ _ _ [r] rs _ _ H1 H2).
    + by constructor.
    + cbn. by rewrite Hc, Hcs.
    + cbn. by rewrite Hst, Hsts.
Qed.

Lemma concerns_mono cs cs' e :
  (∀ c, c ∈ cs → c ∈ cs') → concerns cs e → concerns cs' e.
Proof.
  intros Hsub. destruct e; cbn; try done.
  - intros (c & Hc & ->). eauto.
  - apply Hsub.
Qed.

Lemma iterationEvents_concerns ds total i c o evs :
  iterationEvents ds total i c o evs → Forall (concerns [c]) evs.
Proof.
  assert (c ∈ [c]) as Hc by apply list_elem_of_here.
  destruct 1 as [|t|t ?|t k opt ? Hopt]; repeat constructor; cbn; eauto.
  destruct Hopt; repeat constructor.
Qed.

Lemma loopEvents_concerns ds total i todo os chunks :
  loopEvents ds total i todo os chunks → Forall (concerns todo) (concat chunks).
Proof.
  induction 1 as [|i c rest o os evs chunks Hev _ IH]; [constructor|].
  cbn [concat]. apply Forall_app. split.
  - eapply Forall_impl; [by eapply iterationEvents_concerns|].
    intros e. apply concerns_mono. intros c' ->%list_elem_of_singleton.
    apply list_elem_of_here.
  - eapply Forall_impl; [done|]. intros e. apply concerns_mono.
    intros c' ?. by apply list_elem_of_further.
Qed.

Lemma loopEvents_length ds total i todo os chunks :
  loopEvents ds total i todo os chunks →
  length os = length todo ∧ length chunks = length todo.
Proof. induction 1; cbn; [done|]. lia. Qed.

(** *** Resume *)

Lemma resumeSession_exec session w :
  exec (resumeSession env session) w
  = let resumed := BulkMessageSession.setStatus running session in
    let w1 :=
      setCurrent (Some resumed)
        (emit (EvStatus (BulkMessageSession.id session)
                 (BulkMessageSession.status session) running) w) in
    match remainingContacts session (contacts w) with
    | [] => exec (completeSession env completed) w1
    | _ :: _ =>
        exec (sendBulkMessagesInternal env
                (remainingContacts session (contacts w))
                (BulkMessageSession.delaySettings session)) w1
    end.
Proof.
  unfold resumeSession. engine_unfold.
  cbn -[remainingContacts sendBulkMessagesInternal completeSession].
  change (remainingContacts (BulkMessageSession.setStatus running session))
    with (remainingContacts session).
  by destruct (remainingContacts session (contacts w)).
Qed.

Lemma resumeSession_empty session w :
  remainingContacts session (contacts w) = [] →
  exec (resumeSession env session) w
  = let sid := BulkMessageSession.id session in
    let s' := BulkMessageSession.setEndTime (isoNow env (tick w))
                (BulkMessageSession.setStatus completed session) in
    setCurrent None
      (writeFile sid s'
         (bump (emit (EvStatus sid running completed)
                  (emit (EvStatus sid (BulkMessageSession.status session)
                           running) w)))).
Proof.
  intros Hrem. rewrite resumeSession_exec, Hrem. cbn zeta.
  by rewrite (completeSession_Some _
                (BulkMessageSession.setStatus running session)).
Qed.

Lemma resumeSession_nonempty session w :
  remainingContacts session (contacts w) ≠ [] →
  ∃ s' rs os chunks,
    let w' := exec (resumeSession env session) w in
    let remaining := remainingContacts session (contacts w) in
    currentSession w' = Some s'
    ∧ extends (BulkMessageSession.setStatus running session) s' rs
    ∧ BulkMessageResult.contact <$> rs = remaining
    ∧ BulkMessageResult.status <$> rs = statusOf <$> os
    ∧ files w' = <[BulkMessageSession.id session := s']> (files w)
    ∧ trace w'
      = trace w
        ++ EvStatus (BulkMessageSession.id session)
             (BulkMessageSession.status session) running
        :: concat chunks
    ∧ loopEvents (BulkMessageSession.delaySettings session)
        (length remaining) 0 remaining os chunks.
Proof.
  intros Hrem. rewrite resumeSession_exec. cbn zeta.
  destruct (remainingContacts session (contacts w)) as [|c rest] eqn:Heq;
    [done|].
  set (w1 := setCurrent _ _).
  destruct (sendLoop_spec (BulkMessageSession.delaySettings session)
              (length (c :: rest)) (c :: rest) 0%nat w1 eq_refl)
    as (os & rs & chunks & (Ht & _ & Hs) & Hev & Hcs & Hsts).
  cbn [currentSession w1 setCurrent] in Hs.
  destruct Hs as (s' & Hs' & Hext & Hf).
  exists s', rs, os, chunks. unfold sendBulkMessagesInternal.
  split_and!; try done.
  - rewrite Hf. destruct rs; [done|]. done.
  - rewrite Ht. cbn. by rewrite <- app_assoc.
Qed.

(** *** A bulk run *)

Lemma sendBulkMessages_exec minDelay maxDelay w :
  exec (sendBulkMessages env minDelay maxDelay) w
  = if (length (contacts w) =? 0)%nat then w
    else if (length (messageTemplates w) =? 0)%nat then w
    else if maxDelay <=? minDelay then w
    else bulkRun (DelaySettings.mk minDelay maxDelay
                    (Messaging.optionalDelays (messaging w))) w.
Proof.
  unfold sendBulkMessages, bulkRun. engine_unfold.
  cbn -[createNewSession sendBulkMessagesInternal completeSession].
  destruct (_ =? _)%nat; [done|]. destruct (_ =? _)%nat; [done|].
  destruct (_ <=? _); [done|].
  destruct (createNewSession _ _ _ _) as [s1 w1].
  cbn -[sendBulkMessagesInternal completeSession].
  by destruct (sendBulkMessagesInternal _ _ _ _).
Qed.

Lemma quickBulkSend_exec confirm w :
  exec (quickBulkSend env confirm) w
  = if (length (contacts w) =? 0)%nat then w
    else if (length (messageTemplates w) =? 0)%nat then w
    else if negb confirm then w
    else bulkRun (DelaySettings.mk
                    (Messaging.quickBulkMinDelay (messaging w))
                    (Messaging.quickBulkMaxDelay (messaging w))
                    (Messaging.optionalDelays (messaging w))) w.
Proof.
  unfold quickBulkSend, bulkRun. engine_unfold.
  cbn -[createNewSession sendBulkMessagesInternal completeSession].
  destruct (_ =? _)%nat; [done|]. destruct (_ =? _)%nat; [done|].
  destruct confirm; [|done].
  cbn -[createNewSession sendBulkMessagesInternal completeSession].
  destruct (createNewSession _ _ _ _) as [s1 w1].
  cbn -[sendBulkMessagesInternal completeSession].
  by destruct (sendBulkMessagesInternal _ _ _ _).
Qed.

Lemma bulkRun_spec ds w :
  ∃ s' os chunks,
    let w' := bulkRun ds w in
    let sid := freshId env (tick w) in
    currentSession w' = None
    ∧ files w' = <[sid := s']> (files w)
    ∧ BulkMessageSession.id s' = sid
    ∧ BulkMessageSession.status s' = completed
    ∧ is_Some (BulkMessageSession.endTime s')
    ∧ BulkMessageSession.delaySettings s' = ds
    ∧ BulkMessageSession.totalContacts s' = Z.of_nat (length (contacts w))
    ∧ countersConsistent s'
    ∧ BulkMessageSession.pendingContacts s' = 0
    ∧ BulkMessageResult.contact <$> BulkMessageSession.results s' = contacts w
    ∧ BulkMessageResult.status <$> BulkMessageSession.results s'
      = statusOf <$> os
    ∧ trace w' = trace w ++ concat chunks ++ [EvStatus sid running completed]
    ∧ loopEvents ds (length (contacts w)) 0 (contacts w) os chunks.
Proof.
  unfold bulkRun. rewrite createNewSession_exec. cbn zeta.
  set (s0 := BulkMessageSession.mk _ _ _ _ _ _ _ _ _ _).
  set (w1 := writeFile _ _ _).
  assert (countersConsistent s0) as Hc0.
  { split; cbn; unfold countStatus; rewrite ?filter_nil; cbn; lia. }
  destruct (sendLoop_spec ds (length (contacts w)) (contacts w) 0%nat w1 eq_refl)
    as (os & rs & chunks & (Ht & _ & Hs) & Hev & Hcs & Hsts).
  cbn [currentSession w1 writeFile setCurrent] in Hs.
  destruct Hs as (s1 & Hs1 & Hext & Hf).
  unfold sendBulkMessagesInternal.
  set (w2 := exec (sendLoop _ _ _ _ _) w1) in *.
  rewrite (completeSession_Some _ s1) by done. cbn zeta.
  exists (BulkMessageSession.setEndTime (isoNow env (tick w2))
            (BulkMessageSession.setStatus completed s1)), os, chunks.
  cbn.
  pose proof (extends_consistent _ _ _ Hext Hc0) as [Hsum Hcomp Hfail Hpend].
  pose proof Hext as [Hid _ _ Htot Hst Hds Hres _ _ _ Hp].
  assert (length rs = length (contacts w)) as Hlen.
  { by rewrite <- Hcs, length_fmap. }
  split_and!; try done.
  - rewrite Hf, Hid.
    assert (files w1 = <[BulkMessageSession.id s0 := s0]> (files w)) as ->
      by done.
    destruct rs; by rewrite !insert_insert_eq.
  - cbn in Hp. lia.
  - by rewrite Hres.
  - by rewrite Hres.
  - rewrite Ht, Hid, Hst. cbn. by rewrite <- app_assoc.
Qed.

End EngineFacts.

(** C4. The contacts a resume works on are exactly the contacts of the
    current list whose phone string is the phone of no result of the
    persisted session, kept in the order of the list. When there is none,
    the session is finalized as completed at once: its snapshot on disk
    has status completed and the results it had, no session is current
    any more, and nothing is sent (the trace grows by the two status
    assignments only). Otherwise the run records one result for each
    remaining contact, in order, after the results already present, and
    every message it sends and every result it records is for a remaining
    contact. *)
Theorem resume_plan (env : Env) (session : BulkMessageSession.t) (w : World) :
  let remaining := remainingContacts session (contacts w) in
  let w' := exec (resumeSession env session) w in
  let sid := BulkMessageSession.id session in
  remaining = neverAttempted session (contacts w)
  ∧ match remaining with
    | [] =>
        currentSession w' = None
        ∧ (∃ s', files w' !! sid = Some s'
                 ∧ BulkMessageSession.status s' = completed
                 ∧ BulkMessageSession.results s'
                   = BulkMessageSession.results session)
        ∧ trace w'
          = trace w ++ [EvStatus sid (BulkMessageSession.status session) running;
                        EvStatus sid running completed]
    | _ :: _ =>
        ∃ s' evs,
          currentSession w' = Some s'
          ∧ BulkMessageResult.contact <$> BulkMessageSession.results s'
            = (BulkMessageResult.contact <$> BulkMessageSession.results session)
              ++ remaining
          ∧ trace w'
            = trace w
              ++ EvStatus sid (BulkMessageSession.status session) running :: evs
          ∧ Forall (concerns remaining) evs
    end.
Proof.
  intros remaining w' sid.
  split; [apply remainingContacts_neverAttempted|].
  destruct remaining as [|c rest] eqn:Hrem.
  - subst w'. rewrite resumeSession_empty by done. cbn.
    split_and!; [done| |by rewrite <- app_assoc].
    eexists. split; [apply lookup_insert_eq|done].
  - destruct (resumeSession_nonempty env session w)
      as (s' & rs & os & chunks & Hs' & Hext & Hcs & _ & _ & Ht & Hev).
    { fold remaining. by rewrite Hrem. }
    exists s', (concat chunks). fold remaining in Hcs, Hev.
    rewrite Hrem in Hcs, Hev. split_and!; try done.
    + rewrite (ext_results _ _ _ Hext), fmap_app, Hcs. done.
    + by eapply loopEvents_concerns.
Qed.

(** C10. When two distinct contacts of the list carry the same phone
    string and some result of the session records that phone, neither of
    them is in the set a resume works on, whether or not the second one
    was ever attempted itself. *)
Theorem resume_drops_contacts_sharing_a_phone
    (session : BulkMessageSession.t) (contacts : list Contact.t)
    (c1 c2 : Contact.t) (r : BulkMessageResult.t) :
  c1 ∈ contacts → c2 ∈ contacts → c1 ≠ c2 →
  Contact.phone c1 = Contact.phone c2 →
  r ∈ BulkMessageSession.results session →
  Contact.phone (BulkMessageResult.contact r) = Contact.phone c1 →
  (c1 ∉ remainingContacts session contacts)
  ∧ (c2 ∉ remainingContacts session contacts).
Proof.
  intros _ _ _ Hp Hr Hrp.
  split; intros [_ Hno]%elem_of_remainingContacts;
    apply (Hno r Hr); congruence.
Qed.

(** C2. A session is created for N contacts and [updateSessionProgress]
    is called any number of times. After the calls made so far, and again
    after any further calls: completed + failed + pending = N, completed
    is the number of results of status success, failed the number of
    results of status failed, pending is N minus the number of results;
    there is one result per call, in the order of the calls and with the
    status of the call; the results present before the further calls are
    still there, unchanged, at the front of the list; and the snapshot on
    disk is the session in memory. *)
Theorem recordOutcome_counters (env : Env) (N : Z) (ds : DelaySettings.t)
    (calls more : list ProgressCall) (w0 : World) :
  let w := exec (createNewSession env N ds;; recordOutcomes env calls) w0 in
  let w' := exec (recordOutcomes env more) w in
  ∃ s s',
    currentSession w = Some s ∧ currentSession w' = Some s'
    ∧ BulkMessageSession.totalContacts s = N
    ∧ BulkMessageSession.totalContacts s' = N
    ∧ countersConsistent s ∧ countersConsistent s'
    ∧ BulkMessageResult.status <$> BulkMessageSession.results s
      = (statusOf ∘ pcStatus) <$> calls
    ∧ BulkMessageResult.contact <$> BulkMessageSession.results s
      = pcContact <$> calls
    ∧ BulkMessageSession.results s `prefix_of` BulkMessageSession.results s'
    ∧ BulkMessageSession.status s' = running
    ∧ files w !! BulkMessageSession.id s = Some s
    ∧ files w' !! BulkMessageSession.id s' = Some s'.
Proof.
  intros w w'. subst w'. subst w. rewrite exec_seq, createNewSession_exec.
  cbn zeta.
  set (s0 := BulkMessageSession.mk _ _ _ _ _ _ _ _ _ _).
  set (w1 := writeFile _ _ _).
  assert (countersConsistent s0) as Hc0.
  { split; cbn; unfold countStatus; rewrite ?filter_nil; cbn; lia. }
  assert (files w1 !! BulkMessageSession.id s0 = Some s0) as Hf0.
  { subst w1. cbn. apply lookup_insert_eq. }
  destruct (recordOutcomes_spec env calls w1 s0 eq_refl)
    as (s & rs & Hs & Hext & Hcs & Hsts & _ & Hf).
  destruct (recordOutcomes_spec env more _ s Hs)
    as (s' & rs' & Hs' & Hext' & _ & _ & _ & Hf').
  exists s, s'. split_and!; try done.
  - by rewrite (ext_total _ _ _ Hext).
  - by rewrite (ext_total _ _ _ Hext'), (ext_total _ _ _ Hext).
  - by eapply extends_consistent.
  - eapply extends_consistent; [done|]. by eapply extends_consistent.
  - by rewrite (ext_results _ _ _ Hext).
  - by rewrite (ext_results _ _ _ Hext).
  - rewrite (ext_results _ _ _ Hext'). by exists rs'.
  - by rewrite (ext_status _ _ _ Hext'), (ext_status _ _ _ Hext).
  - by apply Hf.
  - apply Hf'. by apply Hf.
Qed.

(** ** Delays in the loop *)

(** C1, on the code. With the rules every 5 -> 20-30 s and every 10 ->
    30-60 s and the base range 3-8 s, after the tenth message of a longer
    list is sent the loop sleeps twice: first a draw from the base range
    [3,8], then a draw from [20,30], the range of the rule every 5, which
    is the first rule of the list that divides 10. The rule every 10 is
    not consulted and the base delay is not replaced. *)
Theorem tenth_message_waits_twice (env : Env) (total : nat) (c : Contact.t)
    (w : World) :
  (∀ k, unitInterval (random env k)) →
  (∀ k address t, deliver env k address t = None) →
  messageTemplates w ≠ [] →
  (10 < total)%nat →
  ∃ t b r,
    trace (exec (sendOne env priorityExample total 9 c) w)
    = trace w ++ [EvSend (formatPhoneNumber (Contact.phone c)) t;
                  EvRecord c Succeeded; EvWait b; EvWait r]
    ∧ 3 ≤ b ≤ 8 ∧ 20 ≤ r ≤ 30.
Proof.
  intros Hrandom Hsent Htemplates Htotal.
  rewrite sendOne_exec. cbn zeta.
  destruct (index_random (messageTemplates w) (random env (tick w)))
    as (t & -> & _); [done..|].
  rewrite Hsent.
  set (w2 := bump (emit _ _)).
  pose proof (updateSessionProgress_stepped env w2 c (Some t) Succeeded None None)
    as (Ht & _).
  set (w3 := exec (updateSessionProgress _ _ _ _ _ _) w2) in *.
  destruct (Z.ltb_spec (Z.of_nat 9) (Z.of_nat total - 1)); [|lia].
  rewrite applyOptionalDelays_exec.
  change (firstMatch (Z.of_nat 9 + 1) (DelaySettings.optionalDelays priorityExample))
    with (Some (EveryNMessages.mk 5 20 30)).
  eexists t, _, _. split_and!.
  - cbn. rewrite Ht. cbn. rewrite <- !app_assoc. reflexivity.
  - by apply randomBetween_range.
  - by apply randomBetween_range.
  - by apply randomBetween_range.
  - by apply randomBetween_range.
Qed.

(** ** Finalization *)

(** C5, on the code. A resumed run whose remaining set is not empty
    sends to every remaining contact and records a result for each, and
    then stops: no status is assigned after the one that set the session
    running, the session stays current with status running, its end time
    is the one it was loaded with, and that is the snapshot on disk.
    [sendBulkMessages] and [quickBulkSend] call
    [completeSession('completed')] after the same loop;
    [resumeSession] does not. *)
Theorem resumed_run_stays_running (env : Env)
    (session : BulkMessageSession.t) (w : World) :
  remainingContacts session (contacts w) ≠ [] →
  let w' := exec (resumeSession env session) w in
  ∃ s' evs,
    currentSession w' = Some s'
    ∧ files w' !! BulkMessageSession.id session = Some s'
    ∧ BulkMessageSession.status s' = running
    ∧ BulkMessageSession.endTime s' = BulkMessageSession.endTime session
    ∧ BulkMessageResult.contact <$> BulkMessageSession.results s'
      = (BulkMessageResult.contact <$> BulkMessageSession.results session)
        ++ remainingContacts session (contacts w)
    ∧ trace w'
      = trace w
        ++ EvStatus (BulkMessageSession.id session)
             (BulkMessageSession.status session) running :: evs
    ∧ Forall (concerns (remainingContacts session (contacts w))) evs.
Proof.
  intros Hrem w'.
  destruct (resumeSession_nonempty env session w Hrem)
    as (s' & rs & os & chunks & Hs' & Hext & Hcs & _ & Hf & Ht & Hev).
  exists s', (concat chunks). split_and!; try done.
  - subst w'. rewrite Hf. apply lookup_insert_eq.
  - by rewrite (ext_status _ _ _ Hext).
  - by rewrite (ext_endTime _ _ _ Hext).
  - by rewrite (ext_results _ _ _ Hext), fmap_app, Hcs.
  - by eapply loopEvents_concerns.
Qed.

(** The two entry points that start a run finalize it as completed, with
    an end time and nothing pending. *)
Lemma bulkRun_completed (env : Env) (ds : DelaySettings.t) (w : World) :
  ∃ s',
    files (bulkRun env ds w) !! freshId env (tick w) = Some s'
    ∧ currentSession (bulkRun env ds w) = None
    ∧ BulkMessageSession.status s' = completed
    ∧ is_Some (BulkMessageSession.endTime s')
    ∧ BulkMessageSession.pendingContacts s' = 0.
Proof.
  destruct (bulkRun_spec env ds w)
    as (s' & os & chunks & Hc & Hf & _ & Hst & He & _ & _ & _ & Hp & _).
  exists s'. split_and!; try done. rewrite Hf. apply lookup_insert_eq.
Qed.

(** The loop returns as soon as it finds the current session interrupted,
    and the code after the loop in [sendBulkMessages] and [quickBulkSend]
    calls [completeSession('completed')] all the same: a session found
    interrupted by the loop ends completed. *)
Lemma detected_interruption_ends_completed (env : Env)
    (cs : list Contact.t) (ds : DelaySettings.t)
    (s : BulkMessageSession.t) (w : World) :
  currentSession w = Some s →
  BulkMessageSession.status s = interrupted →
  exec (sendBulkMessagesInternal env cs ds;; completeSession env completed) w
  = let s' := BulkMessageSession.setEndTime (isoNow env (tick w))
                (BulkMessageSession.setStatus completed s) in
    setCurrent None
      (writeFile (BulkMessageSession.id s) s'
         (bump (emit (EvStatus (BulkMessageSession.id s) interrupted completed)
                  w))).
Proof.
  intros Hs Hst. rewrite exec_seq. unfold sendBulkMessagesInternal.
  rewrite sendLoop_interrupted.
  - rewrite (completeSession_Some _ _ s) by done. cbn zeta. by rewrite Hst.
  - unfold isInterrupted. rewrite Hs. by apply bool_decide_eq_true.
Qed.

(** C6, on the code. When a resume finds no remaining contact it
    finalizes the session as completed with the pending counter the
    session was loaded with, whatever that counter is. *)
Theorem resume_completes_with_stale_pending (env : Env)
    (session : BulkMessageSession.t) (w : World) :
  remainingContacts session (contacts w) = [] →
  let w' := exec (resumeSession env session) w in
  ∃ s',
    files w' !! BulkMessageSession.id session = Some s'
    ∧ currentSession w' = None
    ∧ BulkMessageSession.status s' = completed
    ∧ BulkMessageSession.pendingContacts s'
      = BulkMessageSession.pendingContacts session.
Proof.
  intros Hrem w'. subst w'. rewrite resumeSession_empty by done. cbn.
  eexists. split; [apply lookup_insert_eq|done].
Qed.

(** A session finalized as interrupted keeps the pending counter it had. *)
Lemma shutdown_keeps_pending (env : Env) (s : BulkMessageSession.t)
    (w : World) :
  currentSession w = Some s → BulkMessageSession.status s = running →
  ∃ s',
    files (exec (gracefulShutdown env) w) !! BulkMessageSession.id s = Some s'
    ∧ BulkMessageSession.status s' = interrupted
    ∧ BulkMessageSession.pendingContacts s'
      = BulkMessageSession.pendingContacts s.
Proof.
  intros Hs Hst. unfold gracefulShutdown.
  assert (hasCurrentSession w = true) as Hh.
  { unfold hasCurrentSession. rewrite Hs. by apply bool_decide_eq_true. }
  engine_unfold. cbn -[completeSession]. rewrite Hh.
  change (snd (completeSession env interrupted w))
    with (exec (completeSession env interrupted) w).
  rewrite (completeSession_Some _ _ s) by done. cbn.
  eexists. split; [apply lookup_insert_eq|done].
Qed.

(** ** Rejected configurations *)

(** C9, on the code. [quickBulkSend] checks the two lists and the
    confirmation, and not the delay range: with contacts and templates
    loaded and a configured quick range whose maximum is not above its
    minimum, a confirmed quick send creates a session with that range,
    runs the loop over every contact and leaves the session on disk.
    [sendBulkMessages] rejects the same range and leaves the world as it
    was. *)
Theorem quickBulkSend_accepts_inverted_range (env : Env) (w : World) :
  contacts w ≠ [] → messageTemplates w ≠ [] →
  Messaging.quickBulkMaxDelay (messaging w)
  ≤ Messaging.quickBulkMinDelay (messaging w) →
  (∃ s,
     files (exec (quickBulkSend env true) w) !! freshId env (tick w) = Some s
     ∧ DelaySettings.minDelay (BulkMessageSession.delaySettings s)
       = Messaging.quickBulkMinDelay (messaging w)
     ∧ DelaySettings.maxDelay (BulkMessageSession.delaySettings s)
       = Messaging.quickBulkMaxDelay (messaging w)
     ∧ BulkMessageResult.contact <$> BulkMessageSession.results s
       = contacts w)
  ∧ exec (sendBulkMessages env
            (Messaging.quickBulkMinDelay (messaging w))
            (Messaging.quickBulkMaxDelay (messaging w))) w
    = w.
Proof.
  intros Hc Ht Hrange. split.
  - rewrite quickBulkSend_exec.
    destruct (contacts w) eqn:Hcs; [done|].
    destruct (messageTemplates w) eqn:Hts; [done|]. cbn [length Nat.eqb negb].
    destruct (bulkRun_spec env
                (DelaySettings.mk (Messaging.quickBulkMinDelay (messaging w))
                   (Messaging.quickBulkMaxDelay (messaging w))
                   (Messaging.optionalDelays (messaging w))) w)
      as (s' & os & chunks & _ & Hf & _ & _ & _ & Hds & _ & _ & _ & Hres & _).
    exists s'. rewrite Hf, Hds, Hres, Hcs.
    split; [apply lookup_insert_eq|done].
  - rewrite sendBulkMessages_exec.
    destruct (_ =? _)%nat; [done|]. destruct (_ =? _)%nat; [done|].
    destruct (Z.leb_spec (Messaging.quickBulkMaxDelay (messaging w))
                (Messaging.quickBulkMinDelay (messaging w))); [done|lia].
Qed.

(** The checks the two entry points do make: an empty contact list or an
    empty template list leaves the world as it was, and so does, for
    [sendBulkMessages], a range whose maximum is not above its minimum. *)
Lemma entry_points_reject (env : Env) (w : World) (minDelay maxDelay : Z)
    (confirm : bool) :
  contacts w = [] ∨ messageTemplates w = [] ∨ maxDelay ≤ minDelay →
  exec (sendBulkMessages env minDelay maxDelay) w = w
  ∧ (contacts w = [] ∨ messageTemplates w = [] →
     exec (quickBulkSend env confirm) w = w).
Proof.
  intros Hbad. split.
  - rewrite sendBulkMessages_exec.
    destruct (contacts w); [done|]. destruct (messageTemplates w); [done|].
    cbn [length Nat.eqb].
    destruct (Z.leb_spec maxDelay minDelay); [done|].
    destruct Hbad as [?|[?|?]]; try done. lia.
  - intros Hbad'. rewrite quickBulkSend_exec.
    destruct (contacts w); [done|]. destruct (messageTemplates w); [done|].
    by destruct Hbad'.
Qed.

(** ** Pacing *)

Lemma loopEvents_lookup env ds total i todo os chunks (j : nat) c :
  loopEvents env ds total i todo os chunks → todo !! j = Some c →
  ∃ o evs, os !! j = Some o ∧ chunks !! j = Some evs
           ∧ iterationEvents env ds total (i + j) c o evs.
Proof.
  intros Hloop. revert j.
  induction Hloop as [|i c0 rest o os evs chunks Hev _ IH]; intros j Hj;
    [done|].
  destruct j as [|j]; cbn in Hj.
  - injection Hj as ->. exists o, evs. by rewrite Nat.add_0_r.
  - destruct (IH j Hj) as (o' & evs' & ? & ? & Hit).
    exists o', evs'. split_and!; try done.
    by replace (i + S j)%nat with (S i + j)%nat by lia.
Qed.

(** C8, as amended. In a run that is not interrupted the trace is made of
    one group of events per contact, in the order of the list. The group
    of a contact holds at most one send, to the formatted phone of the
    contact, then the record of the contact, then the sleeps. After a
    failed send there is no sleep. After a successful send there is no
    sleep when the contact is the last one; otherwise the loop sleeps
    (once or twice) before it goes on to the next contact. *)
Theorem delay_follows_success_only (env : Env) (contacts : list Contact.t)
    (ds : DelaySettings.t) (w : World) :
  isInterrupted w = false →
  ∃ groups,
    trace (exec (sendBulkMessagesInternal env contacts ds) w)
    = trace w ++ concat groups
    ∧ length groups = length contacts
    ∧ ∀ (i : nat) c, contacts !! i = Some c →
        ∃ sends o waits,
          groups !! i = Some (sends ++ EvRecord c o :: (EvWait <$> waits))
          ∧ (sends = []
             ∨ ∃ t, sends = [EvSend (formatPhoneNumber (Contact.phone c)) t])
          ∧ match o with
            | Failed => waits = []
            | Succeeded =>
                if decide (S i < length contacts)%nat
                then (1 ≤ length waits ≤ 2)%nat
                else waits = []
            end.
Proof.
  intros Hw. unfold sendBulkMessagesInternal.
  destruct (sendLoop_spec env ds (length contacts) contacts 0%nat w Hw)
    as (os & rs & groups & (Ht & _) & Hloop & _).
  exists groups. split; [done|].
  split; [by apply (loopEvents_length _ _ _ _ _ _ _ Hloop)|].
  intros i c Hc.
  destruct (loopEvents_lookup _ _ _ _ _ _ _ i c Hloop Hc)
    as (o & evs & _ & Hg & Hit).
  cbn in Hit. destruct Hit as [|t|t Hlast|t k opt Hmore Hopt].
  - exists [], Failed, []. split_and!; eauto.
  - exists [EvSend (formatPhoneNumber (Contact.phone c)) t], Failed, [].
    split_and!; eauto.
  - exists [EvSend (formatPhoneNumber (Contact.phone c)) t], Succeeded, [].
    split_and!; eauto. case_decide; [lia|done].
  - destruct Hopt as [_|e k' _].
    + exists [EvSend (formatPhoneNumber (Contact.phone c)) t], Succeeded,
        [randomBetween (random env k) (DelaySettings.minDelay ds)
           (DelaySettings.maxDelay ds)].
      split_and!; eauto. case_decide; [|lia]. cbn. lia.
    + exists [EvSend (formatPhoneNumber (Contact.phone c)) t], Succeeded,
        [randomBetween (random env k) (DelaySettings.minDelay ds)
           (DelaySettings.maxDelay ds);
         randomBetween (random env k') (EveryNMessages.min e)
           (EveryNMessages.max e)].
      split_and!; eauto. case_decide; [|lia]. cbn. lia.
Qed.

(** ** The status of a session *)

Lemma resumeInterruptedSession_exec env sessionChoice w :
  exec (resumeInterruptedSession env sessionChoice) w
  = match sessionChoice with
    | Some k =>
        match interruptedSessions w !! k with
        | Some session => exec (resumeSession env session) w
        | None => w
        end
    | None => w
    end.
Proof.
  unfold resumeInterruptedSession. engine_unfold.
  cbn -[resumeSession interruptedSessions].
  destruct (interruptedSessions w) as [|s l]; cbn -[resumeSession].
  - by destruct sessionChoice as [k|].
  - destruct sessionChoice as [k|]; [|done]. by destruct ((s :: l) !! k).
Qed.





(** *** With the signal *)






Section InterleavingFacts.

Context (env : Env) (rejectionExits : bool).



Lemma recordThen_eq c t o e next resumeNow w :
  recordThen env c t o e next resumeNow w
  = match currentSession w with
    | None => resumeNow (emit (EvRecord c o) w)
    | Some s =>
        (SavingDir next,
         setCurrent
           (Some (BulkMessageSession.applyOutcome
                    (BulkMessageResult.mk c t (statusOf o)
                       (isoNow env (tick w)) e None) o s))
           (bump (emit (EvRecord c o) w)))
    end.
Proof.
  unfold recordThen. engine_unfold. cbn. by destruct (currentSession w).
Qed.



Lemma loopTop_cons after ds total i c rest w :
  loopTop env after ds total i (c :: rest) w
  = if isInterrupted w then afterLoop env after w
    else
      let address := formatPhoneNumber (Contact.phone c) in
      match pick env (messageTemplates w) (tick w) with
      | None =>
          recordThen env c None Failed (Some typeErrorName)
            (ThenLoop after ds total (S i) rest)
            (loopTop env after ds total (S i) rest) (bump w)
      | Some t =>
          (Sending after ds total i c rest t
             (deliver env (S (tick w)) address t),
           bump (emit (EvSend address t) (bump w)))
      end.
Proof.
  cbn [loopTop]. unfold mathRandom, send, pick. engine_unfold.
  cbn -[loopTop afterLoop recordThen Qfloor Qmult inject_Z].
  destruct (isInterrupted w); [done|]. by destruct (index _ _).
Qed.

Lemma delayStart_eq after ds total i rest w :
  delayStart env after ds total i rest w
  = if Z.of_nat i <? Z.of_nat total - 1 then
      (SleepingBase after ds total i rest,
       emit (EvWait (randomBetween (random env (tick w))
                       (DelaySettings.minDelay ds)
                       (DelaySettings.maxDelay ds)))
            (bump w))
    else loopTop env after ds total (S i) rest w.
Proof. unfold delayStart. by destruct (_ <? _). Qed.

Lemma ruleStart_eq after ds total i rest rules w :
  ruleStart env after ds total i rest rules w
  = match firstMatch (Z.of_nat i + 1) rules with
    | Some e =>
        (SleepingRule after ds total i rest,
         emit (EvWait (randomBetween (random env (tick w))
                         (EveryNMessages.min e) (EveryNMessages.max e)))
              (bump w))
    | None => loopTop env after ds total (S i) rest w
    end.
Proof.
  induction rules as [|[[e|]] rules IH]; [done| |].
  - cbn [ruleStart firstMatch DelayRule.everyNMessages].
    by destruct (remIsZero _ _).
  - exact IH.
Qed.















End InterleavingFacts.


(** ** Concrete runs *)

Lemma steady_random k : unitInterval (random steady k).
Proof. by split. Qed.

Lemma tenth_message_waits_twice_witness :
  ∃ t b r,
    trace (exec (sendOne steady priorityExample 11 9 alice)
             (idle [alice] defaultMessaging))
    = [EvSend "6281234567890@c.us" t; EvRecord alice Succeeded;
       EvWait b; EvWait r]
    ∧ 3 ≤ b ≤ 8 ∧ 20 ≤ r ≤ 30.
Proof.
  apply (tenth_message_waits_twice steady 11 alice
           (idle [alice] defaultMessaging)).
  - apply steady_random.
  - reflexivity.
  - discriminate.
  - lia.
Defined.

(** With the draws of [steady] the two sleeps are 6 s and 25 s. *)
Example tenth_message_trace :
  trace (exec (sendOne steady priorityExample 11 9 alice)
           (idle [alice] defaultMessaging))
  = [EvSend "6281234567890@c.us" welcome; EvRecord alice Succeeded;
     EvWait 6; EvWait 25].
Proof. reflexivity. Qed.

Lemma resumed_run_stays_running_witness :
  ∃ s',
    currentSession (exec (resumeSession steady stoppedAfterAlice)
                      (afterRestart [alice; bob]))
    = Some s'
    ∧ BulkMessageSession.status s' = running
    ∧ BulkMessageSession.endTime s' = Some "2025-08-13T10:00:05.000Z"
    ∧ BulkMessageResult.contact <$> BulkMessageSession.results s'
      = [alice; bob].
Proof.
  destruct (resumed_run_stays_running steady stoppedAfterAlice
              (afterRestart [alice; bob]))
    as (s' & evs & Hs & _ & Hst & He & Hres & _).
  - vm_compute. discriminate.
  - exists s'. split_and!; done.
Defined.

Lemma resume_completes_with_stale_pending_witness :
  ∃ s',
    files (exec (resumeSession steady stoppedAfterAlice)
             (afterRestart [alice; aliceAgain])) !! "session-1"
    = Some s'
    ∧ BulkMessageSession.status s' = completed
    ∧ BulkMessageSession.pendingContacts s' = 1.
Proof.
  destruct (resume_completes_with_stale_pending steady stoppedAfterAlice
              (afterRestart [alice; aliceAgain]))
    as (s' & Hf & _ & Hst & Hp).
  - vm_compute. reflexivity.
  - exists s'. split_and!; done.
Defined.

Lemma quickBulkSend_accepts_inverted_range_witness :
  ∃ s,
    files (exec (quickBulkSend steady true)
             (idle [alice; bob] invertedQuickRange)) !! "session-2"
    = Some s
    ∧ DelaySettings.minDelay (BulkMessageSession.delaySettings s) = 6
    ∧ DelaySettings.maxDelay (BulkMessageSession.delaySettings s) = 2.
Proof.
  destruct (quickBulkSend_accepts_inverted_range steady
              (idle [alice; bob] invertedQuickRange))
    as [(s & Hf & Hmin & Hmax & _) _].
  - discriminate.
  - discriminate.
  - cbn. lia.
  - exists s. split_and!; done.
Defined.

Lemma resume_drops_contacts_sharing_a_phone_witness :
  (alice ∉ remainingContacts stoppedAfterAlice [alice; aliceAgain; bob])
  ∧ (aliceAgain ∉ remainingContacts stoppedAfterAlice [alice; aliceAgain; bob]).
Proof.
  apply (resume_drops_contacts_sharing_a_phone stoppedAfterAlice
           [alice; aliceAgain; bob] alice aliceAgain
           (BulkMessageResult.mk alice (Some welcome) success
              "2025-08-13T10:00:01.000Z" None None)).
  - apply list_elem_of_here.
  - apply list_elem_of_further, list_elem_of_here.
  - discriminate.
  - reflexivity.
  - apply list_elem_of_here.
  - reflexivity.
Defined.

(** C8 as stated fails: when the send to the first of two contacts
    fails, the send to the second follows the record of the first with no
    sleep in between. *)
Lemma no_delay_after_failed_send : ¬ delayAfterEveryContact.
Proof.
  intros Hclaim.
  destruct (Hclaim aliceBlocked [alice; bob] (DelaySettings.mk 3 8 [])
              (idle [alice; bob] defaultMessaging)
              [EvSend "6281234567890@c.us" welcome] alice Failed
              [EvSend "6281234567891@c.us" welcome; EvRecord bob Succeeded])
    as (seconds & after' & Heq); [reflexivity..|discriminate|].
  discriminate Heq.
Qed.

Lemma delay_follows_success_only_witness :
  ∃ groups,
    trace (exec (sendBulkMessagesInternal aliceBlocked [alice; bob]
                   (DelaySettings.mk 3 8 []))
             (idle [alice; bob] defaultMessaging))
    = concat groups
    ∧ length groups = 2%nat.
Proof.
  destruct (delay_follows_success_only aliceBlocked [alice; bob]
              (DelaySettings.mk 3 8 []) (idle [alice; bob] defaultMessaging))
    as (groups & Ht & Hlen & _).
  - reflexivity.
  - by exists groups.
Defined.



(** In that run the signal arrives at the end of the sleep that follows
    the message to Alice. The handler marks the session interrupted; the
    loop finds it so before the message to Bob and returns; the entry
    point finalizes the session as completed, and the handler, which saves
    after that, leaves it on disk completed with Bob pending, before it
    ends the process. *)
Example interrupted_session_left_completed :
  let after :=
    runTurns steady false signalAtEndOfSleep
      (atMenu [BulkEntry 3 8] (idle [alice; bob] defaultMessaging)) in
  exited after = true
  ∧ (λ s, (BulkMessageSession.status s,
           BulkMessageSession.completedContacts s,
           BulkMessageSession.pendingContacts s))
      <$> files (world after) !! "session-2"
    = Some (completed, 1, 1).
Proof. vm_compute. split; reflexivity. Qed.

(** *** A run stopped by the shutdown signal, then resumed *)

(** Stopped after the first of five contacts, the session is on disk as
    interrupted with 1 completed and 4 pending. *)
Example stopped_after_first_of_five :
  (λ s, (BulkMessageSession.status s, BulkMessageSession.completedContacts s,
         BulkMessageSession.failedContacts s,
         BulkMessageSession.pendingContacts s))
    <$> files (restartedAfterFirst [alice; bob; carol; dave; erin])
          !! "session-2"
  = Some (interrupted, 1, 0, 4).
Proof. vm_compute. reflexivity. Qed.

(** Resuming it sends to the four other contacts only, and leaves the
    session running with nothing pending. *)
Example resumed_after_first_of_five :
  let w' :=
    exec (resumeInterruptedSession steady (Some 0%nat))
         (restartedAfterFirst [alice; bob; carol; dave; erin]) in
  omap (λ e, match e with EvSend address _ => Some address | _ => None end)
       (trace w')
  = ["6281234567891@c.us"; "6281234567892@c.us"; "6281234567893@c.us";
     "6281234567894@c.us"]
  ∧ (λ s, (BulkMessageSession.status s, BulkMessageSession.completedContacts s,
           BulkMessageSession.pendingContacts s))
      <$> files w' !! "session-2"
    = Some (running, 5, 0).
Proof. vm_compute. split; reflexivity. Qed.

(** With a second entry for the phone of Alice in a list of two, the
    stopped run leaves 1 pending, and the resume finalizes the session as
    completed with that 1 still pending. *)
Example resumed_with_shared_phone :
  let w' :=
    exec (resumeInterruptedSession steady (Some 0%nat))
         (restartedAfterFirst [alice; aliceAgain]) in
  trace w'
  = [EvStatus "session-2" interrupted running;
     EvStatus "session-2" running completed]
  ∧ (λ s, (BulkMessageSession.status s, BulkMessageSession.completedContacts s,
           BulkMessageSession.pendingContacts s))
      <$> files w' !! "session-2"
    = Some (completed, 1, 1).
Proof. vm_compute. split; reflexivity. Qed.

(** * More of the program *)

(** ** Addresses *)

Lemma append_cons (c : ascii) (s t : string) :
  (String c s ++ t)%string = String c (s ++ t)%string.
Proof. reflexivity. Qed.

Lemma stripNonDigits_app (a b : string) :
  Js.stripNonDigits (a ++ b)%string
  = (Js.stripNonDigits a ++ Js.stripNonDigits b)%string.
Proof.
  induction a as [|c a IH]; [done|].
  rewrite append_cons. cbn [Js.stripNonDigits].
  destruct (Js.isDigit c); by rewrite ?append_cons, IH.
Qed.

Lemma stripNonDigits_digitsOnly (s : string) :
  digitsOnly s → Js.stripNonDigits s = s.
Proof.
  unfold digitsOnly. induction s as [|c s IH]; [done|].
  cbn [list_ascii_of_string Js.stripNonDigits]. intros [Hc Hs]%Forall_cons.
  destruct (Js.isDigit c); [|done]. by rewrite IH.
Qed.

Lemma digitsOnly_strip (s : string) : digitsOnly (Js.stripNonDigits s).
Proof. apply stripNonDigits_digits. Qed.

Lemma append_nil_r (s : string) : (s ++ "")%string = s.
Proof. induction s as [|c s IH]; [done|]. by rewrite append_cons, IH. Qed.

Lemma digitsOnly_subscriber d : digitsOnly d → digitsOnly (subscriber d).
Proof.
  unfold digitsOnly, subscriber. intros Hd.
  destruct d as [|c [|c' d]]; try done.
  - destruct c as [[] [] [] [] [] [] [] []]; try done; constructor.
  - cbn in Hd. apply Forall_cons in Hd as [Hc [Hc' Hd]%Forall_cons].
    destruct c as [[] [] [] [] [] [] [] []];
      try (by repeat constructor);
      destruct c' as [[] [] [] [] [] [] [] []]; by repeat constructor.
Qed.

Lemma formatPhoneNumber_subscriber (phone : string) :
  formatPhoneNumber phone
  = ("62" ++ subscriber (Js.stripNonDigits phone) ++ "@c.us")%string.
Proof.
  unfold formatPhoneNumber, subscriber.
  destruct (Js.stripNonDigits phone) as [|c [|c' d]]; try done.
  - destruct c as [[] [] [] [] [] [] [] []]; done.
  - destruct c as [[] [] [] [] [] [] [] []]; try done;
      destruct c' as [[] [] [] [] [] [] [] []]; done.
Qed.

Lemma stripNonDigits_suffix : Js.stripNonDigits "@c.us" = "".
Proof. reflexivity. Qed.

Lemma subscriber_62 (d : string) : subscriber ("62" ++ d)%string = d.
Proof. reflexivity. Qed.

Lemma subscriber_0 (d : string) : subscriber ("0" ++ d)%string = d.
Proof. reflexivity. Qed.

Lemma subscriber_prefix (digits : string) :
  ∃ prefix,
    digits = (prefix ++ subscriber digits)%string
    ∧ (prefix = "" ∨ prefix = "0" ∨ prefix = "62").
Proof.
  destruct digits as [|c [|c' d]].
  - exists "". split; [reflexivity|by left].
  - destruct c as [[] [] [] [] [] [] [] []];
      first [ exists ""; split; [reflexivity|left; reflexivity]
            | exists "0"; split; [reflexivity|right; left; reflexivity] ].
  - destruct c as [[] [] [] [] [] [] [] []];
      try (exists ""; split; [reflexivity|left; reflexivity]);
      try (exists "0"; split; [reflexivity|right; left; reflexivity]).
    destruct c' as [[] [] [] [] [] [] [] []];
      first [ exists ""; split; [reflexivity|left; reflexivity]
            | exists "62"; split; [reflexivity|right; right; reflexivity] ].
Qed.

(** X1. Whatever the input, the address [formatPhoneNumber] returns is
    62, then digits only, then the suffix: the digits are those of the
    input, in order, less at most one leading prefix, which is 0 or 62.
    No input is rejected; an input without a digit gives 62 and the
    suffix. *)
Theorem formatPhoneNumber_shape (phone : string) :
  ∃ prefix rest : string,
    formatPhoneNumber phone = ("62" ++ rest ++ "@c.us")%string
    ∧ digitsOnly rest
    ∧ Js.stripNonDigits phone = (prefix ++ rest)%string
    ∧ (prefix = "" ∨ prefix = "0" ∨ prefix = "62").
Proof.
  destruct (subscriber_prefix (Js.stripNonDigits phone))
    as (prefix & Heq & Hprefix).
  exists prefix, (subscriber (Js.stripNonDigits phone)).
  split_and!; [apply formatPhoneNumber_subscriber| |exact Heq|exact Hprefix].
  apply digitsOnly_subscriber, digitsOnly_strip.
Qed.

(** X2. [formatPhoneNumber] returns its own results unchanged: the
    suffix holds no digit and the digits of an address start with 62. *)
Theorem formatPhoneNumber_idempotent (phone : string) :
  formatPhoneNumber (formatPhoneNumber phone) = formatPhoneNumber phone.
Proof.
  rewrite (formatPhoneNumber_subscriber (formatPhoneNumber phone)).
  rewrite (formatPhoneNumber_subscriber phone) at 1.
  rewrite !stripNonDigits_app, stripNonDigits_suffix, append_nil_r.
  rewrite (stripNonDigits_digitsOnly (subscriber _))
    by apply digitsOnly_subscriber, digitsOnly_strip.
  change (Js.stripNonDigits "62") with "62".
  by rewrite subscriber_62, <- formatPhoneNumber_subscriber.
Qed.

(** X3. The local spelling (0...), the international spelling (62...)
    and the spelling with a plus sign (+62...) of one number give the
    same address, which is 62, the digits of the rest and the suffix. *)
Theorem formatPhoneNumber_spellings (rest : string) :
  formatPhoneNumber ("0" ++ rest)%string = formatPhoneNumber ("62" ++ rest)%string
  ∧ formatPhoneNumber ("+62" ++ rest)%string
    = formatPhoneNumber ("62" ++ rest)%string
  ∧ formatPhoneNumber ("62" ++ rest)%string
    = ("62" ++ Js.stripNonDigits rest ++ "@c.us")%string.
Proof.
  rewrite !formatPhoneNumber_subscriber, !stripNonDigits_app.
  change (Js.stripNonDigits "0") with "0".
  change (Js.stripNonDigits "62") with "62".
  change (Js.stripNonDigits "+62") with "62".
  by rewrite subscriber_0, subscriber_62.
Qed.

(** ** Contacts added through the prompt *)

Lemma forallb_digitsOnly (s : string) :
  forallb Js.isDigit (list_ascii_of_string s) = true → digitsOnly s.
Proof.
  unfold digitsOnly. intros H. apply Forall_forall. intros c Hc.
  rewrite forallb_forall in H. apply Is_true_true, H.
  by apply list_elem_of_In.
Qed.

Lemma phoneRegex_shape (s : string) :
  phoneRegex s = true →
  ∃ c rest,
    (s = String c rest ∨ s = String "+" (String c rest))
    ∧ isNonZeroDigit c = true
    ∧ digitsOnly rest
    ∧ (1 ≤ String.length rest ≤ 14)%nat.
Proof.
  unfold phoneRegex. intros H.
  set (body := match s with String "+" rest => rest | _ => s end) in H.
  assert (s = body ∨ s = String "+" body) as Hs.
  { subst body. destruct s as [|c s]; [by left|].
    destruct c as [[] [] [] [] [] [] [] []];
      first [left; reflexivity | right; reflexivity]. }
  destruct body as [|c rest]; [done|].
  apply andb_prop in H as [H H4]. apply andb_prop in H as [H H3].
  apply andb_prop in H as [H1 H2].
  exists c, rest. split_and!; try done.
  - by apply forallb_digitsOnly.
  - by apply Nat.leb_le.
  - by apply Nat.leb_le.
Qed.

(** X4. A phone the prompt of [addContact] accepts is stored without its
    white space, as two to fifteen digits after an optional plus sign,
    and the first digit is not 0. So the branch of [formatPhoneNumber]
    for local numbers is never taken for a contact added through the
    prompt: the address is the stored digits when they start with 62,
    and 62 followed by all of them otherwise, whatever country code they
    start with. *)
Theorem added_contact_is_addressed_by_its_digits (name phone : string) :
  validPhone phone = true →
  let stored := Contact.phone (newContact name phone) in
  ∃ digits,
    (stored = digits ∨ stored = ("+" ++ digits)%string)
    ∧ digitsOnly digits
    ∧ (2 ≤ String.length digits ≤ 15)%nat
    ∧ Js.startsWith "0" digits = false
    ∧ formatPhoneNumber stored
      = if Js.startsWith "62" digits then (digits ++ "@c.us")%string
        else ("62" ++ digits ++ "@c.us")%string.
Proof.
  intros Hv stored. subst stored. cbn [newContact Contact.phone].
  apply phoneRegex_shape in Hv as (c & rest & Hs & Hc & Hrest & Hlen).
  exists (String c rest).
  assert (digitsOnly (String c rest)) as Hd.
  { unfold digitsOnly. cbn [list_ascii_of_string]. apply Forall_cons.
    split; [|done]. apply andb_prop in Hc as [Hc _]. by apply Is_true_true. }
  assert (Js.startsWith "0" (String c rest) = false) as H0.
  { cbn [Js.startsWith]. apply andb_prop in Hc as [_ Hc].
    rewrite Ascii.eqb_sym. apply negb_true_iff in Hc. by rewrite Hc. }
  assert (Js.stripNonDigits (removeSpaces phone) = String c rest) as Hstrip.
  { destruct Hs as [-> | ->].
    - by apply stripNonDigits_digitsOnly.
    - change (Js.stripNonDigits (String "+" (String c rest)))
        with (Js.stripNonDigits (String c rest)).
      by apply stripNonDigits_digitsOnly. }
  split_and!; try done.
  - cbn [String.length]. lia.
  - cbn [String.length]. lia.
  - unfold formatPhoneNumber. cbn zeta. by rewrite Hstrip, H0.
Qed.

Lemma added_contact_is_addressed_by_its_digits_witness :
  validPhone "+62 812 3456 7890" = true
  ∧ ∃ digits,
      (Contact.phone (newContact "Ani" "+62 812 3456 7890") = digits
       ∨ Contact.phone (newContact "Ani" "+62 812 3456 7890")
         = ("+" ++ digits)%string)
      ∧ digitsOnly digits
      ∧ (2 ≤ String.length digits ≤ 15)%nat
      ∧ Js.startsWith "0" digits = false
      ∧ formatPhoneNumber (Contact.phone (newContact "Ani" "+62 812 3456 7890"))
        = if Js.startsWith "62" digits then (digits ++ "@c.us")%string
          else ("62" ++ digits ++ "@c.us")%string.
Proof.
  split; [reflexivity|].
  apply (added_contact_is_addressed_by_its_digits "Ani" "+62 812 3456 7890").
  reflexivity.
Defined.

(** ** Media paths of a template *)

Lemma trimStart_idemp s : trimStart (trimStart s) = trimStart s.
Proof.
  induction s as [|c s IH]; [done|]. cbn [trimStart].
  destruct (isSpace c) eqn:Hc; [done|]. cbn [trimStart]. by rewrite Hc.
Qed.

Lemma trimEnd_idemp s : trimEnd (trimEnd s) = trimEnd s.
Proof.
  induction s as [|c s IH]; [done|]. cbn [trimEnd].
  destruct (trimEnd s) as [|c' s'] eqn:Hs.
  - destruct (isSpace c) eqn:Hc; [done|]. cbn [trimEnd]. by rewrite Hc.
  - cbn [trimEnd] in *. by rewrite IH.
Qed.

Lemma trimStart_trimEnd s : trimStart (trimEnd s) = trimEnd (trimStart s).
Proof.
  induction s as [|c s IH]; [done|]. cbn [trimStart trimEnd].
  destruct (isSpace c) eqn:Hc.
  - rewrite <- IH. destruct (trimEnd s) as [|c' s'] eqn:Hs; [done|].
    cbn [trimStart]. by rewrite Hc.
  - cbn [trimEnd].
    destruct (trimEnd s) as [|c' s'] eqn:Hs; cbn [trimStart]; by rewrite Hc.
Qed.

Lemma trim_idemp s : trim (trim s) = trim s.
Proof.
  unfold trim.
  by rewrite trimStart_trimEnd, trimStart_idemp, trimEnd_idemp.
Qed.

Lemma trimStart_noComma s : noComma s → noComma (trimStart s).
Proof.
  unfold noComma. induction s as [|c s IH]; [done|].
  cbn [trimStart list_ascii_of_string]. intros [Hc Hs]%Forall_cons.
  destruct (isSpace c); [by apply IH|]. by apply Forall_cons.
Qed.

Lemma trimEnd_noComma s : noComma s → noComma (trimEnd s).
Proof.
  unfold noComma. induction s as [|c s IH]; [done|].
  cbn [trimEnd list_ascii_of_string]. intros [Hc Hs]%Forall_cons.
  specialize (IH Hs). destruct (trimEnd s) as [|c' s'].
  - destruct (isSpace c); [done|]. by apply Forall_cons.
  - by apply Forall_cons.
Qed.

Lemma trim_noComma s : noComma s → noComma (trim s).
Proof. intros. by apply trimEnd_noComma, trimStart_noComma. Qed.

Lemma splitComma_noComma s : Forall noComma (splitComma s).
Proof.
  induction s as [|c s IH]; [by repeat constructor|].
  cbn [splitComma]. destruct (Ascii.eqb c ",") eqn:Hc.
  - apply Forall_cons. split; [constructor|done].
  - apply Ascii.eqb_neq in Hc.
    destruct (splitComma s) as [|piece pieces].
    + by repeat constructor.
    + apply Forall_cons in IH as [Hp Hps]. apply Forall_cons.
      split; [|done]. by apply Forall_cons.
Qed.

Lemma trimStart_blank s : trimStart s = EmptyString ↔ blank s.
Proof.
  unfold blank. induction s as [|c s IH]; [done|].
  cbn [trimStart list_ascii_of_string]. rewrite Forall_cons.
  destruct (isSpace c) eqn:Hc.
  - rewrite IH. split; [by intros H; split|by intros [_ H]].
  - split; [done|]. by intros [[] _].
Qed.

Lemma trimEnd_empty s : trimEnd s = EmptyString → blank s.
Proof.
  unfold blank. induction s as [|c s IH]; [done|].
  cbn [trimEnd list_ascii_of_string].
  destruct (trimEnd s) as [|c' s']; [|done].
  destruct (isSpace c) eqn:Hc; [|done]. intros _.
  apply Forall_cons. split; [by apply Is_true_true|by apply IH].
Qed.

Lemma trimStart_suffix s :
  ∃ spaces, blank spaces ∧ s = (spaces ++ trimStart s)%string.
Proof.
  induction s as [|c s (sp & Hsp & IH)].
  { exists EmptyString. split; [constructor|reflexivity]. }
  cbn [trimStart]. destruct (isSpace c) eqn:Hc.
  - exists (String c sp). split.
    + apply Forall_cons. split; [by apply Is_true_true|done].
    + rewrite append_cons. by rewrite <- IH.
  - exists EmptyString. split; [constructor|reflexivity].
Qed.

Lemma blank_app a b : blank a → blank b → blank (a ++ b)%string.
Proof.
  unfold blank. induction a as [|c a IH]; [done|].
  rewrite append_cons. cbn [list_ascii_of_string].
  intros [Hc Ha]%Forall_cons Hb. apply Forall_cons. split; [done|].
  by apply IH.
Qed.

Lemma trim_blank s : trim s = EmptyString ↔ blank s.
Proof.
  unfold trim. split.
  - intros H%trimEnd_empty.
    destruct (trimStart_suffix s) as (sp & Hsp & ->).
    by apply blank_app.
  - intros H%trimStart_blank. by rewrite H.
Qed.

Lemma blank_space_noComma s : blank s → noComma s.
Proof.
  unfold blank, noComma. intros H. eapply Forall_impl; [exact H|].
  intros c Hc ->. exact Hc.
Qed.

Lemma splitComma_single s : noComma s → splitComma s = [s].
Proof.
  unfold noComma. induction s as [|c s IH]; [done|].
  cbn [list_ascii_of_string splitComma]. intros [Hc Hs]%Forall_cons.
  apply Ascii.eqb_neq in Hc. rewrite Hc, IH by done. done.
Qed.

Lemma nonEmpty_false s : nonEmpty s = false ↔ s = EmptyString.
Proof. destruct s; by cbn. Qed.

Lemma filter_nonEmpty_spec (pieces : list string) (p : string) :
  p ∈ List.filter nonEmpty pieces ↔ p ∈ pieces ∧ p ≠ EmptyString.
Proof.
  rewrite !list_elem_of_In, filter_In, <- nonEmpty_false.
  destruct (nonEmpty p); intuition congruence.
Qed.

Lemma filter_blank (pieces : list string) :
  Forall blank pieces → List.filter nonEmpty (trim <$> pieces) = [].
Proof.
  induction 1 as [|piece pieces Hp _ IH]; [done|].
  apply trim_blank in Hp. rewrite fmap_cons. cbn [List.filter].
  rewrite Hp. exact IH.
Qed.

(** X5. The media paths [addMessageTemplate] keeps are the pieces of the
    answer between commas, trimmed, the empty ones left out; the test on
    the trimmed answer in front of the split changes nothing. Every path
    kept is not empty, is trimmed and holds no comma. The template has
    no [media] field exactly when every piece is blank, and its [media]
    is never an empty list, so the test the senders make,
    [template.media && template.media.length > 0], holds exactly when
    the field is there. *)
Theorem media_paths_are_the_nonblank_pieces (name content input : string) :
  let template := newTemplate name content input in
  mediaPathsFilter input = List.filter nonEmpty (trim <$> splitComma input)
  ∧ (∀ path, path ∈ mediaPathsFilter input →
       path ≠ EmptyString ∧ trim path = path ∧ noComma path)
  ∧ (MessageTemplate.media template = None
     ↔ Forall blank (splitComma input))
  ∧ MessageTemplate.media template ≠ Some []
  ∧ (hasMedia template = true
     ↔ MessageTemplate.media template = Some (mediaPathsFilter input)).
Proof.
  intros template.
  assert (mediaPathsFilter input
          = List.filter nonEmpty (trim <$> splitComma input)) as Heq.
  { unfold mediaPathsFilter. destruct (nonEmpty (trim input)) eqn:Hn; [done|].
    apply nonEmpty_false, trim_blank in Hn.
    rewrite (splitComma_single input) by by apply blank_space_noComma.
    cbn. apply trim_blank in Hn. by rewrite Hn. }
  assert (mediaPathsFilter input = [] ↔ Forall blank (splitComma input))
    as Hnil.
  { rewrite Heq. split.
    - intros Hf. apply Forall_forall. intros piece Hp. apply trim_blank.
      destruct (trim piece) eqn:Ht; [done|].
      assert (trim piece ∈ List.filter nonEmpty (trim <$> splitComma input))
        as Hin.
      { apply filter_nonEmpty_spec. split; [by apply list_elem_of_fmap_2|].
        by rewrite Ht. }
      rewrite Hf in Hin. by apply elem_of_nil in Hin.
    - apply filter_blank. }
  subst template. unfold newTemplate, hasMedia. cbn [MessageTemplate.media].
  split_and!.
  - done.
  - intros path Hp. rewrite Heq in Hp.
    apply filter_nonEmpty_spec in Hp as [Hp Hne].
    apply list_elem_of_fmap in Hp as (piece & -> & Hpiece).
    split_and!; [done|apply trim_idemp|].
    apply trim_noComma.
    by apply (proj1 (Forall_forall _ _) (splitComma_noComma input)).
  - rewrite <- Hnil. by destruct (mediaPathsFilter input).
  - by destruct (mediaPathsFilter input).
  - by destruct (mediaPathsFilter input).
Qed.

(** ** Draws and rules *)

Lemma Qfloor_scale_neg (u : Q) (k : Z) :
  unitInterval u → k ≤ 0 → k ≤ Qfloor (u * inject_Z k) ≤ 0.
Proof.
  intros [Hlo Hhi] Hk. split.
  - rewrite <- (Qfloor_Z k) at 1. apply Qfloor_resp_le.
    destruct u as [a b]. unfold Qle, Qlt, Qmult, inject_Z in *. cbn in *.
    nia.
  - change 0 with (Qfloor 0). apply Qfloor_resp_le.
    destruct u as [a b]. unfold Qle, Qlt, Qmult, inject_Z in *. cbn in *.
    nia.
Qed.


(** X6. A draw [Math.floor(Math.random() * (max - min + 1)) + min] lies
    between the smaller of [min] and [max + 1] and the larger of [min]
    and [max], whether the two bounds are in order or not: in the range
    when [min <= max], and from [max + 1] to [min] when the bounds are
    inverted. *)
Theorem randomBetween_bounds (u : Q) (min max : Z) :
  unitInterval u →
  Z.min min (max + 1) ≤ randomBetween u min max ≤ Z.max min max.
Proof.
  intros Hu. unfold randomBetween.
  destruct (Z_lt_le_dec 0 (max - min + 1)) as [Hpos|Hneg].
  - pose proof (Qfloor_scale u _ Hu Hpos). lia.
  - pose proof (Qfloor_scale_neg u _ Hu Hneg). lia.
Qed.

Lemma randomBetween_bounds_witness :
  Z.min 8 (3 + 1) ≤ randomBetween (1 # 2) 8 3 ≤ Z.max 8 3.
Proof. apply (randomBetween_bounds (1 # 2) 8 3). by split. Defined.

Lemma firstMatch_Some m rules e :
  firstMatch m rules = Some e →
  ∃ before after,
    rules = before ++ DelayRule.mk (Some e) :: after
    ∧ remIsZero m (EveryNMessages.n e) = true
    ∧ ∀ e', DelayRule.mk (Some e') ∈ before →
            remIsZero m (EveryNMessages.n e') = false.
Proof.
  induction rules as [|[[e0|]] rules IH]; [done| |]; cbn.
  - destruct (remIsZero m (EveryNMessages.n e0)) eqn:H0.
    + intros [= ->]. exists [], rules. split_and!; try done.
      intros e' He'. by apply elem_of_nil in He'.
    + intros (before & after & -> & Hm & Hno)%IH.
      exists (DelayRule.mk (Some e0) :: before), after. split_and!; try done.
      intros e' [[= ->]|He']%elem_of_cons; [done|]. by apply Hno.
  - intros (before & after & -> & Hm & Hno)%IH.
    exists (DelayRule.mk None :: before), after. split_and!; try done.
    intros e' [[=]|He']%elem_of_cons. by apply Hno.
Qed.





(** ** The passes of the loop *)

Lemma sendOne_pass env ds total i c w :
  ∃ r evs,
    stepped w (exec (sendOne env ds total i c) w) [r] evs
    ∧ pass env (messageTemplates w) ds total i c r evs.
Proof.
  rewrite sendOne_exec. cbn zeta.
  set (w1 := bump w).
  assert (stepped w w1 [] []) as H1.
  { apply stepped_quiet; try done. cbn. by rewrite app_nil_r. }
  destruct (index _ _) as [t|] eqn:Hpick.
  2:{ exists (resultOf env w1 c None Failed (Some typeErrorName) None),
        [EvRecord c Failed].
      split.
      - apply (stepped_trans _ _ _ [] _ [] _ H1).
        apply updateSessionProgress_stepped.
      - by apply (pass_noTemplate _ _ _ _ _ _ (tick w)). }
  set (address := formatPhoneNumber _).
  set (w2 := bump (emit _ w1)).
  assert (stepped w w2 [] [EvSend address t]) as H2.
  { by apply stepped_quiet. }
  destruct (deliver _ _ _ _) as [msg|] eqn:Hd.
  { exists (resultOf env w2 c (Some t) Failed (Some msg) None),
      [EvSend address t; EvRecord c Failed].
    split.
    - apply (stepped_trans _ _ _ [] _ [_] _ H2).
      apply updateSessionProgress_stepped.
    - by apply (pass_sendFailed _ _ _ _ _ _ (tick w) (tick w1)). }
  set (r := resultOf env w2 c (Some t) Succeeded None None).
  set (w3 := exec (updateSessionProgress _ _ _ _ _ _) w2).
  assert (stepped w w3 [r] [EvSend address t; EvRecord c Succeeded]) as H3.
  { apply (stepped_trans _ _ _ [] _ [_] _ H2).
    apply updateSessionProgress_stepped. }
  exists r.
  destruct (Z.ltb_spec (Z.of_nat i) (Z.of_nat total - 1)) as [Hlt|Hge].
  2:{ exists ([EvSend address t; EvRecord c Succeeded] ++ (EvWait <$> [])).
      split; [done|].
      apply (pass_sent _ _ _ _ _ _ (tick w) (tick w1)); try done.
      constructor. lia. }
  rewrite applyOptionalDelays_exec.
  destruct (firstMatch _ _) as [e|] eqn:Hfm.
  - eexists. split.
    2:{ apply (pass_sent _ _ _ _ _ _ (tick w) (tick w1)); try done.
        by apply (sl_rule _ _ _ _ (tick w3) (S (tick w3)) e). }
    change [r] with ([r] ++ []).
    apply (stepped_trans _ _ _ _ _ _ _ H3).
    apply stepped_quiet; try done. cbn. by rewrite <- app_assoc.
  - eexists. split.
    2:{ apply (pass_sent _ _ _ _ _ _ (tick w) (tick w1)); try done.
        by apply (sl_base _ _ _ _ (tick w3)). }
    change [r] with ([r] ++ []).
    apply (stepped_trans _ _ _ _ _ _ _ H3).
    by apply stepped_quiet.
Qed.

Lemma sendLoop_passes env ds total todo :
  ∀ i w, isInterrupted w = false →
  ∃ rs groups,
    stepped w (exec (sendLoop env ds total i todo) w) rs (concat groups)
    ∧ passes env (messageTemplates w) ds total i todo rs groups.
Proof.
  induction todo as [|c rest IH]; intros i w Hw.
  - exists [], []. split; [|constructor].
    apply stepped_quiet; try done. cbn. by rewrite app_nil_r.
  - rewrite sendLoop_cons, Hw.
    destruct (sendOne_pass env ds total i c w) as (r & evs & H1 & Hp).
    destruct (IH (S i) (exec (sendOne env ds total i c) w))
      as (rs & groups & H2 & Hps).
    { by rewrite (stepped_isInterrupted _ _ _ _ H1). }
    exists (r :: rs), (evs :: groups). split.
    + apply (stepped_trans _ _ _ [r] rs _ _ H1 H2).
    + constructor; [done|].
      destruct H1 as (_ & (_ & Hm & _) & _). by rewrite Hm in Hps.
Qed.

Lemma startedFor_app evs evs' : startedFor (evs ++ evs') = startedFor evs ++ startedFor evs'.
Proof. apply omap_app. Qed.

Lemma slept_app evs evs' : slept (evs ++ evs') = slept evs ++ slept evs'.
Proof. apply omap_app. Qed.

Lemma startedFor_waits (waits : list Z) : startedFor (EvWait <$> waits) = [].
Proof. by induction waits. Qed.

Lemma slept_waits (waits : list Z) : slept (EvWait <$> waits) = waits.
Proof. induction waits as [|s waits IH]; [done|]. cbn. by f_equal. Qed.

Lemma passes_contacts env templates ds total i todo rs groups :
  passes env templates ds total i todo rs groups →
  BulkMessageResult.contact <$> rs = todo.
Proof.
  induction 1 as [|i c rest r rs evs groups Hp _ IH]; [done|].
  cbn. rewrite IH. by destruct Hp.
Qed.

Lemma pick_Some env templates k t :
  pick env templates k = Some t → t ∈ templates.
Proof.
  unfold pick, index. destruct (_ <? _); [done|].
  apply list_elem_of_lookup_2.
Qed.

Lemma pick_nil env k : pick env [] k = None.
Proof. unfold pick, index. by destruct (_ <? _). Qed.

Lemma pick_is_Some env templates k :
  unitInterval (random env k) → templates ≠ [] →
  is_Some (pick env templates k).
Proof.
  intros Hu Ht. destruct (index_random templates (random env k) Hu Ht)
    as (t & Hpick & _). by exists t.
Qed.

Lemma sleeps_within env ds total i waits :
  (∀ k, unitInterval (random env k)) → rangesInOrder ds →
  sleeps env ds total i waits →
  Forall (withinConfigured ds) waits ∧ (length waits ≤ 2)%nat
  ∧ (waits ≠ [] → (S i < total)%nat).
Proof.
  intros Hu [Hbase Hrules] [Hlast|k Hlt Hfm|k k' e Hlt Hfm].
  - split_and!; [constructor|cbn; lia|done].
  - split_and!; [|cbn; lia|lia].
    apply Forall_singleton. left. by apply randomBetween_range.
  - split_and!; [|cbn; lia|lia].
    apply firstMatch_Some in Hfm as (before & after & Heq & _ & _).
    assert (DelayRule.mk (Some e) ∈ DelaySettings.optionalDelays ds) as He.
    { rewrite Heq. apply elem_of_app. right. apply list_elem_of_here. }
    apply Forall_cons. split; [|apply Forall_singleton].
    + left. by apply randomBetween_range.
    + right. exists e. split; [done|]. apply randomBetween_range; auto.
Qed.

Lemma passes_sleeps env templates ds total i todo rs groups :
  (∀ k, unitInterval (random env k)) → rangesInOrder ds →
  (i + length todo ≤ total)%nat →
  passes env templates ds total i todo rs groups →
  Forall (withinConfigured ds) (slept (concat groups))
  ∧ (length (slept (concat groups)) ≤ 2 * (total - S i))%nat.
Proof.
  intros Hu Hr Hlen Hp. revert Hlen.
  induction Hp as [|i c rest r rs evs groups Hp _ IH]; intros Hlen.
  - split; [constructor|cbn; lia].
  - cbn [concat length] in *. rewrite slept_app, length_app.
    destruct IH as [IH1 IH2]; [lia|].
    assert (Forall (withinConfigured ds) (slept evs)
            ∧ (length (slept evs) ≤ 2)%nat
            ∧ (slept evs ≠ [] → (S i < total)%nat)) as (H1 & H2 & H3).
    { destruct Hp as [| |k k' stamp t waits _ _ Hs].
      - split_and!; [constructor|cbn; lia|done].
      - split_and!; [constructor|cbn; lia|done].
      - rewrite slept_app, slept_waits. cbn.
        by eapply sleeps_within. }
    split; [by apply Forall_app|].
    destruct (slept evs) as [|s l] eqn:Hsl; [cbn; lia|].
    specialize (H3 ltac:(done)). cbn [length] in *. lia.
Qed.

Lemma passes_startedFor env templates ds total i todo rs groups :
  (∀ k, unitInterval (random env k)) → templates ≠ [] →
  passes env templates ds total i todo rs groups →
  startedFor (concat groups)
  = (λ c, formatPhoneNumber (Contact.phone c)) <$> todo
  ∧ Forall (λ e, match e with
                 | EvSend _ t => t ∈ templates
                 | _ => True
                 end) (concat groups)
  ∧ Forall (λ r, ∃ t, BulkMessageResult.template r = Some t ∧ t ∈ templates)
           rs.
Proof.
  intros Hu Ht. induction 1 as [|i c rest r rs evs groups Hp _ IH].
  - by split_and!.
  - destruct IH as (IH1 & IH2 & IH3). cbn [concat fmap list_fmap].
    rewrite startedFor_app, IH1.
    destruct Hp as [k stamp Hk|k k' stamp t msg Hk _|k k' stamp t waits Hk _ _].
    + destruct (pick_is_Some env templates k (Hu k) Ht) as [t Hpick].
      congruence.
    + apply pick_Some in Hk. split_and!; [done| |].
      * repeat constructor; done.
      * constructor; [|done]. by exists t.
    + apply pick_Some in Hk. split_and!.
      * rewrite startedFor_app, startedFor_waits. done.
      * apply Forall_app. split; [|done].
        repeat constructor; try done.
        by apply Forall_fmap, Forall_forall.
      * constructor; [|done]. by exists t.
Qed.

Lemma passes_noTemplates env ds total i todo rs groups :
  passes env [] ds total i todo rs groups →
  concat groups = (λ c, EvRecord c Failed) <$> todo
  ∧ Forall (λ r,
       BulkMessageResult.template r = None
       ∧ BulkMessageResult.status r = failed
       ∧ BulkMessageResult.error r = Some typeErrorName
       ∧ BulkMessageResult.messageId r = None) rs.
Proof.
  induction 1 as [|i c rest r rs evs groups Hp _ [IH1 IH2]]; [done|].
  destruct Hp as [k stamp Hk|k k' stamp t msg Hk _|k k' stamp t waits Hk _ _];
    try (by rewrite pick_nil in Hk).
  cbn. rewrite IH1. split; [done|]. by constructor.
Qed.

Lemma passes_recordedFrom env templates ds total i todo rs groups :
  passes env templates ds total i todo rs groups →
  Forall3 (recordedFrom env) todo rs groups.
Proof.
  induction 1 as [|i c rest r rs evs groups Hp _ IH]; [constructor|].
  constructor; [|done].
  destruct Hp as [k stamp Hk|k k' stamp t msg Hk Hd|k k' stamp t waits Hk Hd _];
    (split; [done|]); (split; [done|]); cbn.
  - by left.
  - right. by exists k', t, msg.
  - by exists k', t, waits.
Qed.

Lemma sendBulkMessagesInternal_passes env cs ds w :
  isInterrupted w = false →
  ∃ rs groups,
    stepped w (exec (sendBulkMessagesInternal env cs ds) w) rs (concat groups)
    ∧ passes env (messageTemplates w) ds (length cs) 0 cs rs groups.
Proof. apply sendLoop_passes. Qed.

Lemma resumeSession_passes env session w :
  remainingContacts session (contacts w) ≠ [] →
  ∃ s' rs groups,
    let w' := exec (resumeSession env session) w in
    let remaining := remainingContacts session (contacts w) in
    currentSession w' = Some s'
    ∧ extends (BulkMessageSession.setStatus running session) s' rs
    ∧ files w' = <[BulkMessageSession.id session := s']> (files w)
    ∧ trace w'
      = trace w
        ++ EvStatus (BulkMessageSession.id session)
             (BulkMessageSession.status session) running
        :: concat groups
    ∧ passes env (messageTemplates w)
        (BulkMessageSession.delaySettings session)
        (length remaining) 0 remaining rs groups.
Proof.
  intros Hrem. rewrite resumeSession_exec. cbn zeta.
  destruct (remainingContacts session (contacts w)) as [|c rest] eqn:Heq;
    [done|].
  set (w1 := setCurrent _ _).
  destruct (sendBulkMessagesInternal_passes env (c :: rest)
              (BulkMessageSession.delaySettings session) w1 eq_refl)
    as (rs & groups & (Ht & _ & Hs) & Hp).
  cbn [currentSession w1 setCurrent] in Hs.
  destruct Hs as (s' & Hs' & Hext & Hf).
  exists s', rs, groups. split_and!; try done.
  - rewrite Hf. apply passes_contacts in Hp. by destruct rs.
  - rewrite Ht. cbn. by rewrite <- app_assoc.
Qed.

Lemma bulkRun_passes env ds w :
  ∃ s1 rs groups,
    let w' := bulkRun env ds w in
    let sid := freshId env (tick w) in
    let total := length (contacts w) in
    currentSession w' = None
    ∧ extends
        (BulkMessageSession.mk sid (isoNow env (S (tick w))) None
           (Z.of_nat total) 0 0 (Z.of_nat total) [] running ds)
        s1 rs
    ∧ (∃ stamp,
         files w'
         = <[sid := BulkMessageSession.setEndTime stamp
                      (BulkMessageSession.setStatus completed s1)]> (files w))
    ∧ trace w' = trace w ++ concat groups ++ [EvStatus sid running completed]
    ∧ passes env (messageTemplates w) ds total 0 (contacts w) rs groups
    ∧ sameInputs w w'.
Proof.
  unfold bulkRun. rewrite createNewSession_exec. cbn zeta.
  set (s0 := BulkMessageSession.mk _ _ _ _ _ _ _ _ _ _).
  set (w1 := writeFile _ _ _).
  destruct (sendBulkMessagesInternal_passes env (contacts w) ds w1 eq_refl)
    as (rs & groups & (Ht & Hin & Hs) & Hp).
  cbn [currentSession w1 writeFile setCurrent] in Hs.
  destruct Hs as (s1 & Hs1 & Hext & Hf).
  set (w2 := exec (sendBulkMessagesInternal _ _ _) w1) in *.
  rewrite (completeSession_Some _ _ s1) by done. cbn zeta.
  exists s1, rs, groups. cbn.
  pose proof Hext as [Hid _ _ _ Hst _ _ _ _ _ _].
  split_and!; try done.
  - exists (isoNow env (tick w2)). rewrite Hf, Hid.
    assert (files w1 = <[BulkMessageSession.id s0 := s0]> (files w)) as ->
      by done.
    destruct rs; by rewrite !insert_insert_eq.
  - rewrite Ht, Hid, Hst. cbn. by rewrite <- app_assoc.
Qed.

(** X8. With a template loaded and the draws of [Math.random()] in
    [0,1), the loop of [sendBulkMessagesInternal] over [cs], started
    while the session is not interrupted, starts one send for each
    contact of [cs], in the order of the list, for the address
    [formatPhoneNumber] gives for the phone of the contact, whether the
    send returns or throws; every send is for a template of the list. A
    send is a call of [sendMediaMessage] for a template with media,
    which can throw before anything reaches the client, and a call of
    [client.sendMessage] for any other. *)
Theorem each_contact_is_attempted_once (env : Env) (cs : list Contact.t)
    (ds : DelaySettings.t) (w : World) :
  (∀ k, unitInterval (random env k)) →
  messageTemplates w ≠ [] →
  isInterrupted w = false →
  ∃ evs,
    trace (exec (sendBulkMessagesInternal env cs ds) w) = trace w ++ evs
    ∧ startedFor evs = (λ c, formatPhoneNumber (Contact.phone c)) <$> cs
    ∧ Forall (λ e, match e with
                   | EvSend _ t => t ∈ messageTemplates w
                   | _ => True
                   end) evs.
Proof.
  intros Hu Ht Hw.
  destruct (sendBulkMessagesInternal_passes env cs ds w Hw)
    as (rs & groups & (Htr & _) & Hp).
  exists (concat groups). split; [done|].
  destruct (passes_startedFor _ _ _ _ _ _ _ _ Hu Ht Hp) as (? & ? & _). done.
Qed.

Lemma each_contact_is_attempted_once_witness :
  ∃ evs,
    trace (exec (sendBulkMessagesInternal steady [alice; bob]
                   (DelaySettings.mk 3 8 []))
             (idle [alice; bob] defaultMessaging))
    = trace (idle [alice; bob] defaultMessaging) ++ evs
    ∧ startedFor evs = ["6281234567890@c.us"; "6281234567891@c.us"]
    ∧ Forall (λ e, match e with
                   | EvSend _ t => t ∈ [welcome]
                   | _ => True
                   end) evs.
Proof.
  apply (each_contact_is_attempted_once steady [alice; bob]
           (DelaySettings.mk 3 8 []) (idle [alice; bob] defaultMessaging)).
  - apply steady_random.
  - discriminate.
  - reflexivity.
Defined.

(** X9. The loop appends one result for each contact, in order, to the
    results of the current session, and each result is the record of
    the pass for its contact. No result carries a [messageId]. A
    successful result has no [error], and its template is the template
    of the send that the pass started, which returned. A failed result
    either has no template and the text of the [TypeError] (no template
    could be picked, and the pass started no send), or has the template
    of the send that the pass started and the message of the error that
    this send threw, in the client or in [sendMediaMessage] before the
    client. No result is pending. *)
Theorem results_carry_errors_and_no_message_id (env : Env)
    (cs : list Contact.t) (ds : DelaySettings.t) (w : World)
    (s : BulkMessageSession.t) :
  currentSession w = Some s →
  BulkMessageSession.status s ≠ interrupted →
  ∃ s' rs groups,
    currentSession (exec (sendBulkMessagesInternal env cs ds) w) = Some s'
    ∧ BulkMessageSession.results s' = BulkMessageSession.results s ++ rs
    ∧ trace (exec (sendBulkMessagesInternal env cs ds) w)
      = trace w ++ concat groups
    ∧ Forall3 (recordedFrom env) cs rs groups.
Proof.
  intros Hs Hst.
  destruct (sendBulkMessagesInternal_passes env cs ds w)
    as (rs & groups & (Ht & _ & Hcur) & Hp).
  { unfold isInterrupted. rewrite Hs. by apply bool_decide_eq_false. }
  rewrite Hs in Hcur. destruct Hcur as (s' & Hs' & Hext & _).
  exists s', rs, groups. split_and!; try done.
  - apply Hext.
  - by eapply passes_recordedFrom.
Qed.

Lemma results_carry_errors_and_no_message_id_witness :
  ∃ s' rs groups,
    currentSession (exec (sendBulkMessagesInternal aliceBlocked [alice; bob]
                            (DelaySettings.mk 3 8 [])) runningOverTwo)
    = Some s'
    ∧ BulkMessageSession.results s'
      = BulkMessageSession.results twoRunning ++ rs
    ∧ trace (exec (sendBulkMessagesInternal aliceBlocked [alice; bob]
                     (DelaySettings.mk 3 8 [])) runningOverTwo)
      = trace runningOverTwo ++ concat groups
    ∧ Forall3 (recordedFrom aliceBlocked) [alice; bob] rs groups.
Proof.
  apply (results_carry_errors_and_no_message_id aliceBlocked [alice; bob]
           (DelaySettings.mk 3 8 []) runningOverTwo twoRunning).
  - reflexivity.
  - discriminate.
Defined.

(** In that run the send to Alice throws and the send to Bob returns. *)
Example results_of_a_blocked_and_a_sent_message :
  (λ s, (λ r, (BulkMessageResult.contact r, BulkMessageResult.status r,
               BulkMessageResult.template r, BulkMessageResult.error r))
          <$> BulkMessageSession.results s)
    <$> currentSession
          (exec (sendBulkMessagesInternal aliceBlocked [alice; bob]
                   (DelaySettings.mk 3 8 [])) runningOverTwo)
  = Some [(alice, failed, Some welcome, Some "blocked");
          (bob, success, Some welcome, None)].
Proof. vm_compute. reflexivity. Qed.

Lemma countStatus_all st rs :
  Forall (λ r, BulkMessageResult.status r = st) rs →
  countStatus st rs = Z.of_nat (length rs).
Proof.
  unfold countStatus. induction 1 as [|r rs Hr _ IH]; [done|].
  rewrite filter_cons_True by done. cbn [length]. lia.
Qed.

Lemma countStatus_none st rs :
  Forall (λ r, BulkMessageResult.status r ≠ st) rs → countStatus st rs = 0.
Proof.
  unfold countStatus. induction 1 as [|r rs Hr _ IH]; [done|].
  by rewrite filter_cons_False.
Qed.

(** X11. [resumeSession] does not look at the list of templates. With
    no template loaded and contacts remaining, each remaining contact is
    recorded as failed, with the text of the [TypeError] and no
    template; nothing is handed to the client and nothing is slept. The
    failed counter grows by the number of remaining contacts and the
    completed counter stays. *)
Theorem resume_without_templates_fails_every_contact (env : Env)
    (session : BulkMessageSession.t) (w : World) :
  messageTemplates w = [] →
  remainingContacts session (contacts w) ≠ [] →
  let w' := exec (resumeSession env session) w in
  let remaining := remainingContacts session (contacts w) in
  ∃ s' rs,
    currentSession w' = Some s'
    ∧ BulkMessageSession.results s' = BulkMessageSession.results session ++ rs
    ∧ BulkMessageResult.contact <$> rs = remaining
    ∧ Forall (λ r,
         BulkMessageResult.template r = None
         ∧ BulkMessageResult.status r = failed
         ∧ BulkMessageResult.error r = Some typeErrorName
         ∧ BulkMessageResult.messageId r = None) rs
    ∧ BulkMessageSession.failedContacts s'
      = BulkMessageSession.failedContacts session
        + Z.of_nat (length remaining)
    ∧ BulkMessageSession.completedContacts s'
      = BulkMessageSession.completedContacts session
    ∧ trace w'
      = trace w
        ++ EvStatus (BulkMessageSession.id session)
             (BulkMessageSession.status session) running
        :: ((λ c, EvRecord c Failed) <$> remaining).
Proof.
  intros Hnone Hrem w' remaining.
  destruct (resumeSession_passes env session w Hrem)
    as (s' & rs & groups & Hs' & Hext & _ & Ht & Hp).
  rewrite Hnone in Hp. pose proof (passes_contacts _ _ _ _ _ _ _ _ Hp) as Hcs.
  apply passes_noTemplates in Hp as [Hg Hrs].
  exists s', rs. split_and!; try done.
  - apply Hext.
  - rewrite (ext_failed _ _ _ Hext). cbn. f_equal.
    subst remaining. rewrite <- Hcs, length_fmap. apply countStatus_all.
    eapply Forall_impl; [done|]. by intros r (_ & ? & _).
  - rewrite (ext_completed _ _ _ Hext). cbn.
    rewrite countStatus_none; [lia|].
    eapply Forall_impl; [done|]. intros r (_ & Hf & _). by rewrite Hf.
  - subst w'. by rewrite Ht, Hg.
Qed.

Lemma resume_without_templates_fails_every_contact_witness :
  ∃ s',
    currentSession (exec (resumeSession steady stoppedAfterAlice)
                      afterRestartWithoutTemplates) = Some s'
    ∧ BulkMessageSession.failedContacts s' = 1
    ∧ BulkMessageSession.completedContacts s' = 1
    ∧ trace (exec (resumeSession steady stoppedAfterAlice)
               afterRestartWithoutTemplates)
      = [EvStatus "session-1" interrupted running; EvRecord bob Failed].
Proof.
  destruct (resume_without_templates_fails_every_contact steady
              stoppedAfterAlice afterRestartWithoutTemplates)
    as (s' & rs & Hs & _ & _ & _ & Hf & Hc & Ht).
  - reflexivity.
  - vm_compute. discriminate.
  - exists s'. split_and!; [exact Hs|exact Hf|exact Hc|exact Ht].
Defined.

(** X10. For delay settings whose bounds are whole numbers of seconds,
    as those of [DelaySettings.t] are: when the base range and the
    range of every rule have their minimum at or below their maximum,
    every sleep of the loop lies in the base range or in the range of
    one of the rules, and the loop over [cs] sleeps at most twice for
    each contact but the last. (With a bound that is not whole, which a
    prompt of the program accepts, a sleep can end above the maximum:
    from 1.5 and 3 the program can draw 3.5.) *)
Theorem sleeps_stay_within_configured_ranges (env : Env)
    (cs : list Contact.t) (ds : DelaySettings.t) (w : World) :
  (∀ k, unitInterval (random env k)) →
  rangesInOrder ds →
  isInterrupted w = false →
  ∃ evs,
    trace (exec (sendBulkMessagesInternal env cs ds) w) = trace w ++ evs
    ∧ Forall (withinConfigured ds) (slept evs)
    ∧ (length (slept evs) ≤ 2 * (length cs - 1))%nat.
Proof.
  intros Hu Hr Hw.
  destruct (sendBulkMessagesInternal_passes env cs ds w Hw)
    as (rs & groups & (Htr & _) & Hp).
  exists (concat groups). split; [done|].
  by apply (passes_sleeps _ _ _ _ _ _ _ _ Hu Hr) in Hp.
Qed.

Lemma sleeps_stay_within_configured_ranges_witness :
  ∃ evs,
    trace (exec (sendBulkMessagesInternal steady [alice; bob; carol]
                   priorityExample)
             (idle [alice; bob; carol] defaultMessaging))
    = trace (idle [alice; bob; carol] defaultMessaging) ++ evs
    ∧ Forall (withinConfigured priorityExample) (slept evs)
    ∧ (length (slept evs) ≤ 2 * (length [alice; bob; carol] - 1))%nat.
Proof.
  apply (sleeps_stay_within_configured_ranges steady [alice; bob; carol]
           priorityExample (idle [alice; bob; carol] defaultMessaging)).
  - apply steady_random.
  - split; [unfold priorityExample; cbn; lia|]. intros e He.
    apply list_elem_of_In in He. unfold priorityExample, every in He.
    cbn in He. destruct He as [[= <-]|[[= <-]|[]]]; cbn; lia.
  - reflexivity.
Defined.

(** ** Resumed runs *)

Lemma updateSessionProgress_setMessaging env m c t o e mid w :
  exec (updateSessionProgress env c t o e mid) (setMessaging m w)
  = setMessaging m (exec (updateSessionProgress env c t o e mid) w).
Proof.
  destruct (currentSession w) as [s|] eqn:Hs.
  - rewrite (updateSessionProgress_Some env (setMessaging m w) s),
      (updateSessionProgress_Some env w s) by done. done.
  - by rewrite !updateSessionProgress_None.
Qed.

Lemma sendOne_setMessaging env m ds total i c w :
  exec (sendOne env ds total i c) (setMessaging m w)
  = setMessaging m (exec (sendOne env ds total i c) w).
Proof.
  rewrite !sendOne_exec. cbn zeta.
  change (messageTemplates (setMessaging m w)) with (messageTemplates w).
  change (tick (setMessaging m w)) with (tick w).
  destruct (index _ _) as [t|].
  2:{ apply (updateSessionProgress_setMessaging env m _ _ _ _ _ (bump w)). }
  change (tick (bump (setMessaging m w))) with (tick (bump w)).
  destruct (deliver _ _ _ _) as [msg|].
  { apply (updateSessionProgress_setMessaging env m _ _ _ _ _
             (bump (emit _ (bump w)))). }
  change (bump (emit ?e (bump (setMessaging m w))))
    with (setMessaging m (bump (emit e (bump w)))).
  rewrite updateSessionProgress_setMessaging.
  destruct (_ <? _); [|done].
  rewrite !applyOptionalDelays_exec. by destruct (firstMatch _ _).
Qed.

Lemma sendLoop_setMessaging env m ds total todo :
  ∀ i w,
    exec (sendLoop env ds total i todo) (setMessaging m w)
    = setMessaging m (exec (sendLoop env ds total i todo) w).
Proof.
  induction todo as [|c rest IH]; intros i w; [done|].
  rewrite !sendLoop_cons.
  change (isInterrupted (setMessaging m w)) with (isInterrupted w).
  destruct (isInterrupted w); [done|].
  by rewrite sendOne_setMessaging, IH.
Qed.

Lemma completeSession_setMessaging env m st w :
  exec (completeSession env st) (setMessaging m w)
  = setMessaging m (exec (completeSession env st) w).
Proof.
  destruct (currentSession w) as [s|] eqn:Hs.
  - by rewrite (completeSession_Some env (setMessaging m w) s),
      (completeSession_Some env w s).
  - unfold completeSession. engine_unfold. cbn. by rewrite Hs.
Qed.

(** X12. A resumed run takes its delays from the session it resumes and
    reads nothing of the [messaging] section: under any other
    configuration [resumeSession] ends in the same world, the
    configuration apart. *)
Theorem resumed_run_ignores_the_configuration (env : Env)
    (session : BulkMessageSession.t) (m : Messaging.t) (w : World) :
  exec (resumeSession env session) (setMessaging m w)
  = setMessaging m (exec (resumeSession env session) w).
Proof.
  rewrite !resumeSession_exec. cbn zeta.
  change (contacts (setMessaging m w)) with (contacts w).
  destruct (remainingContacts session (contacts w)) as [|c rest].
  - apply (completeSession_setMessaging env m completed
             (setCurrent _ (emit _ w))).
  - unfold sendBulkMessagesInternal.
    apply (sendLoop_setMessaging env m _ _ _ _ (setCurrent _ (emit _ w))).
Qed.

(** The loop over [done ++ todo] is the loop over [done] followed by the
    loop over [todo]. *)
Lemma sendLoop_app env ds total done todo :
  ∀ i w,
    exec (sendLoop env ds total i (done ++ todo)) w
    = exec (sendLoop env ds total (i + length done) todo)
        (exec (sendLoop env ds total i done) w).
Proof.
  induction done as [|c done IH]; intros i w.
  - cbn [app length]. by rewrite Nat.add_0_r.
  - cbn [app length]. rewrite !sendLoop_cons.
    destruct (isInterrupted w) eqn:Hw.
    + by rewrite sendLoop_interrupted.
    + rewrite IH. by rewrite Nat.add_succ_r.
Qed.

Lemma gracefulShutdown_running env w s :
  currentSession w = Some s → BulkMessageSession.status s = running →
  exec (gracefulShutdown env) w = exec (completeSession env interrupted) w.
Proof.
  intros Hs Hst. unfold gracefulShutdown.
  assert (hasCurrentSession w = true) as Hh.
  { unfold hasCurrentSession. rewrite Hs. by apply bool_decide_eq_true. }
  engine_unfold. cbn -[completeSession]. by rewrite Hh.
Qed.

Lemma remainingContacts_after_prefix (session : BulkMessageSession.t)
    (done todo : list Contact.t) :
  BulkMessageResult.contact <$> BulkMessageSession.results session = done →
  NoDup (Contact.phone <$> (done ++ todo)) →
  remainingContacts session (done ++ todo) = todo.
Proof.
  intros Hres Hnd. unfold remainingContacts.
  assert (∀ p, p ∈ processedContacts session ↔ p ∈ Contact.phone <$> done)
    as Hin.
  { intros p. unfold processedContacts.
    rewrite elem_of_list_to_set, <- Hres, <- list_fmap_compose. done. }
  rewrite fmap_app in Hnd. apply NoDup_app in Hnd as (_ & Hdis & _).
  rewrite filter_app.
  assert (filter (λ c, Contact.phone c ∉ processedContacts session) done = [])
    as ->.
  { clear Hdis. generalize dependent (processedContacts session).
    intros P HP. 
    assert (Forall (λ c, Contact.phone c ∈ P) done) as HF.
    { apply Forall_forall. intros c Hc. apply HP.
      by apply list_elem_of_fmap_2. }
    clear HP Hres. induction HF as [|c l Hc _ IH]; [done|].
    rewrite filter_cons_False; [done|]. by intros []. }
  cbn [app].
  assert (Forall (λ c, Contact.phone c ∉ processedContacts session) todo)
    as HF.
  { apply Forall_forall. intros c Hc Hp. apply Hin in Hp.
    apply (Hdis _ Hp). by apply list_elem_of_fmap_2. }
  clear Hres Hin Hdis. induction HF as [|c l Hc _ IH]; [done|].
  by rewrite filter_cons_True, IH.
Qed.

(** *** The main function when no signal arrives *)

Section SoloFacts.

Context (env : Env) (rejectionExits : bool).
Context (later : list MenuEntry) (hs : list Handler).

Local Abbreviation runTurns := (runTurns env rejectionExits).
Local Abbreviation sys := (λ m w, mkSystem w m later hs false).

Lemma runTurns_app s1 s2 st :
  runTurns (s1 ++ s2) st = runTurns s2 (runTurns s1 st).
Proof. apply foldl_app. Qed.

Lemma mainTurns_S n st :
  runTurns (mainTurns (S n)) st
  = runTurns (mainTurns n) (turn env rejectionExits MainResumes st).
Proof. reflexivity. Qed.

Lemma mainTurns_add n n' st :
  runTurns (mainTurns (n + n')) st
  = runTurns (mainTurns n') (runTurns (mainTurns n) st).
Proof. unfold mainTurns. by rewrite replicate_add, runTurns_app. Qed.

(** A turn of the main function that is suspended in a run. *)
Lemma turn_main m w m' w' :
  m ≠ AtMenu → m ≠ Leaving → resumeMain env m w = (m', w') →
  turn env rejectionExits MainResumes (sys m w) = sys m' w'.
Proof.
  intros H1 H2 H. unfold turn. cbn [exited main world entries handlers].
  destruct m; try done; by rewrite H.
Qed.

(** One pass of the loop, turn by turn. *)
Lemma pass_solo after ds total i c rest m w w0 s :
  m ≠ AtMenu → m ≠ Leaving →
  resumeMain env m w = loopTop env after ds total i (c :: rest) w0 →
  currentSession w0 = Some s → isInterrupted w0 = false →
  ∃ n m',
    runTurns (mainTurns (S n)) (sys m w)
    = sys m' (exec (sendOne env ds total i c) w0)
    ∧ beforePass env after ds total (S i) rest m'
        (exec (sendOne env ds total i c) w0).
Proof.
  intros Hm1 Hm2 Hm Hs Hint.
  rewrite loopTop_cons, Hint in Hm. cbn zeta in Hm.
  rewrite sendOne_exec. cbn zeta. fold (pick env (messageTemplates w0) (tick w0)).
  destruct (pick env (messageTemplates w0) (tick w0)) as [t|].
  2:{ rewrite recordThen_eq in Hm. cbn [currentSession bump] in Hm.
      rewrite Hs in Hm.
      rewrite (updateSessionProgress_Some env (bump w0) s) by done.
      exists 1%nat, (SavingFile (ThenLoop after ds total (S i) rest)).
      split; [|done].
      rewrite mainTurns_S, (turn_main _ _ _ _ Hm1 Hm2 Hm).
      cbn. unfold saveWrite. engine_unfold. by cbn. }
  apply (turn_main _ _ _ _ Hm1 Hm2) in Hm.
  set (address := formatPhoneNumber (Contact.phone c)) in *.
  set (w2 := bump (emit (EvSend address t) (bump w0))) in *.
  change (tick (bump w0)) with (S (tick w0)).
  assert (currentSession w2 = Some s) as Hs2 by done.
  destruct (deliver env (S (tick w0)) address t) as [msg|].
  { rewrite (updateSessionProgress_Some env w2 s) by done.
    exists 2%nat, (SavingFile (ThenLoop after ds total (S i) rest)).
    split; [|done]. rewrite mainTurns_S, Hm.
    cbn. rewrite recordThen_eq, Hs2. cbn.
    unfold saveWrite. engine_unfold. by cbn. }
  rewrite (updateSessionProgress_Some env w2 s) by done. cbn zeta.
  set (r := resultOf env w2 c (Some t) Succeeded None None).
  set (s3 := BulkMessageSession.applyOutcome r Succeeded s).
  set (w3 := writeFile _ _ _).
  assert (runTurns (mainTurns 3) (sys m w)
          = sys (SavingFile (ThenDelay after ds total i rest)) w3) as H3.
  { rewrite mainTurns_S, Hm. cbn. rewrite recordThen_eq, Hs2. cbn.
    unfold saveWrite. engine_unfold. by cbn. }
  destruct (Z.of_nat i <? Z.of_nat total - 1) eqn:Hlt.
  2:{ exists 2%nat, (SavingFile (ThenDelay after ds total i rest)).
      split; [done|]. split_and!; try done.
      cbn. by rewrite delayStart_eq, Hlt. }
  rewrite applyOptionalDelays_exec.
  set (w4 := emit _ (bump w3)).
  assert (runTurns (mainTurns 4) (sys m w)
          = sys (SleepingBase after ds total i rest) w4) as H4.
  { change 4%nat with (3 + 1)%nat. rewrite mainTurns_add, H3.
    cbn. by rewrite delayStart_eq, Hlt. }
  destruct (firstMatch _ _) as [e|] eqn:He.
  - exists 4%nat, (SleepingRule after ds total i rest). split; [|done].
    change 5%nat with (4 + 1)%nat. rewrite mainTurns_add, H4.
    cbn. by rewrite ruleStart_eq, He.
  - exists 3%nat, (SleepingBase after ds total i rest). split; [done|].
    split_and!; try done. cbn. by rewrite ruleStart_eq, He.
Qed.

(** The passes for the contacts [done], turn by turn. *)
Lemma passes_solo after ds total todo done :
  ∀ i m w s,
    beforePass env after ds total i (done ++ todo) m w →
    currentSession w = Some s → isInterrupted w = false →
    ∃ n m',
      runTurns (mainTurns n) (sys m w)
      = sys m' (exec (sendLoop env ds total i done) w)
      ∧ beforePass env after ds total (i + length done) todo m'
          (exec (sendLoop env ds total i done) w).
Proof.
  induction done as [|c done IH]; intros i m w s Hm Hs Hint.
  - exists 0%nat, m. cbn [length]. by rewrite Nat.add_0_r.
  - cbn [app] in Hm.
    destruct Hm as (Hm1 & Hm2 & Hm).
    destruct (pass_solo _ _ _ _ _ _ _ _ _ _ Hm1 Hm2 Hm Hs Hint)
      as (n & m' & Hn & Hm').
    destruct (sendOne_spec env ds total i c w)
      as (o & r & evs & Hstep & _).
    pose proof (stepped_isInterrupted _ _ _ _ Hstep) as Hint'.
    rewrite Hint in Hint'.
    destruct Hstep as (_ & _ & Hcur). rewrite Hs in Hcur.
    destruct Hcur as (s' & Hs' & _).
    destruct (IH _ _ _ _ Hm' Hs' Hint') as (n' & m'' & Hn' & Hm'').
    exists (S n + n')%nat, m''.
    rewrite mainTurns_add, Hn, Hn', sendLoop_cons, Hint.
    split; [done|]. cbn [length]. by rewrite Nat.add_succ_r.
Qed.

Lemma turn_handler m w h hs0 :
  turn env rejectionExits (HandlerResumes (length hs0))
    (mkSystem w m later (hs0 ++ [h]) false)
  = let '((h', stop), w') := resumeHandler rejectionExits h w in
    mkSystem w' m later (hs0 ++ [h']) stop.
Proof.
  unfold turn. cbn [exited handlers world main entries].
  rewrite lookup_app_r, Nat.sub_diag by done. cbn [lookup list_lookup].
  destruct (resumeHandler rejectionExits h w) as [[h' stop] w'].
  by rewrite insert_app_r_alt, Nat.sub_diag by done.
Qed.

Lemma handlerStart_eq w :
  handlerStart env w
  = match currentSession w with
    | Some s =>
        if bool_decide (BulkMessageSession.status s = running) then
          (HSavingDir,
           setCurrent
             (Some (BulkMessageSession.setEndTime (isoNow env (tick w))
                      (BulkMessageSession.setStatus interrupted s)))
             (bump (emit (EvStatus (BulkMessageSession.id s)
                            (BulkMessageSession.status s) interrupted) w)))
        else (HDestroying, w)
    | None => (HDestroying, w)
    end.
Proof.
  unfold handlerStart, markStatus, toISOString. engine_unfold. cbn.
  destruct (currentSession w) as [s|]; [|done]. by destruct (bool_decide _).
Qed.

(** The handler of the signal, when nothing else has a turn before it
    ends. *)
Lemma handler_alone m w :
  runTurns [SignalArrives; HandlerResumes (length hs);
            HandlerResumes (length hs); HandlerResumes (length hs)] (sys m w)
  = mkSystem (exec (gracefulShutdown env) w) m later (hs ++ [HEnded]) true.
Proof.
  unfold runTurns. cbn [foldl]. unfold turn at 4.
  cbn [exited world main entries handlers]. rewrite handlerStart_eq.
  unfold gracefulShutdown, hasCurrentSession. engine_unfold.
  destruct (currentSession w) as [s|] eqn:Hs;
    [destruct (bool_decide (BulkMessageSession.status s = running))|].
  - cbn -[turn]. rewrite turn_handler.
    unfold resumeHandler at 1. engine_unfold. cbn -[turn].
    rewrite turn_handler.
    unfold resumeHandler at 1. engine_unfold. cbn -[turn].
    rewrite turn_handler. cbn.
    unfold completeSession, saveSessionResults, toISOString. engine_unfold.
    cbn. by rewrite Hs.
  - cbn -[turn]. rewrite turn_handler. by cbn.
  - cbn -[turn]. rewrite turn_handler. by cbn.
Qed.

(** The start of a bulk run, up to the first pass. *)
Lemma startRun_solo entry ds w :
  choose env entry w = startRun env ds w →
  let total := length (contacts w) in
  let w' := exec (createNewSession env (Z.of_nat total) ds) w in
  runTurns (mainTurns 2) (mkSystem w AtMenu (entry :: later) hs false)
  = sys (SavingFile (ThenLoop CompleteAfter ds total 0 (contacts w))) w'
  ∧ beforePass env CompleteAfter ds total 0 (contacts w)
      (SavingFile (ThenLoop CompleteAfter ds total 0 (contacts w))) w'.
Proof.
  intros Hc total w'. split; [|done].
  unfold runTurns, mainTurns. cbn [replicate foldl]. unfold turn at 2.
  cbn [exited main entries world handlers]. rewrite Hc.
  unfold startRun, generateSessionId, toISOString. engine_unfold. cbn.
  unfold saveWrite. engine_unfold. by cbn.
Qed.

(** After the loop. *)
Lemma afterLoop_solo after ds total i m w :
  beforePass env after ds total i [] m w →
  ∃ n,
    runTurns (mainTurns n) (sys m w)
    = sys AtMenu
        (match after with
         | CompleteAfter => exec (completeSession env completed) w
         | ReturnAfter => w
         end).
Proof.
  intros (Hm1 & Hm2 & Hm). cbn [loopTop] in Hm.
  destruct after; cbn [afterLoop] in Hm.
  - unfold completeStart, markStatus, toISOString in Hm. engine_unfold.
    cbn in Hm. unfold completeSession, saveSessionResults, toISOString.
    engine_unfold. cbn.
    destruct (currentSession w) as [s|] eqn:Hs.
    + exists 3%nat. rewrite mainTurns_S, (turn_main _ _ _ _ Hm1 Hm2 Hm).
      cbn. unfold saveWrite. engine_unfold. by cbn.
    + exists 1%nat. by rewrite mainTurns_S, (turn_main _ _ _ _ Hm1 Hm2 Hm).
  - exists 1%nat. by rewrite mainTurns_S, (turn_main _ _ _ _ Hm1 Hm2 Hm).
Qed.

(** The loop to its end and what follows it. *)
Lemma loop_solo after ds total todo i m w s :
  beforePass env after ds total i todo m w →
  currentSession w = Some s → isInterrupted w = false →
  ∃ n,
    runTurns (mainTurns n) (sys m w)
    = sys AtMenu
        (let w' := exec (sendLoop env ds total i todo) w in
         match after with
         | CompleteAfter => exec (completeSession env completed) w'
         | ReturnAfter => w'
         end).
Proof.
  intros Hm Hs Hint.
  destruct (passes_solo after ds total [] todo i m w s) as (n & m' & Hn & Hm');
    [by rewrite app_nil_r|done..|].
  destruct (afterLoop_solo _ _ _ _ _ _ Hm') as (n' & Hn').
  exists (n + n')%nat. by rewrite mainTurns_add, Hn, Hn'.
Qed.

End SoloFacts.

(** An entry of the menu chosen when no signal arrives: after enough
    turns the main function is back at the menu, in the world that the
    engine run in one piece gives. *)
Lemma solo_run_is_the_engine (env : Env) (rejectionExits : bool)
    (a : Action) (entry : MenuEntry) (w : World) :
  entryOf a = Some entry →
  ∃ n,
    runTurns env rejectionExits (mainTurns n) (atMenu [entry] w)
    = atMenu [] (exec (perform env a) w).
Proof.
  assert (∀ entry,
            choose env entry w = (AtMenu, w) →
            ∃ n, runTurns env rejectionExits (mainTurns n) (atMenu [entry] w)
                 = atMenu [] w) as Hmenu.
  { intros e He. exists 1%nat. unfold atMenu, runTurns, mainTurns.
    cbn [replicate foldl]. unfold turn. cbn [exited main entries world].
    by rewrite He. }
  assert (∀ entry ds,
            choose env entry w = startRun env ds w →
            ∃ n, runTurns env rejectionExits (mainTurns n) (atMenu [entry] w)
                 = atMenu [] (bulkRun env ds w)) as Hrun.
  { intros e ds He.
    destruct (startRun_solo env rejectionExits [] [] e ds w He) as [H2 Hb].
    rewrite createNewSession_exec in H2, Hb. cbn zeta in H2, Hb.
    destruct (loop_solo env rejectionExits [] [] _ _ _ _ _ _ _ _ Hb
                eq_refl eq_refl) as (n & Hn).
    exists (2 + n)%nat. unfold atMenu.
    rewrite mainTurns_add, H2, Hn. unfold bulkRun.
    by rewrite createNewSession_exec. }
  destruct a as [minDelay maxDelay|confirm|sessionChoice|];
    intros [= <-]; cbn [perform].
  - rewrite sendBulkMessages_exec.
    destruct (length (contacts w) =? 0)%nat eqn:H1;
      [apply Hmenu; unfold choose; engine_unfold; by rewrite H1|].
    destruct (length (messageTemplates w) =? 0)%nat eqn:H2;
      [apply Hmenu; unfold choose; engine_unfold; by rewrite H1, H2|].
    destruct (maxDelay <=? minDelay) eqn:H3;
      [apply Hmenu; unfold choose; engine_unfold; by rewrite H1, H2, H3|].
    apply Hrun. unfold choose. engine_unfold. by rewrite H1, H2, H3.
  - rewrite quickBulkSend_exec.
    destruct (length (contacts w) =? 0)%nat eqn:H1;
      [apply Hmenu; unfold choose; engine_unfold; by rewrite H1|].
    destruct (length (messageTemplates w) =? 0)%nat eqn:H2;
      [apply Hmenu; unfold choose; engine_unfold; by rewrite H1, H2|].
    destruct confirm;
      [|apply Hmenu; unfold choose; engine_unfold; by rewrite H1, H2].
    apply Hrun. unfold choose. engine_unfold. by rewrite H1, H2.
  - rewrite resumeInterruptedSession_exec.
    assert (choose env (ResumeEntry sessionChoice) w
            = match sessionChoice with
              | Some k =>
                  match interruptedSessions w !! k with
                  | Some session => (Choosing session, w)
                  | None => (AtMenu, w)
                  end
              | None => (AtMenu, w)
              end) as Hc.
    { unfold choose. engine_unfold. cbn -[interruptedSessions].
      destruct (interruptedSessions w) as [|s0 l]; cbn.
      - by destruct sessionChoice.
      - destruct sessionChoice as [k|]; [|done]. by destruct (_ !! k). }
    destruct sessionChoice as [k|]; [|by apply Hmenu].
    destruct (interruptedSessions w !! k) as [session|]; [|by apply Hmenu].
    assert (runTurns env rejectionExits (mainTurns 1)
              (atMenu [ResumeEntry (Some k)] w)
            = mkSystem w (Choosing session) [] [] false) as H1.
    { unfold atMenu, runTurns, mainTurns. cbn [replicate foldl]. unfold turn.
      cbn [exited main entries world]. by rewrite Hc. }
    rewrite resumeSession_exec. cbn zeta.
    set (w1 := setCurrent _ _).
    assert (resumeMain env (Choosing session) w
            = match remainingContacts session (contacts w) with
              | [] => completeStart env false w1
              | c :: rest =>
                  loopTop env ReturnAfter
                    (BulkMessageSession.delaySettings session)
                    (length (c :: rest)) 0 (c :: rest) w1
              end) as Hr.
    { cbn [resumeMain]. unfold resumeStart. engine_unfold.
      cbn -[completeStart loopTop remainingContacts].
      change (remainingContacts (BulkMessageSession.setStatus running session))
        with (remainingContacts session).
      by destruct (remainingContacts session (contacts w)). }
    assert (Choosing session ≠ AtMenu) as Hm1 by done.
    assert (Choosing session ≠ Leaving) as Hm2 by done.
    destruct (remainingContacts session (contacts w)) as [|c rest].
    + exists 4%nat. change 4%nat with (1 + 3)%nat.
      rewrite mainTurns_add, H1.
      unfold completeStart, markStatus, toISOString in Hr. engine_unfold.
      cbn in Hr.
      rewrite mainTurns_S, (turn_main _ _ _ _ _ _ _ _ Hm1 Hm2 Hr).
      unfold completeSession, saveSessionResults, toISOString.
      engine_unfold. cbn. unfold saveWrite. engine_unfold. by cbn.
    + destruct (pass_solo env rejectionExits [] [] _ _ _ _ _ _ _ _ _ _
                  Hm1 Hm2 Hr eq_refl eq_refl)
        as (n & m' & Hn & Hm').
      destruct (sendOne_spec env (BulkMessageSession.delaySettings session)
                  (length (c :: rest)) 0 c w1)
        as (o & r & evs & Hstep & _).
      pose proof (stepped_isInterrupted _ _ _ _ Hstep) as Hint'.
      destruct Hstep as (_ & _ & Hcur). cbn [currentSession w1 setCurrent] in Hcur.
      destruct Hcur as (s' & Hs' & _).
      destruct (loop_solo env rejectionExits [] [] _ _ _ _ _ _ _ _ Hm' Hs' Hint')
        as (n' & Hn').
      exists (1 + (S n + n'))%nat.
      rewrite mainTurns_add, H1, mainTurns_add, Hn, Hn'.
      unfold sendBulkMessagesInternal. by rewrite sendLoop_cons.
Qed.

(** *** A run stopped between two passes, then resumed *)

(** A bulk run up to its pass [k], turn by turn. *)
Lemma bulk_run_before_pass (env : Env) (rejectionExits : bool)
    (minDelay maxDelay : Z) (k : nat) (w : World) :
  (k < length (contacts w))%nat →
  messageTemplates w ≠ [] →
  minDelay < maxDelay →
  let ds := DelaySettings.mk minDelay maxDelay
              (Messaging.optionalDelays (messaging w)) in
  let total := length (contacts w) in
  let w' := exec (sendLoop env ds total 0 (take k (contacts w)))
              (exec (createNewSession env (Z.of_nat total) ds) w) in
  ∃ n m,
    runTurns env rejectionExits (mainTurns n)
      (atMenu [BulkEntry minDelay maxDelay] w)
    = mkSystem w' m [] [] false
    ∧ beforePass env CompleteAfter ds total k (drop k (contacts w)) m w'.
Proof.
  intros Hk Htpl Hlt ds total w'.
  assert (choose env (BulkEntry minDelay maxDelay) w = startRun env ds w)
    as Hc.
  { unfold choose. engine_unfold.
    destruct (contacts w) as [|c cs] eqn:Hcs; [cbn in Hk; lia|].
    destruct (messageTemplates w) as [|t ts] eqn:Hts; [done|].
    cbn [length Nat.eqb]. destruct (Z.leb_spec maxDelay minDelay); [lia|].
    done. }
  destruct (startRun_solo env rejectionExits [] [] _ ds w Hc) as [H2 Hb].
  rewrite createNewSession_exec in H2, Hb. cbn zeta in H2, Hb.
  set (m0 := SavingFile _) in *. set (w0 := writeFile _ _ _) in *.
  assert (beforePass env CompleteAfter ds total 0
            (take k (contacts w) ++ drop k (contacts w)) m0 w0) as Hb'
    by (by rewrite take_drop).
  destruct (passes_solo env rejectionExits [] [] _ _ _ _ _ _ _ _ _ Hb'
              eq_refl eq_refl) as (n & m & Hn & Hm).
  exists (2 + n)%nat, m. unfold atMenu. rewrite mainTurns_add, H2, Hn.
  subst w'. rewrite createNewSession_exec. cbn zeta. split; [done|].
  rewrite length_take, Nat.min_l in Hm by lia. exact Hm.
Qed.

(** A bulk run over contacts with pairwise distinct phones whose session
    is finalized as interrupted after [k] passes, then the program started
    again with the contacts [added] and the session resumed. *)
Lemma stopped_run_resumed (env env' : Env) (ds : DelaySettings.t) (k : nat)
    (added : list Contact.t) (w : World) :
  NoDup (Contact.phone <$> (contacts w ++ added)) →
  (k < length (contacts w))%nat →
  messageTemplates w ≠ [] →
  (∀ j, unitInterval (random env j)) →
  (∀ j, unitInterval (random env' j)) →
  let stopped :=
    exec (gracefulShutdown env)
      (exec (sendLoop env ds (length (contacts w)) 0 (take k (contacts w)))
         (exec (createNewSession env (Z.of_nat (length (contacts w))) ds)
            w)) in
  ∃ s firstRun,
    files stopped !! freshId env (tick w) = Some s
    ∧ BulkMessageSession.status s = interrupted
    ∧ BulkMessageSession.pendingContacts s
      = Z.of_nat (length (contacts w)) - Z.of_nat k
    ∧ s ∈ interruptedSessions (restarted added stopped)
    ∧ remainingContacts s (contacts w ++ added)
      = drop k (contacts w) ++ added
    ∧ trace stopped = trace w ++ firstRun
    ∧ ∃ s',
        let resumed := exec (resumeSession env' s) (restarted added stopped) in
        currentSession resumed = Some s'
        ∧ startedFor firstRun ++ startedFor (trace resumed)
          = (λ c, formatPhoneNumber (Contact.phone c))
              <$> (contacts w ++ added)
        ∧ BulkMessageResult.contact <$> BulkMessageSession.results s'
          = contacts w ++ added
        ∧ BulkMessageSession.totalContacts s'
          = Z.of_nat (length (contacts w))
        ∧ BulkMessageSession.pendingContacts s' = - Z.of_nat (length added)
        ∧ BulkMessageSession.delaySettings s' = ds.
Proof.
  intros Hnd Hk Htpl Hu Hu' stopped. subst stopped.
  rewrite createNewSession_exec. cbn zeta.
  set (total := length (contacts w)).
  set (s0 := BulkMessageSession.mk _ _ _ _ _ _ _ _ _ _).
  set (w1 := writeFile _ _ _).
  destruct (sendLoop_passes env ds total (take k (contacts w)) 0%nat w1 eq_refl)
    as (rs & groups & (Ht & Hin & Hs) & Hp).
  cbn [currentSession w1 writeFile setCurrent] in Hs.
  destruct Hs as (s1 & Hs1 & Hext & Hf).
  set (w2 := exec (sendLoop _ _ _ _ _) w1) in *.
  pose proof Hext as [Hid _ _ Htot Hst Hds Hres _ _ _ Hpend].
  rewrite (gracefulShutdown_running env w2 s1) by done.
  rewrite (completeSession_Some _ _ s1) by done. cbn zeta.
  set (s := BulkMessageSession.setEndTime _ _).
  pose proof (passes_contacts _ _ _ _ _ _ _ _ Hp) as Hcs.
  assert (length rs = k) as Hlen.
  { rewrite <- (length_fmap BulkMessageResult.contact), Hcs, length_take.
    lia. }
  assert (remainingContacts s (contacts w ++ added)
          = drop k (contacts w) ++ added) as Hrem.
  { rewrite <- (take_drop k (contacts w)) at 1. rewrite <- app_assoc.
    apply remainingContacts_after_prefix.
    - cbn. by rewrite Hres.
    - by rewrite app_assoc, take_drop. }
  exists s, (concat groups
             ++ [EvStatus (freshId env (tick w)) running interrupted]).
  split_and!.
  - cbn. rewrite Hid. apply lookup_insert_eq.
  - done.
  - cbn. rewrite Hpend, Hlen. done.
  - unfold interruptedSessions, loadSessionResults.
    apply list_elem_of_filter. split; [done|].
    apply list_elem_of_fmap. exists (freshId env (tick w), s). split; [done|].
    apply elem_of_map_to_list. cbn. rewrite Hid. apply lookup_insert_eq.
  - done.
  - cbn. rewrite Ht, Hid, Hst. cbn. by rewrite <- app_assoc.
  - set (w3 := restarted _ _).
    assert (contacts w3 = contacts w ++ added) as Hc3.
    { cbn. f_equal. apply Hin. }
    assert (messageTemplates w3 = messageTemplates w) as Ht3 by apply Hin.
    destruct (resumeSession_passes env' s w3)
      as (s' & rs' & groups' & Hs' & Hext' & _ & Ht' & Hp').
    { rewrite Hc3, Hrem. intros Hnil.
      apply (f_equal length) in Hnil. rewrite length_app, length_drop in Hnil.
      cbn in Hnil. lia. }
    rewrite Hc3, Hrem, Ht3 in Hp'.
    exists s'.
    pose proof (passes_contacts _ _ _ _ _ _ _ _ Hp') as Hcs'.
    destruct (passes_startedFor _ _ _ _ _ _ _ _ Hu Htpl Hp) as (Hsent & _).
    destruct (passes_startedFor _ _ _ _ _ _ _ _ Hu' Htpl Hp') as (Hsent' & _).
    pose proof Hext' as [_ _ _ Htot' _ Hds' Hres' _ _ _ Hpend'].
    split_and!; try done.
    + rewrite Ht'. cbn [trace w3 restarted app].
      rewrite startedFor_app.
      change (startedFor (EvStatus ?a ?b ?c :: ?l)) with (startedFor l).
      rewrite app_nil_r, Hsent, Hsent', <- fmap_app.
      by rewrite app_assoc, take_drop.
    + rewrite Hres'. cbn. rewrite Hres. cbn. rewrite fmap_app, Hcs, Hcs'.
      by rewrite app_assoc, take_drop.
    + rewrite Htot'. cbn. by rewrite Htot.
    + rewrite Hpend'. cbn. rewrite Hpend. cbn.
      rewrite <- (length_fmap BulkMessageResult.contact rs'), Hcs',
        length_app, length_drop, Hlen. subst total. lia.
    + rewrite Hds'. cbn. by rewrite Hds.
Qed.

(** X13. Let a bulk run over contacts with pairwise distinct phones be
    stopped by the shutdown signal between two passes of its loop:
    there is a number of turns after which the main function is
    suspended before pass [k] (in the sleep or the save that ends the
    pass before, or in the save of the new session), and the signal
    arrives then, its handler ending the process before the main
    function has another turn. Let the program be started again with
    the contacts [added] at the end of the list, and the session be
    resumed with no signal in the way. The stopped run leaves its
    session on disk, interrupted, with the contacts it did not reach
    pending; the resume plan is those contacts followed by the added
    ones; over the two runs one send is started for every contact, in
    the order of the list. The resumed session keeps the delay settings
    and the total of the first run, so its pending counter ends at minus
    the number of added contacts. (A signal that arrives while a send is
    in flight is another matter: [send_in_flight_is_repeated].) *)
Theorem stopped_then_resumed_reaches_every_contact_once (env env' : Env)
    (rejectionExits : bool) (minDelay maxDelay : Z) (k : nat)
    (added : list Contact.t) (w : World) :
  NoDup (Contact.phone <$> (contacts w ++ added)) →
  (k < length (contacts w))%nat →
  messageTemplates w ≠ [] →
  minDelay < maxDelay →
  (∀ j, unitInterval (random env j)) →
  (∀ j, unitInterval (random env' j)) →
  let ds := DelaySettings.mk minDelay maxDelay
              (Messaging.optionalDelays (messaging w)) in
  ∃ n : nat,
    let before :=
      runTurns env rejectionExits (mainTurns n)
        (atMenu [BulkEntry minDelay maxDelay] w) in
    let after := runTurns env rejectionExits signalTurns before in
    let stopped := world after in
    beforePass env CompleteAfter ds (length (contacts w)) k
      (drop k (contacts w)) (main before) (world before)
    ∧ isInterrupted (world before) = false
    ∧ exited after = true
    ∧ ∃ s firstRun,
        files stopped !! freshId env (tick w) = Some s
        ∧ BulkMessageSession.status s = interrupted
        ∧ BulkMessageSession.pendingContacts s
          = Z.of_nat (length (contacts w)) - Z.of_nat k
        ∧ s ∈ interruptedSessions (restarted added stopped)
        ∧ remainingContacts s (contacts w ++ added)
          = drop k (contacts w) ++ added
        ∧ trace stopped = trace w ++ firstRun
        ∧ ∃ s',
            let resumed :=
              exec (resumeSession env' s) (restarted added stopped) in
            currentSession resumed = Some s'
            ∧ startedFor firstRun ++ startedFor (trace resumed)
              = (λ c, formatPhoneNumber (Contact.phone c))
                  <$> (contacts w ++ added)
            ∧ BulkMessageResult.contact <$> BulkMessageSession.results s'
              = contacts w ++ added
            ∧ BulkMessageSession.totalContacts s'
              = Z.of_nat (length (contacts w))
            ∧ BulkMessageSession.pendingContacts s'
              = - Z.of_nat (length added)
            ∧ BulkMessageSession.delaySettings s' = ds.
Proof.
  intros Hnd Hk Htpl Hlt Hu Hu' ds.
  destruct (bulk_run_before_pass env rejectionExits minDelay maxDelay k w
              Hk Htpl Hlt) as (n & m & Hn & Hm).
  exists n. cbn zeta. rewrite Hn. unfold signalTurns.
  rewrite (handler_alone env rejectionExits [] [] m).
  cbn [main world exited].
  split; [exact Hm|]. split.
  { rewrite createNewSession_exec. cbn zeta. set (w1 := writeFile _ _ _).
    destruct (sendLoop_passes env ds (length (contacts w))
                (take k (contacts w)) 0%nat w1 eq_refl)
      as (rs & groups & Hstep & _).
    exact (stepped_isInterrupted _ _ _ _ Hstep). }
  split; [done|].
  apply (stopped_run_resumed env env' ds k added w Hnd Hk Htpl Hu Hu').
Qed.

Lemma stopped_then_resumed_reaches_every_contact_once_witness :
  ∃ (n : nat) s s',
    let stopped :=
      world (runTurns steady false signalTurns
               (runTurns steady false (mainTurns n)
                  (atMenu [BulkEntry 3 8]
                     (idle [alice; bob] defaultMessaging)))) in
    files stopped !! "session-2" = Some s
    ∧ BulkMessageSession.status s = interrupted
    ∧ BulkMessageSession.pendingContacts s = 1
    ∧ currentSession (exec (resumeSession steady s) (restarted [carol] stopped))
      = Some s'
    ∧ BulkMessageResult.contact <$> BulkMessageSession.results s'
      = [alice; bob; carol]
    ∧ BulkMessageSession.totalContacts s' = 2
    ∧ BulkMessageSession.pendingContacts s' = -1.
Proof.
  destruct (stopped_then_resumed_reaches_every_contact_once steady steady
              false 3 8 1 [carol] (idle [alice; bob] defaultMessaging))
    as (n & _ & _ & _ & s & firstRun & Hs & Hst & Hp & _ & _ & _ & s' & Hs'
        & _ & Hres & Htot & Hp' & _).
  - apply (bool_decide_unpack _). vm_compute. exact I.
  - cbn. lia.
  - discriminate.
  - lia.
  - apply steady_random.
  - apply steady_random.
  - exists n, s, s'.
    split_and!;
      [exact Hs|exact Hst|exact Hp|exact Hs'|exact Hres|exact Htot|exact Hp'].
Defined.

(** When the signal arrives while the send to Bob is in flight, the
    stopped run has started that send and has not recorded it: the resume
    sends to Bob again. *)
Example send_in_flight_is_repeated :
  let stopped :=
    world (runTurns steady false (mainTurns 7 ++ signalTurns)
             (atMenu [BulkEntry 3 8] (idle [alice; bob] defaultMessaging))) in
  let resumed :=
    exec (resumeInterruptedSession steady (Some 0%nat))
         (restarted [] stopped) in
  startedFor (trace stopped) = ["6281234567890@c.us"; "6281234567891@c.us"]
  ∧ (λ s, (BulkMessageSession.status s,
           BulkMessageResult.contact <$> BulkMessageSession.results s))
      <$> files stopped !! "session-2"
    = Some (interrupted, [alice])
  ∧ startedFor (trace resumed) = ["6281234567891@c.us"].
Proof. vm_compute. split_and!; reflexivity. Qed.

(** ** What the entry points leave alone *)

Lemma touchesOnly_refl sid w : touchesOnly sid w w.
Proof. split_and!; [done|done|by left]. Qed.

Lemma bulkRun_touchesOnly env ds w :
  touchesOnly (freshId env (tick w)) w (bulkRun env ds w).
Proof.
  destruct (bulkRun_passes env ds w)
    as (s1 & rs & groups & Hcur & _ & (stamp & Hf) & _ & _ & Hin).
  split_and!; [done| |].
  - intros other Hne. rewrite Hf. by apply lookup_insert_ne.
  - right. split; [done|]. rewrite Hf, lookup_insert_eq. by eexists.
Qed.

(** X14. [sendBulkMessages] and [quickBulkSend], whatever the answers to
    their prompts, leave the contacts, the templates and the
    configuration as they were and change no session file but the one
    named by the id they generate. Either they return without any
    change, or they end with no current session and with that file
    written: a session that was current before is no longer current. *)
Theorem bulk_entry_points_touch_one_session_file (env : Env) (w : World) :
  (∀ minDelay maxDelay,
     touchesOnly (freshId env (tick w)) w
       (exec (sendBulkMessages env minDelay maxDelay) w))
  ∧ (∀ confirm,
       touchesOnly (freshId env (tick w)) w
         (exec (quickBulkSend env confirm) w)).
Proof.
  split.
  - intros minDelay maxDelay. rewrite sendBulkMessages_exec.
    repeat (case_match; [apply touchesOnly_refl|]).
    apply bulkRun_touchesOnly.
  - intros confirm. rewrite quickBulkSend_exec.
    repeat (case_match; [apply touchesOnly_refl|]).
    apply bulkRun_touchesOnly.
Qed.

(** ** Deleting a session *)

Lemma loadSessionResults_nonempty (w : World) (sid : string)
    (s : BulkMessageSession.t) :
  files w !! sid = Some s → (length (loadSessionResults w) =? 0)%nat = false.
Proof.
  intros Hs. apply Nat.eqb_neq. unfold loadSessionResults.
  rewrite length_fmap. intros Hlen. apply nil_length_inv in Hlen.
  apply map_to_list_empty_iff in Hlen. by rewrite Hlen, lookup_empty in Hs.
Qed.

(** X15. [deleteSession] removes the file of the chosen session and no
    other file; it does not look at the current session. When the
    deleted session is the current one and is running, as after a
    resumed run, the next shutdown signal writes its file back, marked
    interrupted, with the results and the pending counter it had: the
    deleted session is listed again among those that can be resumed. *)
Theorem deleted_current_session_is_written_back (env : Env) (w : World)
    (s : BulkMessageSession.t) :
  currentSession w = Some s →
  BulkMessageSession.status s = running →
  BulkMessageSession.id s ≠ "" →
  is_Some (files w !! BulkMessageSession.id s) →
  let sid := BulkMessageSession.id s in
  let deleted := exec (deleteSession (Some sid) true) w in
  files deleted !! sid = None
  ∧ (∀ other, other ≠ sid → files deleted !! other = files w !! other)
  ∧ ∃ s',
      files (exec (gracefulShutdown env) deleted) !! sid = Some s'
      ∧ s' ∈ interruptedSessions (exec (gracefulShutdown env) deleted)
      ∧ BulkMessageSession.results s' = BulkMessageSession.results s
      ∧ BulkMessageSession.pendingContacts s'
        = BulkMessageSession.pendingContacts s.
Proof.
  intros Hs Hst Hid [s0 Hfile] sid deleted.
  assert (deleted = deleteSessionFile sid w) as ->.
  { subst deleted. unfold deleteSession. engine_unfold. cbn.
    rewrite (loadSessionResults_nonempty w sid s0) by done.
    apply String.eqb_neq in Hid. fold sid in Hid. by rewrite Hid. }
  split_and!.
  - cbn. apply lookup_delete_eq.
  - intros other Hne. cbn. by apply lookup_delete_ne.
  - rewrite (gracefulShutdown_running env _ s) by done.
    rewrite (completeSession_Some env _ s) by done. cbn zeta.
    set (s' := BulkMessageSession.setEndTime _ _).
    exists s'. split_and!; try done.
    + cbn. apply lookup_insert_eq.
    + unfold interruptedSessions, loadSessionResults.
      apply list_elem_of_filter. split; [done|].
      apply list_elem_of_fmap. exists (sid, s'). split; [done|].
      apply elem_of_map_to_list. cbn. apply lookup_insert_eq.
Qed.

Lemma deleted_current_session_is_written_back_witness :
  files (exec (deleteSession (Some "session-2") true) runningOverTwo)
    !! "session-2" = None
  ∧ ∃ s',
      files (exec (gracefulShutdown steady)
               (exec (deleteSession (Some "session-2") true) runningOverTwo))
        !! "session-2" = Some s'
      ∧ BulkMessageSession.status s' = interrupted.
Proof.
  destruct (deleted_current_session_is_written_back steady runningOverTwo
              twoRunning)
    as (Hgone & _ & s' & Hback & Hin & _).
  - reflexivity.
  - reflexivity.
  - discriminate.
  - eexists. vm_compute. reflexivity.
  - split; [exact Hgone|]. exists s'. split; [exact Hback|].
    unfold interruptedSessions in Hin.
    by apply list_elem_of_filter in Hin as [Hst _].
Defined.

(** ** One message to one contact *)

(** X16. When [sendSingleMessage] sends a text (a custom message, or a
    template without media), no error leaves it: the text is handed to
    the client at most once, at the formatted address, and an error of
    the client is caught and printed. The text is handed over only when
    the client is ready; when it is not, nothing reaches the client and
    the error printed is the one about the client not being ready,
    with the guidance for that case. When the client is ready and
    throws, the text was handed over once, and what is printed is the
    message of that error with the guidance [hintFor] gives for it. *)
Theorem single_text_send_reports_its_errors (client : Client)
    (contacts : list Contact.t) (messageTemplates : list MessageTemplate.t)
    (contactChoice : Contact.t) (messageType : MessageType)
    (messageContent : string) :
  textOf messageType = Some messageContent →
  let run :=
    sendSingleMessage client contacts messageTemplates contactChoice
      messageType in
  let formattedPhone := formatPhoneNumber (Contact.phone contactChoice) in
  (∀ error, run.1 ≠ SendThrown error)
  ∧ run.1 ≠ MediaMessageSent
  ∧ (run.2 = [] ∨ run.2 = [TextCall formattedPhone messageContent])
  ∧ (run.1 = MessageSent →
     info client = true
     ∧ run.2 = [TextCall formattedPhone messageContent]
     ∧ sendText client formattedPhone messageContent = None)
  ∧ (info client = false →
     run.2 = []
     ∧ (run.1 = NoContacts ∨ run.1 = NoTemplates
        ∨ run.1 = SendReported notReadyMessage (Some ClientNotReady)))
  ∧ (∀ errorMessage,
       info client = true →
       sendText client formattedPhone messageContent = Some errorMessage →
       (run.1 = NoContacts ∧ run.2 = [])
       ∨ (run.1 = NoTemplates ∧ run.2 = [])
       ∨ (run.1 = SendReported errorMessage (hintFor errorMessage)
          ∧ run.2 = [TextCall formattedPhone messageContent]))
  ∧ (contacts ≠ [] →
     (∀ templateChoice, messageType = UseTemplate templateChoice →
                        messageTemplates ≠ []) →
     run = sendTextMessage client formattedPhone messageContent).
Proof.
  intros Htext run formattedPhone. subst run. unfold sendSingleMessage.
  destruct contacts as [|c0 cs0].
  { cbn. split_and!; try done; [by left| |].
    - intros _. split; [done|by left].
    - intros msg _ _. by left. }
  cbn [length Nat.eqb]. fold formattedPhone.
  assert (∀ r : SingleOutcome * list ClientCall,
            r = sendTextMessage client formattedPhone messageContent →
            (∀ error, r.1 ≠ SendThrown error)
            ∧ r.1 ≠ MediaMessageSent
            ∧ (r.2 = [] ∨ r.2 = [TextCall formattedPhone messageContent])
            ∧ (r.1 = MessageSent →
               info client = true
               ∧ r.2 = [TextCall formattedPhone messageContent]
               ∧ sendText client formattedPhone messageContent = None)
            ∧ (info client = false →
               r.2 = []
               ∧ (r.1 = NoContacts ∨ r.1 = NoTemplates
                  ∨ r.1 = SendReported notReadyMessage (Some ClientNotReady)))
            ∧ (∀ errorMessage,
                 info client = true →
                 sendText client formattedPhone messageContent
                 = Some errorMessage →
                 (r.1 = NoContacts ∧ r.2 = [])
                 ∨ (r.1 = NoTemplates ∧ r.2 = [])
                 ∨ (r.1 = SendReported errorMessage (hintFor errorMessage)
                    ∧ r.2 = [TextCall formattedPhone messageContent])))
    as Htextcase.
  { intros r ->. unfold sendTextMessage.
    destruct (info client) eqn:Hi.
    - destruct (sendText client formattedPhone messageContent) eqn:Hs; cbn;
        split_and!; try done; try (by right).
      intros msg _ [= <-]. right. right. done.
    - cbn. split_and!; try done; [by left|].
      intros _. split; [done|]. right. right. reflexivity. }
  destruct messageType as [templateChoice|customMessage]; cbn in Htext.
  - destruct messageTemplates as [|t0 ts0].
    { cbn. split_and!; try done; [by left| | |].
      - intros _. split; [done|]. right. by left.
      - intros msg _ _. right. by left.
      - intros _ Hne. by destruct (Hne templateChoice eq_refl). }
    cbn [length Nat.eqb].
    destruct (hasMedia templateChoice); [done|].
    injection Htext as <-.
    destruct (Htextcase _ eq_refl) as (H1 & H2 & H3 & H4 & H5 & H6).
    split_and!; done.
  - injection Htext as <-.
    destruct (Htextcase _ eq_refl) as (H1 & H2 & H3 & H4 & H5 & H6).
    split_and!; done.
Qed.

Lemma single_text_send_reports_its_errors_witness :
  ((sendSingleMessage offline [alice] [welcome] alice (UseTemplate welcome)).2
   = []
   ∧ (sendSingleMessage offline [alice] [welcome] alice
        (UseTemplate welcome)).1
     = SendReported notReadyMessage (Some ClientNotReady))
  ∧ sendSingleMessage refusing [alice] [welcome] alice
      (TypeCustomMessage "Hi")
    = (SendReported "Evaluation failed: blocked" (Some MayBeBlocked),
       [TextCall "6281234567890@c.us" "Hi"]).
Proof.
  split.
  - destruct (single_text_send_reports_its_errors offline [alice] [welcome]
                alice (UseTemplate welcome) "Hello!")
      as (_ & _ & _ & _ & Hoff & _).
    + reflexivity.
    + destruct (Hoff eq_refl) as [Hcalls [H|[H|H]]].
      * discriminate H.
      * discriminate H.
      * split; [exact Hcalls|exact H].
  - destruct (single_text_send_reports_its_errors refusing [alice] [welcome]
                alice (TypeCustomMessage "Hi") "Hi")
      as (_ & _ & _ & _ & _ & _ & Hrun).
    + reflexivity.
    + rewrite Hrun; [reflexivity|discriminate|discriminate].
Defined.



(** ** The configuration manager *)

Lemma mergeConfigs_lookup (defaults : gmap string Json) (updates : Json)
    (key : string) :
  mergeConfigs defaults updates !! key
  = match ownProps updates !! key with
    | Some updateValue =>
        match defaults !! key with
        | None =>
            if String.eqb key "__proto__" then None
            else Some (mergedValue key None updateValue)
        | Some current => Some (mergedValue key (Some current) updateValue)
        end
    | None => defaults !! key
    end.
Proof.
  unfold mergeConfigs. revert key.
  apply (map_fold_weak_ind
           (λ merged (visited : gmap string Json),
              ∀ key, merged !! key
                     = match visited !! key with
                       | Some updateValue =>
                           match defaults !! key with
                           | None =>
                               if String.eqb key "__proto__" then None
                               else Some (mergedValue key None updateValue)
                           | Some current =>
                               Some (mergedValue key (Some current)
                                       updateValue)
                           end
                       | None => defaults !! key
                       end)).
  - intros key. by rewrite lookup_empty.
  - intros i x m r Hi IH key. unfold assign.
    pose proof (IH i) as Hri. rewrite Hi in Hri.
    destruct (decide (key = i)) as [->|Hne].
    + rewrite lookup_insert_eq, Hri.
      destruct (defaults !! i) as [d|].
      * by rewrite lookup_insert_eq.
      * destruct (String.eqb i "__proto__"); [by rewrite Hri|].
        by rewrite lookup_insert_eq.
    + rewrite (lookup_insert_ne m) by done. rewrite <- IH.
      destruct (r !! i); [by rewrite lookup_insert_ne|].
      destruct (String.eqb i "__proto__"); [done|].
      by rewrite lookup_insert_ne.
Qed.

Lemma mergeConfigs_lookup_ne (defaults : gmap string Json) (updates : Json)
    (key : string) :
  key ≠ "__proto__" →
  mergeConfigs defaults updates !! key
  = match ownProps updates !! key with
    | Some updateValue =>
        Some (mergedValue key (defaults !! key) updateValue)
    | None => defaults !! key
    end.
Proof.
  intros Hk%String.eqb_neq. rewrite mergeConfigs_lookup, Hk.
  destruct (ownProps updates !! key); [|done]. by destruct (defaults !! key).
Qed.

Lemma sections_not_proto (key : string) : key ∈ sections → key ≠ "__proto__".
Proof.
  intros Hk ->. revert Hk.
  apply (bool_decide_unpack ("__proto__" ∉ sections)). vm_compute. exact I.
Qed.

Lemma mergedValue_idemp (key : string) (current : option Json) (v : Json) :
  mergedValue key current (mergedValue key current v)
  = mergedValue key current v.
Proof.
  destruct v as [| | | | |fields]; try done. cbn [mergedValue].
  case_bool_decide as Hk; cbn [mergedValue]; [|by rewrite bool_decide_false].
  rewrite bool_decide_true by done.
  by rewrite <- (assoc_L (∪)), (idemp_L (∪)).
Qed.

Lemma mergedValue_self (key : string) (v : Json) :
  mergedValue key (Some v) v = v.
Proof.
  destruct v as [| | | | |fields]; try done. cbn.
  case_bool_decide; [|done]. by rewrite (idemp_L (∪)).
Qed.

Lemma mergeConfigs_again (defaults : gmap string Json) (updates : Json) :
  mergeConfigs defaults (JObj (mergeConfigs defaults updates))
  = mergeConfigs defaults updates.
Proof.
  apply map_eq. intros key. rewrite mergeConfigs_lookup. cbn [ownProps].
  rewrite mergeConfigs_lookup.
  destruct (ownProps updates !! key) as [v|].
  - destruct (defaults !! key) as [d|] eqn:Hd.
    + by rewrite mergedValue_idemp.
    + destruct (String.eqb key "__proto__") eqn:Hp; [done|].
      by rewrite mergedValue_idemp.
  - destruct (defaults !! key) as [d|] eqn:Hd; [|done].
    by rewrite mergedValue_self.
Qed.

Lemma mergeConfigs_self (defaults : gmap string Json) :
  mergeConfigs defaults (JObj defaults) = defaults.
Proof.
  apply map_eq. intros key. rewrite mergeConfigs_lookup. cbn [ownProps].
  destruct (defaults !! key) as [d|] eqn:Hd; [|done].
  by rewrite mergedValue_self.
Qed.

(** X18. When the update and the current configuration both hold an
    object under one of the five section keys, [mergeConfigs] merges
    them field by field: a field of the update replaces the field of
    the same name, whatever the two values are, and every other field
    of the section is kept. The merge is one level deep: a list or an
    object inside a section is replaced as a whole. *)
Theorem section_update_is_fieldwise (defaults : gmap string Json)
    (updates : Json) (key : string) (old new : gmap string Json) :
  key ∈ sections →
  defaults !! key = Some (JObj old) →
  ownProps updates !! key = Some (JObj new) →
  ∃ merged,
    mergeConfigs defaults updates !! key = Some (JObj merged)
    ∧ ∀ field,
        merged !! field
        = match new !! field with
          | Some value => Some value
          | None => old !! field
          end.
Proof.
  intros Hk Hold Hnew. exists (new ∪ old). split.
  - rewrite mergeConfigs_lookup, Hnew, Hold. cbn.
    by rewrite bool_decide_true.
  - intros field. rewrite lookup_union.
    destruct (new !! field), (old !! field); done.
Qed.

Lemma section_update_is_fieldwise_witness :
  ∃ merged,
    mergeConfigs defaultConfig
      (obj [("logging", obj [("level", JStr "debug")])]) !! "logging"
    = Some (JObj merged)
    ∧ ∀ field,
        merged !! field
        = match ({[ "level" := JStr "debug" ]} : gmap string Json) !! field
          with
          | Some value => Some value
          | None =>
              (list_to_map
                 [("level", JStr "info"); ("showProgress", JBool true);
                  ("showTimestamps", JBool true)] : gmap string Json)
                !! field
          end.
Proof.
  apply (section_update_is_fieldwise defaultConfig
           (obj [("logging", obj [("level", JStr "debug")])]) "logging").
  - apply (bool_decide_unpack _). vm_compute. exact I.
  - vm_compute. reflexivity.
  - vm_compute. reflexivity.
Defined.

(** The assignment to the key ["__proto__"] stores nothing in a
    configuration that has no such key: a file that holds that key, and
    nothing else, loads as the defaults. *)
Example proto_key_is_not_stored :
  mergeConfigs defaultConfig (obj [("__proto__", obj [("zzz", JNum 1)])])
  = defaultConfig.
Proof.
  apply map_eq. intros key. rewrite mergeConfigs_lookup.
  unfold obj. cbn [ownProps list_to_map foldr].
  destruct (decide (key = "__proto__")) as [->|Hne].
  - rewrite lookup_insert_eq. reflexivity.
  - by rewrite lookup_insert_ne, lookup_empty.
Qed.

(** X19. For an update that has no top-level key ["__proto__"]:
    [mergeConfigs] never drops a key of the configuration and leaves the
    keys the update does not name as they are. A value of the update
    that is not an object (a number, a string, a list, [null]) or that
    sits under a key that is not a section replaces the current value
    as it is, also when it replaces a whole section. An object under a
    section key is laid over the own properties of the current
    value, whatever that value is. *)
Theorem merge_keeps_keys_and_replaces_values (defaults : gmap string Json)
    (updates : Json) :
  ownProps updates !! "__proto__" = None →
  let merged := mergeConfigs defaults updates in
  (∀ key, is_Some (defaults !! key) → is_Some (merged !! key))
  ∧ (∀ key, ownProps updates !! key = None →
       merged !! key = defaults !! key)
  ∧ (∀ key value,
       ownProps updates !! key = Some value →
       key ∉ sections ∨ (∀ fields, value ≠ JObj fields) →
       merged !! key = Some value)
  ∧ (∀ key fields,
       ownProps updates !! key = Some (JObj fields) →
       key ∈ sections →
       merged !! key
       = Some (JObj (fields ∪ from_option ownProps ∅ (defaults !! key)))).
Proof.
  intros Hproto. cbn zeta.
  assert (∀ key value, ownProps updates !! key = Some value →
                       key ≠ "__proto__") as Hne.
  { intros key value Hu ->. by rewrite Hproto in Hu. }
  split_and!.
  - intros key [d Hd]. rewrite mergeConfigs_lookup, Hd.
    by destruct (ownProps updates !! key).
  - intros key Hu. by rewrite mergeConfigs_lookup, Hu.
  - intros key value Hu Hv.
    rewrite mergeConfigs_lookup_ne, Hu by (by eapply Hne). f_equal.
    destruct value as [| | | | |fields]; try done. cbn.
    destruct Hv as [Hk|Hv]; [by rewrite bool_decide_false|].
    by destruct (Hv fields).
  - intros key fields Hu Hk.
    rewrite mergeConfigs_lookup_ne, Hu by (by eapply Hne). cbn.
    by rewrite bool_decide_true.
Qed.

Lemma merge_keeps_keys_and_replaces_values_witness :
  mergeConfigs defaultConfig
    (obj [("logging", JNull); ("theme", obj [("dark", JBool true)])])
    !! "logging"
  = Some JNull
  ∧ mergeConfigs defaultConfig
      (obj [("logging", JNull); ("theme", obj [("dark", JBool true)])])
      !! "theme"
    = Some (obj [("dark", JBool true)])
  ∧ mergeConfigs defaultConfig
      (obj [("logging", JNull); ("theme", obj [("dark", JBool true)])])
      !! "paths"
    = defaultConfig !! "paths".
Proof.
  destruct (merge_keeps_keys_and_replaces_values defaultConfig
              (obj [("logging", JNull);
                    ("theme", obj [("dark", JBool true)])]))
    as (_ & Hkeep & Hreplace & _).
  - vm_compute. reflexivity.
  - split_and!.
    + apply Hreplace; [vm_compute; reflexivity|]. right. discriminate.
    + apply Hreplace; [vm_compute; reflexivity|]. left.
      apply (bool_decide_unpack _). vm_compute. exact I.
    + apply Hkeep. vm_compute. reflexivity.
Defined.

(** X20. After [loadConfig], whatever config.json held among the values
    of [Json] without a top-level key ["__proto__"] (or with no readable
    file), saving the configuration and loading it again changes
    nothing, and a manager that is constructed anew and loads the saved
    file gets the same configuration. *)
Theorem reload_after_save_is_stable (configFile : option Json) :
  (∀ savedConfig, configFile = Some savedConfig →
                  ownProps savedConfig !! "__proto__" = None) →
  let cm := ConfigManager.loadConfig (ConfigManager.new configFile) in
  ConfigManager.loadConfig (ConfigManager.saveConfig cm)
  = ConfigManager.saveConfig cm
  ∧ ConfigManager.config
      (ConfigManager.loadConfig
         (ConfigManager.new
            (ConfigManager.configFile (ConfigManager.saveConfig cm))))
    = ConfigManager.config cm.
Proof.
  intros _. destruct configFile as [saved|]; cbn.
  - unfold ConfigManager.loadConfig, ConfigManager.saveConfig. cbn.
    by rewrite mergeConfigs_again.
  - unfold ConfigManager.loadConfig, ConfigManager.saveConfig. cbn.
    by rewrite mergeConfigs_self.
Qed.

Lemma reload_after_save_is_stable_witness :
  let cm :=
    ConfigManager.loadConfig
      (ConfigManager.new
         (Some (obj [("logging", obj [("level", JStr "debug")])]))) in
  ConfigManager.loadConfig (ConfigManager.saveConfig cm)
  = ConfigManager.saveConfig cm.
Proof.
  apply (reload_after_save_is_stable
           (Some (obj [("logging", obj [("level", JStr "debug")])]))).
  intros savedConfig [= <-]. vm_compute. reflexivity.
Defined.

(** ** The settings menu *)

Lemma messagingOf_default : messagingOf defaultConfig = Some defaultMessaging.
Proof. vm_compute. reflexivity. Qed.

Lemma mergeConfigs_one_key (defaults : gmap string Json) (key : string)
    (value : Json) (k : string) :
  key ≠ "__proto__" →
  mergeConfigs defaults (obj [(key, value)]) !! k
  = if decide (k = key) then Some (mergedValue key (defaults !! key) value)
    else defaults !! k.
Proof.
  intros Hkey. case_decide as Hk.
  - subst k. rewrite mergeConfigs_lookup_ne by done.
    unfold obj. cbn [ownProps list_to_map foldr]. by rewrite lookup_insert_eq.
  - rewrite mergeConfigs_lookup.
    unfold obj. cbn [ownProps list_to_map foldr].
    by rewrite lookup_insert_ne, lookup_empty.
Qed.

Lemma insert_union_same (fields : gmap string Json) (key : string)
    (value : Json) :
  <[key := value]> fields ∪ fields = <[key := value]> fields.
Proof. by rewrite <- insert_union_l, (idemp_L (∪)). Qed.

Lemma updateConfig_messaging (cm : ConfigManager.t)
    (fields new : gmap string Json) :
  ConfigManager.config cm !! "messaging" = Some (JObj fields) →
  let cm' := ConfigManager.updateConfig (obj [("messaging", JObj new)]) cm in
  ConfigManager.config cm' !! "messaging" = Some (JObj (new ∪ fields))
  ∧ (∀ key, key ≠ "messaging" →
       ConfigManager.config cm' !! key = ConfigManager.config cm !! key)
  ∧ ConfigManager.configFile cm' = Some (JObj (ConfigManager.config cm')).
Proof.
  intros Hm. cbn. split_and!; [| |done].
  - rewrite mergeConfigs_one_key, Hm by discriminate. by rewrite decide_True.
  - intros key Hne. rewrite mergeConfigs_one_key by discriminate.
    by rewrite decide_False.
Qed.

(** X21. On a configuration whose [messaging] section is well typed,
    [updateOptionalDelays] does not throw. With [max <= min] it changes
    nothing. Otherwise the list of rules becomes the single rule that
    was entered, however many rules were configured before; the other
    fields of [messaging] and the other sections stay, and the
    configuration is written to config.json. *)
Theorem updateOptionalDelays_leaves_one_rule (n min max : Z)
    (cm : ConfigManager.t) (m : Messaging.t) :
  messagingOf (ConfigManager.config cm) = Some m →
  ∃ cm',
    updateOptionalDelays n min max cm = Some cm'
    ∧ (max ≤ min → cm' = cm)
    ∧ (min < max →
       messagingOf (ConfigManager.config cm')
       = Some (Messaging.mk
                 (Messaging.defaultMinDelay m) (Messaging.defaultMaxDelay m)
                 (Messaging.quickBulkMinDelay m)
                 (Messaging.quickBulkMaxDelay m) (Messaging.maxRetries m)
                 [DelayRule.mk (Some (EveryNMessages.mk n min max))])
       ∧ (∀ key, key ≠ "messaging" →
            ConfigManager.config cm' !! key = ConfigManager.config cm !! key)
       ∧ ConfigManager.configFile cm'
         = Some (JObj (ConfigManager.config cm'))).
Proof.
  intros Hm. unfold messagingOf in Hm.
  destruct (ConfigManager.config cm !! "messaging")
    as [[| | | | |fields]|] eqn:Hcfg; try done.
  unfold numberAt in Hm.
  destruct (fields !! "defaultMinDelay" ≫= asNum) as [a|] eqn:Ea; [|done].
  destruct (fields !! "defaultMaxDelay" ≫= asNum) as [b|] eqn:Eb; [|done].
  destruct (fields !! "quickBulkMinDelay" ≫= asNum) as [c|] eqn:Ec; [|done].
  destruct (fields !! "quickBulkMaxDelay" ≫= asNum) as [d|] eqn:Ed; [|done].
  destruct (fields !! "maxRetries" ≫= asNum) as [r|] eqn:Er; [|done].
  destruct (fields !! "optionalDelays") as [[| | | |items|]|] eqn:Eo;
    try done.
  cbn in Hm. destruct (mapM ruleOf items) as [rules|]; [|done].
  cbn in Hm. injection Hm as <-. cbn [Messaging.defaultMinDelay
    Messaging.defaultMaxDelay Messaging.quickBulkMinDelay
    Messaging.quickBulkMaxDelay Messaging.maxRetries].
  unfold updateOptionalDelays, ConfigManager.get. rewrite Hcfg.
  cbn [ownProps]. rewrite Eo.
  destruct (Z.leb_spec max min) as [Hle|Hlt].
  - exists cm. split_and!; [done|done|lia].
  - eexists. split; [reflexivity|]. split; [lia|]. intros _.
    destruct (updateConfig_messaging cm fields
                (<["optionalDelays" := JArr [ruleJson n min max]]> fields)
                Hcfg) as (Hnew & Hframe & Hfile).
    split_and!; [|done|done].
    unfold messagingOf. rewrite Hnew, insert_union_same. unfold numberAt.
    rewrite (lookup_insert_ne _ "optionalDelays" "defaultMinDelay"),
      (lookup_insert_ne _ "optionalDelays" "defaultMaxDelay"),
      (lookup_insert_ne _ "optionalDelays" "quickBulkMinDelay"),
      (lookup_insert_ne _ "optionalDelays" "quickBulkMaxDelay"),
      (lookup_insert_ne _ "optionalDelays" "maxRetries") by discriminate.
    rewrite Ea, Eb, Ec, Ed, Er. cbn [mbind option_bind].
    rewrite lookup_insert_eq. reflexivity.
Qed.

Lemma updateOptionalDelays_leaves_one_rule_witness :
  ∃ cm',
    updateOptionalDelays 5 20 30 (ConfigManager.new None) = Some cm'
    ∧ messagingOf (ConfigManager.config cm')
      = Some (Messaging.mk 3 8 2 6 3 [every 5 20 30]).
Proof.
  destruct (updateOptionalDelays_leaves_one_rule 5 20 30
              (ConfigManager.new None) defaultMessaging)
    as (cm' & Hcm & _ & Hnew).
  - vm_compute. reflexivity.
  - exists cm'. split; [exact Hcm|]. apply Hnew. lia.
Defined.

Lemma delaySettingsUpdate_typed (a b c d : Z) (fields : gmap string Json)
    (r o : Json) :
  fields !! "maxRetries" = Some r →
  fields !! "optionalDelays" = Some o →
  delaySettingsUpdate a b c d (JObj fields)
  = list_to_map
      [("defaultMinDelay", JNum a); ("defaultMaxDelay", JNum b);
       ("quickBulkMinDelay", JNum c); ("quickBulkMaxDelay", JNum d);
       ("maxRetries", r); ("optionalDelays", o)].
Proof.
  intros Hr Ho. unfold delaySettingsUpdate. cbn [ownProps].
  rewrite Hr, Ho. vm_compute. reflexivity.
Qed.

(** X22. On a configuration whose [messaging] section is well typed,
    [updateDelaySettings] does not throw and stores the four numbers it
    is given as they are, with no test that a minimum is below its
    maximum; [maxRetries], the rules and the other sections stay, and
    the configuration is written to config.json. *)
Theorem updateDelaySettings_stores_any_range (defaultMinDelay defaultMaxDelay
    quickBulkMinDelay quickBulkMaxDelay : Z) (cm : ConfigManager.t)
    (m : Messaging.t) :
  messagingOf (ConfigManager.config cm) = Some m →
  ∃ cm',
    updateDelaySettings defaultMinDelay defaultMaxDelay quickBulkMinDelay
      quickBulkMaxDelay cm = Some cm'
    ∧ messagingOf (ConfigManager.config cm')
      = Some (Messaging.mk defaultMinDelay defaultMaxDelay quickBulkMinDelay
                quickBulkMaxDelay (Messaging.maxRetries m)
                (Messaging.optionalDelays m))
    ∧ (∀ key, key ≠ "messaging" →
         ConfigManager.config cm' !! key = ConfigManager.config cm !! key)
    ∧ ConfigManager.configFile cm' = Some (JObj (ConfigManager.config cm')).
Proof.
  intros Hm. unfold messagingOf in Hm.
  destruct (ConfigManager.config cm !! "messaging")
    as [[| | | | |fields]|] eqn:Hcfg; try done.
  unfold numberAt in Hm.
  destruct (fields !! "defaultMinDelay" ≫= asNum) as [a|] eqn:Ea; [|done].
  destruct (fields !! "defaultMaxDelay" ≫= asNum) as [b|] eqn:Eb; [|done].
  destruct (fields !! "quickBulkMinDelay" ≫= asNum) as [c|] eqn:Ec; [|done].
  destruct (fields !! "quickBulkMaxDelay" ≫= asNum) as [d|] eqn:Ed; [|done].
  destruct (fields !! "maxRetries") as [[| |r| | |]|] eqn:Er; try done.
  destruct (fields !! "optionalDelays") as [[| | | |items|]|] eqn:Eo;
    try done.
  cbn in Hm. destruct (mapM ruleOf items) as [rules|] eqn:Erules; [|done].
  cbn in Hm. injection Hm as <-.
  cbn [Messaging.maxRetries Messaging.optionalDelays].
  unfold updateDelaySettings, ConfigManager.get. rewrite Hcfg.
  eexists. split; [reflexivity|].
  destruct (updateConfig_messaging cm fields
              (delaySettingsUpdate defaultMinDelay defaultMaxDelay
                 quickBulkMinDelay quickBulkMaxDelay (JObj fields))
              Hcfg) as (Hnew & Hframe & Hfile).
  split_and!; [|done|done].
  unfold messagingOf. rewrite Hnew.
  rewrite (delaySettingsUpdate_typed _ _ _ _ fields (JNum r) (JArr items))
    by done.
  unfold numberAt. rewrite !lookup_union.
  set (new := list_to_map _).
  assert (new !! "defaultMinDelay" = Some (JNum defaultMinDelay)) as ->
    by (vm_compute; reflexivity).
  assert (new !! "defaultMaxDelay" = Some (JNum defaultMaxDelay)) as ->
    by (vm_compute; reflexivity).
  assert (new !! "quickBulkMinDelay" = Some (JNum quickBulkMinDelay)) as ->
    by (vm_compute; reflexivity).
  assert (new !! "quickBulkMaxDelay" = Some (JNum quickBulkMaxDelay)) as ->
    by (vm_compute; reflexivity).
  assert (new !! "maxRetries" = Some (JNum r)) as ->
    by (vm_compute; reflexivity).
  assert (new !! "optionalDelays" = Some (JArr items)) as ->
    by (vm_compute; reflexivity).
  rewrite !union_Some_l. cbn [mbind option_bind asNum].
  rewrite Erules. reflexivity.
Qed.

Lemma updateDelaySettings_stores_any_range_witness :
  ∃ cm',
    updateDelaySettings 8 3 6 2 (ConfigManager.new None) = Some cm'
    ∧ messagingOf (ConfigManager.config cm')
      = Some (Messaging.mk 8 3 6 2 3 [every 10 30 60]).
Proof.
  destruct (updateDelaySettings_stores_any_range 8 3 6 2
              (ConfigManager.new None) defaultMessaging)
    as (cm' & Hcm & Hnew & _).
  - vm_compute. reflexivity.
  - exists cm'. split; [exact Hcm|exact Hnew].
Defined.

(** X23. A confirmed [resetConfiguration] leaves the default
    configuration in memory and in config.json, whatever was configured
    before and whatever keys the file held: the engine reads the default
    [messaging] section from it, and a manager that is constructed anew
    and loads the file gets the same state. Without the confirmation
    nothing changes. *)
Theorem reset_restores_the_defaults (cm : ConfigManager.t) :
  let cm' := resetConfiguration true cm in
  ConfigManager.config cm' = defaultConfig
  ∧ ConfigManager.configFile cm' = Some (JObj defaultConfig)
  ∧ messagingOf (ConfigManager.config cm') = Some defaultMessaging
  ∧ ConfigManager.loadConfig
      (ConfigManager.new (ConfigManager.configFile cm')) = cm'
  ∧ resetConfiguration false cm = cm.
Proof.
  cbn zeta. unfold resetConfiguration, ConfigManager.saveConfig,
    ConfigManager.new, ConfigManager.loadConfig.
  cbn [ConfigManager.config ConfigManager.configFile].
  split_and!.
  - reflexivity.
  - reflexivity.
  - apply messagingOf_default.
  - by rewrite mergeConfigs_self.
  - reflexivity.
Qed.
